(** * ConfigObjectUtility: runtime creation and deletion of config objects

    A shallow embedding of [lib/remote/configobjectutility.cpp] (Icinga 2).
    The C++ code is a sequence of effects on the local disk, on the object
    registry and on the two arrays the caller passes for error reporting.
    It is embedded as state passing over a record [World], in a small monad
    with three ways to leave a computation: a normal result, a C++
    exception, and an abort (a null pointer dereference, or the fuel of a
    recursive function running out). *)

From Stdlib Require Import ZArith String Ascii List Bool Lia.
From stdpp Require Import base gmap strings list.

Local Open Scope Z_scope.
Local Open Scope string_scope.

(** ** Strings *)

Module Str.

Definition IsEmpty (s : string) : bool :=
  match s with EmptyString => true | _ => false end.

Definition lower_ascii (c : ascii) : ascii :=
  let n := nat_of_ascii c in
  if (Nat.leb 65 n && Nat.leb n 90)%bool then ascii_of_nat (n + 32) else c.

(** [String::ToLower] and [boost::algorithm::to_lower]. *)
Fixpoint ToLower (s : string) : string :=
  match s with
  | EmptyString => EmptyString
  | String c r => String (lower_ascii c) (ToLower r)
  end.

(** [s.SubStr(0, s.FindFirstOf("."))]: the part before the first dot, the
    whole string when there is none. *)
Fixpoint before_first_dot (s : string) : string :=
  match s with
  | EmptyString => EmptyString
  | String c r => if Ascii.eqb c "." then EmptyString else String c (before_first_dot r)
  end.

(** [s.SubStr(0, n)]. *)
Fixpoint take (n : nat) (s : string) : string :=
  match n, s with
  | S n', String c r => String c (take n' r)
  | _, _ => EmptyString
  end.

(** Splits at the last occurrence of [sep]: [Some (before, after)]. *)
Fixpoint split_last (sep : ascii) (s : string) : option (string * string) :=
  match s with
  | EmptyString => None
  | String c r =>
      match split_last sep r with
      | Some (a, b) => Some (String c a, b)
      | None => if Ascii.eqb c sep then Some (EmptyString, r) else None
      end
  end.

Definition newline : string := String (ascii_of_nat 10) EmptyString.

End Str.

(** ** Exceptions and results *)

Inductive exn : Type :=
| std_exception (what : string)
| invalid_argument (what : string)
| ScriptError (what : string).

Inductive abort : Type := NullPointer | FuelExhausted.

Inductive Result (A : Type) : Type :=
| Ok (a : A)
| Throw (e : exn)
| Abort (why : abort).
Arguments Ok {A} a.
Arguments Throw {A} e.
Arguments Abort {A} why.

(** ** The reflection data: types and their fields *)

Inductive Value : Type :=
| Empty
| VBool (b : bool)
| VNumber (z : Z)
| VString (s : string).

(** A [Dictionary] iterates in the order of its keys; the list is kept in
    that order by [Dictionary_Set]. *)
Abbreviation Dictionary := (list (string * Value)).

Fixpoint Dictionary_Set (k : string) (v : Value) (d : Dictionary) : Dictionary :=
  match d with
  | [] => [(k, v)]
  | (k', v') :: r =>
      if String.eqb k k' then (k, v) :: r
      else if String.ltb k k' then (k, v) :: (k', v') :: r
      else (k', v') :: Dictionary_Set k v r
  end.

Fixpoint Dictionary_Get (k : string) (d : Dictionary) : Value :=
  match d with
  | [] => Empty
  | (k', v') :: r => if String.eqb k k' then v' else Dictionary_Get k r
  end.

Definition Dictionary_Remove (k : string) (d : Dictionary) : Dictionary :=
  List.filter (fun kv => negb (String.eqb k (fst kv))) d.

(** [src->CopyTo(dest)]: every pair of [src] is [Set] in [dest]. *)
Definition Dictionary_CopyTo (src dest : Dictionary) : Dictionary :=
  List.fold_left (fun acc kv => Dictionary_Set (fst kv) (snd kv) acc) src dest.

Record Field : Type := {
  f_Name : string;
  f_Attributes : Z
}.

Record TypeInfo : Type := {
  GetName : string;
  GetPluralName : string;
  type_fields : list Field;
  (** [dynamic_cast<ConfigType *>(type.get())] is not null. *)
  is_ConfigType : bool;
  (** [dynamic_cast<NameComposer *>(type.get())], with its [ParseName]. *)
  name_composer : option (string -> exn + Dictionary)
}.

Fixpoint field_index (name : string) (fs : list Field) (i : Z) : Z :=
  match fs with
  | [] => -1
  | f :: r => if String.eqb (f_Name f) name then i else field_index name r (i + 1)
  end.

Definition GetFieldId (t : TypeInfo) (name : string) : Z :=
  field_index name (type_fields t) 0.

Definition GetFieldInfo (t : TypeInfo) (fid : Z) : Field :=
  List.nth (Z.to_nat fid) (type_fields t) {| f_Name := ""; f_Attributes := 0 |}.

(** ** Objects, registry, disk *)

Record ConfigObject : Type := {
  o_type : TypeInfo;      (* GetReflectionType() *)
  o_name : string;        (* GetName() *)
  o_package : string;     (* GetPackage() *)
  o_path : string         (* GetDebugInfo().Path *)
}.

(** What [DependencyGraph::GetParents] hands out: [Object::Ptr], of which
    only some are config objects. *)
Inductive Object : Type :=
| ConfigObj (o : ConfigObject)
| PlainObj.

Definition dynamic_pointer_cast (p : Object) : option ConfigObject :=
  match p with ConfigObj o => Some o | PlainObj => None end.

(** Objects and items are keyed by the name of their type and their own name. *)
Abbreviation Key := (string * string)%type.

Definition key_of (o : ConfigObject) : Key := (GetName (o_type o), o_name o).

Record Registry : Type := {
  objects : gmap Key ConfigObject;     (* ConfigType::GetObject *)
  items : gset Key;                    (* ConfigItem::GetByTypeAndName *)
  active : gset Key;                   (* objects that are activated *)
  deleted_flag : gset Key;             (* extension "ConfigObjectDeleted" *)
  dependencies : gmap Key (list Object)  (* DependencyGraph::GetParents *)
}.

Record AtomicFile : Type := {
  af_path : string;
  af_mode : Z;
  af_data : string;
  af_committed : bool
}.

Inductive LogSeverity : Type :=
| LogDebug | LogNotice | LogInformation | LogWarning | LogCritical.

Abbreviation LogEntry := (LogSeverity * string * string)%type.

Abbreviation Cookie := Value.

Record World : Type := {
  packages : gset string;              (* ConfigPackageUtility::PackageExists *)
  active_stages : gmap string string;  (* ConfigPackageUtility::GetActiveStage *)
  (** What a [recursive_directory_iterator] over a directory yields, in its
      order: the path of each entry and whether it is a directory. *)
  listing : string -> list (string * bool);
  dirs : gmap string Z;                (* directories made by MkDirP, with mode *)
  files : gmap string (string * Z);    (* files at their final path: data, mode *)
  pending : list AtomicFile;           (* AtomicFile objects in scope, innermost first *)
  registry : Registry;
  (** The two arrays of the caller; [None] is a null [Array::Ptr]. *)
  errors : option (list string);
  diagnosticInformation : option (list string);
  log : list LogEntry;
  now : Z                              (* Utility::GetTime() *)
}.

Definition set_packages (v : gset string) (w : World) : World :=
  {| packages := v; active_stages := active_stages w; listing := listing w;
     dirs := dirs w; files := files w; pending := pending w;
     registry := registry w; errors := errors w;
     diagnosticInformation := diagnosticInformation w; log := log w; now := now w |}.

Definition set_active_stages (v : gmap string string) (w : World) : World :=
  {| packages := packages w; active_stages := v; listing := listing w;
     dirs := dirs w; files := files w; pending := pending w;
     registry := registry w; errors := errors w;
     diagnosticInformation := diagnosticInformation w; log := log w; now := now w |}.

Definition set_dirs (v : gmap string Z) (w : World) : World :=
  {| packages := packages w; active_stages := active_stages w; listing := listing w;
     dirs := v; files := files w; pending := pending w;
     registry := registry w; errors := errors w;
     diagnosticInformation := diagnosticInformation w; log := log w; now := now w |}.

Definition set_files (v : gmap string (string * Z)) (w : World) : World :=
  {| packages := packages w; active_stages := active_stages w; listing := listing w;
     dirs := dirs w; files := v; pending := pending w;
     registry := registry w; errors := errors w;
     diagnosticInformation := diagnosticInformation w; log := log w; now := now w |}.

Definition set_pending (v : list AtomicFile) (w : World) : World :=
  {| packages := packages w; active_stages := active_stages w; listing := listing w;
     dirs := dirs w; files := files w; pending := v;
     registry := registry w; errors := errors w;
     diagnosticInformation := diagnosticInformation w; log := log w; now := now w |}.

Definition set_registry (v : Registry) (w : World) : World :=
  {| packages := packages w; active_stages := active_stages w; listing := listing w;
     dirs := dirs w; files := files w; pending := pending w;
     registry := v; errors := errors w;
     diagnosticInformation := diagnosticInformation w; log := log w; now := now w |}.

Definition set_errors (v : option (list string)) (w : World) : World :=
  {| packages := packages w; active_stages := active_stages w; listing := listing w;
     dirs := dirs w; files := files w; pending := pending w;
     registry := registry w; errors := v;
     diagnosticInformation := diagnosticInformation w; log := log w; now := now w |}.

Definition set_diagnosticInformation (v : option (list string)) (w : World) : World :=
  {| packages := packages w; active_stages := active_stages w; listing := listing w;
     dirs := dirs w; files := files w; pending := pending w;
     registry := registry w; errors := errors w;
     diagnosticInformation := v; log := log w; now := now w |}.

Definition set_log (v : list LogEntry) (w : World) : World :=
  {| packages := packages w; active_stages := active_stages w; listing := listing w;
     dirs := dirs w; files := files w; pending := pending w;
     registry := registry w; errors := errors w;
     diagnosticInformation := diagnosticInformation w; log := v; now := now w |}.

Definition set_objects (v : gmap Key ConfigObject) (r : Registry) : Registry :=
  {| objects := v; items := items r; active := active r;
     deleted_flag := deleted_flag r; dependencies := dependencies r |}.

Definition set_items (v : gset Key) (r : Registry) : Registry :=
  {| objects := objects r; items := v; active := active r;
     deleted_flag := deleted_flag r; dependencies := dependencies r |}.

Definition set_active (v : gset Key) (r : Registry) : Registry :=
  {| objects := objects r; items := items r; active := v;
     deleted_flag := deleted_flag r; dependencies := dependencies r |}.

Definition set_deleted_flag (v : gset Key) (r : Registry) : Registry :=
  {| objects := objects r; items := items r; active := active r;
     deleted_flag := v; dependencies := dependencies r |}.

(** ** The monad *)

Definition M (A : Type) : Type := World -> Result A * World.

Definition ret {A} (a : A) : M A := fun w => (Ok a, w).

Definition bind {A B} (m : M A) (k : A -> M B) : M B :=
  fun w =>
    match m w with
    | (Ok a, w') => k a w'
    | (Throw e, w') => (Throw e, w')
    | (Abort y, w') => (Abort y, w')
    end.

Definition throw {A} (e : exn) : M A := fun w => (Throw e, w).
Definition crash {A} (y : abort) : M A := fun w => (Abort y, w).

(** [try { m } catch (const std::exception& ex) { h ex }]. *)
Definition try_catch {A} (m : M A) (h : exn -> M A) : M A :=
  fun w =>
    match m w with
    | (Throw e, w') => h e w'
    | r => r
    end.

Definition gets {A} (f : World -> A) : M A := fun w => (Ok (f w), w).
Definition modify (f : World -> World) : M unit := fun w => (Ok tt, f w).

Declare Scope cfg_scope.
Delimit Scope cfg_scope with cfg.
Notation "x <- c1 ;; c2" := (bind c1 (fun x => c2))
  (at level 100, c1 at next level, right associativity) : cfg_scope.
Notation "c1 ;; c2" := (bind c1 (fun _ => c2))
  (at level 100, right associativity) : cfg_scope.
Local Open Scope cfg_scope.

Definition when (b : bool) (m : M unit) : M unit := if b then m else ret tt.

Fixpoint for_each {A} (l : list A) (body : A -> M unit) : M unit :=
  match l with
  | [] => ret tt
  | x :: r => body x ;; for_each r body
  end.

(** [std::vector::empty]. *)
Definition is_empty {A} (l : list A) : bool :=
  match l with [] => true | _ => false end.

Definition Log (sev : LogSeverity) (facility msg : string) : M unit :=
  modify (fun w => set_log (log w ++ [(sev, facility, msg)])%list w).

(** ** Collaborators

    The functions of other libraries that the file calls. Those that only
    compute are taken as they are; the compiler and the item registry
    ([Evaluate], [CommitItems], [ActivateItems], [UpdateObjectAuthority])
    act on the registry and may throw; the I/O of [AtomicFile] and the
    methods [Deactivate] and [Unregister] of an object may throw. *)

Record Expression : Type := { expr_path : string; expr_text : string }.

Record Env : Type := {
  PackageDir : string;                                  (* ConfigPackageUtility::GetPackageDir() *)
  NewUniqueID : World -> string;                        (* the name CreateStage gives a new stage *)
  EscapeString : string -> string -> bool -> string;    (* Utility::EscapeString *)
  SHA1 : string -> string;                              (* hex-encoded, 40 bytes *)
  FAConfig : Z;                                         (* the FAConfig bit of a field *)
  ValueToString : Value -> string;                      (* the conversion of Value to String *)
  DiagnosticInformation : exn -> bool -> string;
  EmitConfigItem : string -> string -> bool -> bool -> option (list string) -> Dictionary -> string;
  AtomicFile_open_error : string -> option exn;
  AtomicFile_flush_error : string -> string -> option exn;
  CompileText : string -> string -> string -> string -> exn + Expression;
  Evaluate : Expression -> Registry -> Result unit * Registry;
  CommitItems : Registry -> Result (bool * list exn * list Key) * Registry;
  ActivateItems : list Key -> bool -> bool -> bool -> Cookie -> Registry -> Result bool * Registry;
  UpdateObjectAuthority : Registry -> Result unit * Registry;
  Deactivate_error : ConfigObject -> option exn;
  Unregister_error : ConfigObject -> option exn
}.

Definition lift_registry {A} (f : Registry -> Result A * Registry) : M A :=
  fun w => let (r, g) := f (registry w) in (r, set_registry g w).

(** [errors->Add(msg)] where the code does not test the pointer. *)
Definition errors_Add (msg : string) : M unit :=
  fun w =>
    match errors w with
    | Some l => (Ok tt, set_errors (Some (l ++ [msg])%list) w)
    | None => (Abort NullPointer, w)
    end.

Definition diagnosticInformation_Add (msg : string) : M unit :=
  fun w =>
    match diagnosticInformation w with
    | Some l => (Ok tt, set_diagnosticInformation (Some (l ++ [msg])%list) w)
    | None => (Abort NullPointer, w)
    end.

(** [if (errors)] and [if (diagnosticInformation)]. *)
Definition not_null {A} (p : option A) : bool :=
  match p with Some _ => true | None => false end.

Definition has_errors : M bool := gets (fun w => not_null (errors w)).
Definition has_diagnosticInformation : M bool :=
  gets (fun w => not_null (diagnosticInformation w)).

(** *** The disk *)

(** Modelled from the spec: [Utility::DirName] (base/utility.cpp is not
    under src/); the path without its last component. *)
Definition DirName (path : string) : string :=
  match Str.split_last "/" path with
  | Some (d, _) => d
  | None => "."
  end.

(** The prefixes [path.SubStr(0, pos)] for every ["/"] at a position of at
    least 1, then the whole path. *)
Fixpoint dir_prefixes (seen rest : string) : list string :=
  match rest with
  | EmptyString => [seen]
  | String c r =>
      if (Ascii.eqb c "/" && negb (Str.IsEmpty seen))%bool
      then seen :: dir_prefixes (seen +:+ String c EmptyString) r
      else dir_prefixes (seen +:+ String c EmptyString) r
  end.

Definition MkDir (mode : Z) (d : gmap string Z) (p : string) : gmap string Z :=
  match d !! p with
  | Some _ => d
  | None => <[p := mode]> d
  end.

(** Modelled from the spec: [Utility::MkDirP] (base/utility.cpp is not
    under src/) makes the directory and the ancestors that do not exist
    yet, each with the given mode. *)
Definition MkDirP (path : string) (mode : Z) : M unit :=
  modify (fun w => set_dirs (List.fold_left (MkDir mode) (dir_prefixes "" path) (dirs w)) w).

(** Modelled from the spec: [Utility::Remove] (base/utility.cpp is not
    under src/) removes the file at the path. *)
Definition Remove (path : string) : M unit :=
  modify (fun w => set_files (delete path (files w)) w).

(** Modelled from the spec: [AtomicFile] (base/atomic-file.hpp is not under
    src/) is the PendingWrite of the spec: a temp file with a target path,
    written to while in scope, moved to the target by [Commit], and removed
    when the object goes out of scope without a commit. *)
Definition AtomicFile_open (env : Env) (path : string) (mode : Z) : M unit :=
  match AtomicFile_open_error env path with
  | Some e => throw e
  | None =>
      modify (fun w => set_pending
        ({| af_path := path; af_mode := mode; af_data := ""; af_committed := false |}
           :: pending w) w)
  end.

Definition AtomicFile_write (data : string) : M unit :=
  modify (fun w =>
    match pending w with
    | fp :: r =>
        set_pending ({| af_path := af_path fp; af_mode := af_mode fp;
                        af_data := af_data fp +:+ data;
                        af_committed := af_committed fp |} :: r) w
    | [] => w
    end).

Definition AtomicFile_flush (env : Env) : M unit :=
  fun w =>
    match pending w with
    | fp :: _ =>
        match AtomicFile_flush_error env (af_path fp) (af_data fp) with
        | Some e => (Throw e, w)
        | None => (Ok tt, w)
        end
    | [] => (Ok tt, w)
    end.

Definition AtomicFile_Commit : M unit :=
  modify (fun w =>
    match pending w with
    | fp :: r =>
        set_files (<[af_path fp := (af_data fp, af_mode fp)]> (files w))
          (set_pending ({| af_path := af_path fp; af_mode := af_mode fp;
                           af_data := af_data fp; af_committed := true |} :: r) w)
    | [] => w
    end).

(** The scope of an [AtomicFile fp(path, mode)]: the destructor runs when
    the scope is left by a return or by an exception, and not when the
    process is aborted. *)
Definition with_AtomicFile {A} (env : Env) (path : string) (mode : Z) (body : M A) : M A :=
  AtomicFile_open env path mode ;;
  (fun w =>
     match body w with
     | (Abort y, w') => (Abort y, w')
     | (r, w') => (r, set_pending (List.tl (pending w')) w')
     end).

(** The temp files that are on disk: the pending writes not yet committed. *)
Definition temp_files (w : World) : list AtomicFile :=
  List.filter (fun fp => negb (af_committed fp)) (pending w).

(** *** Packages and stages *)

(** Modelled from the spec: [ConfigPackageUtility] (remote/configpackageutility.cpp
    is not under src/): a package exists or not, has at most one active
    stage, and [CreateStage] returns the name of the stage it makes. *)
Definition PackageExists (package : string) : M bool :=
  gets (fun w => bool_decide (package ∈ packages w)).

Definition CreatePackage (package : string) : M unit :=
  modify (fun w => set_packages ({[package]} ∪ packages w) w).

Definition CreateStage (env : Env) (package : string) : M string :=
  gets (NewUniqueID env).

Definition GetActiveStage (package : string) : M string :=
  gets (fun w => default "" (active_stages w !! package)).

Definition ActivateStage (package stage : string) : M unit :=
  modify (fun w => set_active_stages (<[package := stage]> (active_stages w)) w).

(** [fs::path::stem]: the last component of the path without its extension. *)
Definition stem (path : string) : string :=
  let name := match Str.split_last "/" path with Some (_, f) => f | None => path end in
  if (String.eqb name "." || String.eqb name "..")%bool then name
  else match Str.split_last "." name with
       | Some (s, _) => s
       | None => name
       end.

(** *** The registry *)

Definition GetObject (type : TypeInfo) (name : string) : M (option ConfigObject) :=
  gets (fun w => objects (registry w) !! (GetName type, name)).

Definition GetParents (object : ConfigObject) : M (list Object) :=
  gets (fun w => default [] (dependencies (registry w) !! key_of object)).

Definition GetByTypeAndName (type : TypeInfo) (name : string) : M bool :=
  gets (fun w => bool_decide ((GetName type, name) ∈ items (registry w))).

Definition SetExtension_ConfigObjectDeleted (object : ConfigObject) : M unit :=
  modify (fun w => set_registry
    (set_deleted_flag ({[key_of object]} ∪ deleted_flag (registry w)) (registry w)) w).

(** Modelled from the spec: [ConfigObject::Deactivate] (base/configobject.cpp
    is not under src/) takes the object out of the activated ones, or throws. *)
Definition Deactivate (env : Env) (object : ConfigObject) (runtimeRemoved : bool)
    (cookie : Cookie) : M unit :=
  match Deactivate_error env object with
  | Some e => throw e
  | None =>
      modify (fun w => set_registry
        (set_active (active (registry w) ∖ {[key_of object]}) (registry w)) w)
  end.

(** Modelled from the spec: [ConfigObject::Unregister] (base/configobject.cpp
    is not under src/) takes the runtime object out of the registry, or throws. *)
Definition Object_Unregister (env : Env) (object : ConfigObject) : M unit :=
  match Unregister_error env object with
  | Some e => throw e
  | None =>
      modify (fun w => set_registry
        (set_objects (delete (key_of object) (objects (registry w))) (registry w)) w)
  end.

(** Modelled from the spec: [ConfigItem::Unregister] (config/configitem.cpp
    is not under src/) takes the item and the runtime object made from it
    out of their registries, or throws; after a delete that succeeded no
    RuntimeObject is registered, with or without an item. *)
Definition Item_Unregister (env : Env) (object : ConfigObject) : M unit :=
  match Unregister_error env object with
  | Some e => throw e
  | None =>
      modify (fun w => set_registry
        (set_items (items (registry w) ∖ {[key_of object]})
           (set_objects (delete (key_of object) (objects (registry w))) (registry w))) w)
  end.

(** ** ConfigObjectUtility *)

Section ConfigObjectUtility.

Context (env : Env).

Definition RepairPackage_error (package : string) : exn :=
  invalid_argument ("Cannot repair package '" +:+ package +:+
                    "', please check the troubleshooting docs.").

(** The loop of [RepairPackage]: the stem of the first entry that is a
    directory, the empty string when there is none. *)
Fixpoint first_directory (entries : list (string * bool)) : string :=
  match entries with
  | [] => ""
  | (d, is_directory) :: r => if is_directory then stem d else first_directory r
  end.

Definition RepairPackage (package : string) : M unit :=
  let dir := PackageDir env +:+ "/" +:+ package +:+ "/" in
  entries <- gets (fun w => listing w dir) ;;
  let foundActiveStage := first_directory entries in
  if negb (Str.IsEmpty foundActiveStage) then
    Log LogInformation "ConfigObjectUtility"
      ("Repairing config package '" +:+ package +:+ "' with stage '" +:+
       foundActiveStage +:+ "'.") ;;
    ActivateStage package foundActiveStage
  else
    throw (RepairPackage_error package).

Definition GetConfigDir : M string :=
  let prefix := PackageDir env +:+ "/_api/" in
  activeStage <- GetActiveStage "_api" ;;
  when (Str.IsEmpty activeStage) (RepairPackage "_api") ;;
  ret (prefix +:+ activeStage).

Definition EscapeName (name : string) : string :=
  EscapeString env name ("<>:" +:+ String (ascii_of_nat 34) "/\|?*") true.

(** Modelled from the spec: [Utility::TruncateUsingHash] (base/utility.hpp
    is not under src/): a name longer than the bound is cut so that the
    cut name, ["..."] and the 40 bytes of the hex-encoded SHA1 of the
    whole name fill the bound. *)
Definition TruncateUsingHash (maxLength : nat) (s : string) : string :=
  if Nat.leb (String.length s) maxLength then s
  else Str.take (maxLength - 40 - 3) s +:+ "..." +:+ SHA1 env s.

Definition is_exempted (type : TypeInfo) : bool :=
  negb (negb (String.eqb (GetName type) "Comment") &&
        negb (String.eqb (GetName type) "Downtime")).

(** The local [typeDir] of the source is computed and never used. *)
Definition ComputeNewObjectConfigPath (type : TypeInfo) (fullName : string) : M string :=
  d <- GetConfigDir ;;
  let prefix := d +:+ "/conf.d/" +:+ Str.ToLower (GetPluralName type) +:+ "/" in
  let escapedName := EscapeName fullName in
  let longPath := prefix +:+ escapedName +:+ ".conf" in
  if (negb (String.eqb (GetName type) "Comment") &&
      negb (String.eqb (GetName type) "Downtime"))%bool
  then ret longPath
  else ret (prefix +:+ TruncateUsingHash (80 + 3 + 40) escapedName +:+ ".conf").

Definition GetExistingObjectConfigPath (object : ConfigObject) : string :=
  o_path object.

Definition CreateStorage : M unit :=
  let package := "_api" in
  e <- PackageExists package ;;
  if negb e then
    Log LogNotice "ConfigObjectUtility"
      ("Package " +:+ package +:+ " doesn't exist yet, creating it.") ;;
    CreatePackage package ;;
    stage <- CreateStage env package ;;
    ActivateStage package stage
  else ret tt.

(** The body of the loop over [attrs] in [CreateObjectConfig]. *)
Definition check_attribute (type : TypeInfo) (kv : string * Value) : M unit :=
  let fid := GetFieldId type (Str.before_first_dot (fst kv)) in
  if (fid <? 0)%Z then
    throw (ScriptError ("Invalid attribute specified: " +:+ fst kv))
  else
    let field := GetFieldInfo type fid in
    if (Z.eqb (Z.land (f_Attributes field) (FAConfig env)) 0 || String.eqb (fst kv) "name")%bool
    then throw (ScriptError
           ("Attribute is marked for internal use only and may not be set: " +:+ fst kv))
    else ret tt.

Definition CreateObjectConfig (type : TypeInfo) (fullName : string) (ignoreOnError : bool)
    (templates : option (list string)) (attrs : option Dictionary) : M string :=
  nameParts <- match name_composer type with
               | Some ParseName =>
                   match ParseName fullName with
                   | inl e => throw e
                   | inr d => ret (Some d)
                   end
               | None => ret None
               end ;;
  let name := match nameParts with
              | Some d => ValueToString env (Dictionary_Get "name" d)
              | None => fullName
              end in
  allAttrs <- match attrs with
              | Some a =>
                  for_each a (check_attribute type) ;;
                  ret (Dictionary_CopyTo a [])
              | None => ret []
              end ;;
  let allAttrs := match nameParts with
                  | Some d => Dictionary_CopyTo d allAttrs
                  | None => allAttrs
                  end in
  let allAttrs := Dictionary_Remove "name" allAttrs in
  t <- gets now ;;
  let allAttrs := Dictionary_Set "version" (VNumber t) allAttrs in
  ret (EmitConfigItem env (GetName type) name false ignoreOnError templates allAttrs
       +:+ Str.newline).

(** The block that follows a failed [CommitItems] or [ActivateItems]. *)
Definition report_exceptions (what : string) (exceptions : list exn) : M unit :=
  e <- has_errors ;;
  when e
    (Log LogNotice "ConfigObjectUtility" what ;;
     for_each exceptions (fun ex =>
       errors_Add (DiagnosticInformation env ex false) ;;
       d <- has_diagnosticInformation ;;
       when d (diagnosticInformation_Add (DiagnosticInformation env ex true)))).

(** The [catch] blocks of [CreateObject] and [DeleteObjectHelper]. *)
Definition report_exception (ex : exn) : M unit :=
  e <- has_errors ;;
  when e (errors_Add (DiagnosticInformation env ex false)) ;;
  d <- has_diagnosticInformation ;;
  when d (diagnosticInformation_Add (DiagnosticInformation env ex true)).

(** The [try] block of [CreateObject]; [Ok false] is a [return false]
    inside it, [Ok true] reaches the [return true] after it. *)
Definition CreateObject_try (type : TypeInfo) (fullName : string)
    (expr : Expression) (cookie : Cookie) : M bool :=
  lift_registry (Evaluate env expr) ;;
  c <- lift_registry (CommitItems env) ;;
  let '(committed, exceptions, newItems) := c in
  if negb committed then
    report_exceptions ("Failed to commit config item '" +:+ fullName +:+ "'.") exceptions ;;
    ret false
  else
    a <- lift_registry (ActivateItems env newItems true false false cookie) ;;
    if negb a then
      report_exceptions ("Failed to activate config object '" +:+ fullName +:+ "'.")
        exceptions ;;
      ret false
    else
      when (negb (String.eqb (GetName type) "Comment") &&
            negb (String.eqb (GetName type) "Downtime"))
        (lift_registry (UpdateObjectAuthority env)) ;;
      obj <- (if is_ConfigType type then GetObject type fullName
              else crash NullPointer) ;;
      match obj with
      | Some _ =>
          AtomicFile_Commit ;;
          Log LogInformation "ConfigObjectUtility"
            ("Created and activated object '" +:+ fullName +:+ "' of type '" +:+
             GetName type +:+ "'.")
      | None =>
          Log LogNotice "ConfigObjectUtility"
            ("Object '" +:+ fullName +:+ "' was not created but ignored due to errors.")
      end ;;
      ret true.

(** The statements in the scope of [fp], from [fp << config] on. *)
Definition CreateObject_body (type : TypeInfo) (fullName config path : string)
    (cookie : Cookie) : M bool :=
  AtomicFile_write config ;;
  AtomicFile_flush env ;;
  expr <- match CompileText env path config "" "_api" with
          | inl e => throw e
          | inr x => ret x
          end ;;
  try_catch (CreateObject_try type fullName expr cookie)
    (fun ex => report_exception ex ;; ret false).

Definition CreateObject (type : TypeInfo) (fullName config : string) (cookie : Cookie)
    : M bool :=
  CreateStorage ;;
  existing <- (if is_ConfigType type then GetObject type fullName else ret None) ;;
  match existing with
  | Some _ =>
      errors_Add ("Object '" +:+ fullName +:+ "' already exists.") ;;
      ret false
  | None =>
      path <- try_catch
                (p <- ComputeNewObjectConfigPath type fullName ;; ret (Some p))
                (fun ex =>
                   errors_Add ("Config package broken: " +:+
                               DiagnosticInformation env ex false) ;;
                   ret None) ;;
      match path with
      | None => ret false
      | Some path =>
          MkDirP (DirName path) 448 (* 0700 *) ;;
          with_AtomicFile env path 420 (* 0644 *)
            (CreateObject_body type fullName config path cookie)
      end
  end.

Definition DependencyError (name : string) (type : TypeInfo) : string :=
  "Object '" +:+ name +:+ "' of type '" +:+ GetName type +:+
  "' cannot be deleted because other objects depend on it. " +:+
  "Use cascading delete to delete it anyway.".

(** What [DeleteObjectHelper] does for the object itself, after the loop
    over the objects that depend on it. *)
Definition DeleteObjectHelper_self (object : ConfigObject) (cookie : Cookie) : M bool :=
  let type := o_type object in
  let name := o_name object in
  item <- GetByTypeAndName type name ;;
  ok <- try_catch
          (SetExtension_ConfigObjectDeleted object ;;
           Deactivate env object true cookie ;;
           (if item then Item_Unregister env object
            else Object_Unregister env object) ;;
           ret true)
          (fun ex => report_exception ex ;; ret false) ;;
  if negb ok then ret false
  else
    when (String.eqb (o_package object) "_api")
      (Remove (GetExistingObjectConfigPath object)) ;;
    Log LogInformation "ConfigObjectUtility"
      ("Deleted object '" +:+ name +:+ "' of type '" +:+ GetName type +:+ "'.") ;;
    ret true.

(** The loop of [DeleteObjectHelper] over [parents], the objects that
    depend on the object; [recurse] is the recursive call, whose result is
    not looked at. *)
Definition DeleteObjectHelper_parents (recurse : ConfigObject -> M bool)
    (parents : list Object) : M unit :=
  for_each parents (fun pobj =>
    match dynamic_pointer_cast pobj with
    | None => ret tt
    | Some parentObj => _ <- recurse parentObj ;; ret tt
    end).

(** The recursion follows the dependency graph, which the code takes to
    be acyclic; [fuel] bounds its depth. *)
Fixpoint DeleteObjectHelper (fuel : nat) (object : ConfigObject) (cascade : bool)
    (cookie : Cookie) : M bool :=
  match fuel with
  | O => crash FuelExhausted
  | S fuel' =>
      parents <- GetParents object ;;
      let type := o_type object in
      let name := o_name object in
      if (negb (is_empty parents) && negb cascade)%bool then
        e <- has_errors ;;
        when e (errors_Add (DependencyError name type)) ;;
        ret false
      else
        DeleteObjectHelper_parents
          (fun parentObj => DeleteObjectHelper fuel' parentObj cascade cookie) parents ;;
        DeleteObjectHelper_self object cookie
  end.

Definition DeleteObject (fuel : nat) (object : ConfigObject) (cascade : bool)
    (cookie : Cookie) : M bool :=
  if negb (String.eqb (o_package object) "_api") then
    e <- has_errors ;;
    when e (errors_Add "Object cannot be deleted because it was not created using the API.") ;;
    ret false
  else
    DeleteObjectHelper fuel object cascade cookie.

End ConfigObjectUtility.

(** ** A concrete setting

    One instance of the collaborators and a few types, objects and worlds,
    on which the functions above can be run. *)

Module Sample.

Definition hex_digit (n : nat) : ascii :=
  List.nth n (list_ascii_of_string "0123456789ABCDEF") "0"%char.

Definition occurs (c : ascii) (chars : string) : bool :=
  List.existsb (Ascii.eqb c) (list_ascii_of_string chars).

(** Modelled from the spec: [Utility::EscapeString] (base/utility.cpp is
    not under src/) replaces each hostile character, and the escape
    character itself, by a reversible escape sequence: here ["%"] and
    the two hex digits of the byte. *)
Fixpoint percent_escape (s chars : string) (illegal : bool) : string :=
  match s with
  | EmptyString => EmptyString
  | String c r =>
      if (Bool.eqb (occurs c chars) illegal || Ascii.eqb c "%")%bool
      then String "%" (String (hex_digit (nat_of_ascii c / 16))
                         (String (hex_digit (nat_of_ascii c mod 16))
                            (percent_escape r chars illegal)))
      else String c (percent_escape r chars illegal)
  end.

Definition what (e : exn) : string :=
  match e with
  | std_exception m => m
  | invalid_argument m => m
  | ScriptError m => m
  end.

Definition to_string (v : Value) : string :=
  match v with VString s => s | _ => "" end.

Definition render (type name : string) (isTemplate ignoreOnError : bool)
    (templates : option (list string)) (attrs : Dictionary) : string :=
  "object " +:+ type +:+ " '" +:+ name +:+ "' {" +:+
  List.fold_right (fun kv acc => " " +:+ fst kv +:+ " = '" +:+ to_string (snd kv) +:+ "'" +:+ acc)
    " }" attrs.

(** The steps of the compiler and of the item registry are given by the
    caller of [make]; the rest is fixed. *)
Definition make
    (commit : Registry -> Result (bool * list exn * list Key) * Registry)
    (activate : list Key -> Registry -> Result bool * Registry)
    (authority : Registry -> Result unit * Registry)
    (deactivate_error : ConfigObject -> option exn) : Env :=
  {| PackageDir := "/var/lib/icinga2/api/packages";
     NewUniqueID := fun _ => "stage1";
     EscapeString := percent_escape;
     SHA1 := fun _ => "da39a3ee5e6b4b0d3255bfef95601890afd80709";
     FAConfig := 2;
     ValueToString := to_string;
     DiagnosticInformation := fun e _ => what e;
     EmitConfigItem := render;
     AtomicFile_open_error := fun _ => None;
     AtomicFile_flush_error := fun _ _ => None;
     CompileText := fun path text _ _ => inr {| expr_path := path; expr_text := text |};
     Evaluate := fun _ g => (Ok tt, g);
     CommitItems := commit;
     ActivateItems := fun newItems _ _ _ _ => activate newItems;
     UpdateObjectAuthority := authority;
     Deactivate_error := deactivate_error;
     Unregister_error := fun _ => None |}.

Definition Host : TypeInfo :=
  {| GetName := "Host"; GetPluralName := "Hosts";
     type_fields := [ {| f_Name := "name"; f_Attributes := 2 |};
                      {| f_Name := "address"; f_Attributes := 2 |};
                      {| f_Name := "vars"; f_Attributes := 2 |};
                      {| f_Name := "last_check"; f_Attributes := 4 |} ];
     is_ConfigType := true;
     name_composer := None |}.

Definition ParseServiceName (fullName : string) : exn + Dictionary :=
  match Str.split_last "!" fullName with
  | Some (h, s) => inr [("host_name", VString h); ("name", VString s)]
  | None => inl (invalid_argument "Invalid Service name.")
  end.

Definition Service : TypeInfo :=
  {| GetName := "Service"; GetPluralName := "Services";
     type_fields := [ {| f_Name := "name"; f_Attributes := 2 |};
                      {| f_Name := "host_name"; f_Attributes := 2 |};
                      {| f_Name := "check_command"; f_Attributes := 2 |} ];
     is_ConfigType := true;
     name_composer := Some ParseServiceName |}.

Definition stage_dir : string := "/var/lib/icinga2/api/packages/_api/stage1".

Definition host_path (name : string) : string :=
  stage_dir +:+ "/conf.d/hosts/" +:+ name +:+ ".conf".

Definition host (name : string) : ConfigObject :=
  {| o_type := Host; o_name := name; o_package := "_api"; o_path := host_path name |}.

Definition service (name package path : string) : ConfigObject :=
  {| o_type := Service; o_name := name; o_package := package; o_path := path |}.

Definition no_objects : Registry :=
  {| objects := ∅; items := ∅; active := ∅; deleted_flag := ∅; dependencies := ∅ |}.

Definition register (o : ConfigObject) (g : Registry) : Registry :=
  set_items ({[key_of o]} ∪ items g) (set_objects (<[key_of o := o]> (objects g)) g).

Definition activate (o : ConfigObject) (g : Registry) : Registry :=
  set_active ({[key_of o]} ∪ active g) g.

(** A world with the [_api] package and its active stage, and nothing else. *)
Definition fresh : World :=
  {| packages := {["_api"]}; active_stages := {["_api" := "stage1"]};
     listing := fun _ => [(stage_dir, true)];
     dirs := ∅; files := ∅; pending := []; registry := no_objects;
     errors := Some []; diagnosticInformation := Some [];
     log := []; now := 1700000000 |}.

(** The item registry makes the object, the activation activates it. *)
Definition commit_ok (o : ConfigObject) (g : Registry)
    : Result (bool * list exn * list Key) * Registry :=
  (Ok (true, [], [key_of o]), register o g).

Definition commit_ignored (g : Registry)
    : Result (bool * list exn * list Key) * Registry :=
  (Ok (true, [], []), g).

Definition commit_fails (g : Registry)
    : Result (bool * list exn * list Key) * Registry :=
  (Ok (false, [ScriptError "Validation failed."], []), g).

Definition activate_ok (newItems : list Key) (g : Registry) : Result bool * Registry :=
  (Ok true, set_active (list_to_set newItems ∪ active g) g).

Definition authority_ok (g : Registry) : Result unit * Registry := (Ok tt, g).

Definition authority_throws (g : Registry) : Result unit * Registry :=
  (Throw (std_exception "Cannot update the object authority."), g).

Definition never (_ : ConfigObject) : option exn := None.

Definition creating (o : ConfigObject) : Env :=
  make (commit_ok o) activate_ok authority_ok never.

(** The package is there, its active stage is not recorded: the state
    that [RepairPackage] is written for. *)
Definition unstaged : World :=
  {| packages := {["_api"]}; active_stages := ∅;
     listing := fun _ => [("/var/lib/icinga2/api/packages/_api/include.conf", false);
                          (stage_dir, true)];
     dirs := ∅; files := ∅; pending := []; registry := no_objects;
     errors := Some []; diagnosticInformation := Some [];
     log := []; now := 1700000000 |}.

Definition long_name : string := string_of_list_ascii (List.repeat "a"%char 5000).

Definition h1_config : string := "object Host 'h1' { }".

(** The commit of the item fails. *)
Definition rejecting : Env := make commit_fails activate_ok authority_ok never.

(** The commit makes no object: the item was ignored. *)
Definition ignoring : Env := make commit_ignored activate_ok authority_ok never.

(** The object is made and activated, then the update of the authority throws. *)
Definition interrupted (o : ConfigObject) : Env :=
  make (commit_ok o) activate_ok authority_throws never.

(** Two services that depend on the host [h1]: [h1!ping] was made through
    the API, [h1!load] comes from the static configuration. *)
Definition ping : ConfigObject :=
  service "h1!ping" "_api" (stage_dir +:+ "/conf.d/services/h1!ping.conf").

Definition load : ConfigObject :=
  service "h1!load" "_etc" "/etc/icinga2/conf.d/services.conf".

Definition with_services : World :=
  {| packages := {["_api"]}; active_stages := {["_api" := "stage1"]};
     listing := fun _ => [(stage_dir, true)];
     dirs := ∅;
     files := <[host_path "h1" := ("object Host 'h1' { }", 420)]>
              (<[o_path ping := ("object Service 'ping' { }", 420)]>
               {[o_path load := ("object Service 'load' { }", 420)]});
     pending := [];
     registry :=
       {| objects := <[key_of (host "h1") := host "h1"]>
                     (<[key_of ping := ping]> {[key_of load := load]});
          items := {[key_of (host "h1"); key_of ping]};
          active := {[key_of (host "h1"); key_of ping; key_of load]};
          deleted_flag := ∅;
          dependencies := {[key_of (host "h1") := [ConfigObj ping; ConfigObj load]]} |};
     errors := Some []; diagnosticInformation := None;
     log := []; now := 1700000000 |}.

(** Hosts above services. *)
Definition rank (k : Key) : nat := if String.eqb (fst k) "Host" then 1%nat else 0%nat.

(** The deactivation of [h1!ping] throws. *)
Definition ping_throws (o : ConfigObject) : option exn :=
  if String.eqb (o_name o) "h1!ping" then Some (std_exception "Cannot stop the check.")
  else None.

Definition deleting : Env := make commit_fails activate_ok authority_ok never.

Definition failing : Env := make commit_fails activate_ok authority_ok ping_throws.

(** A file was left at the path of the host [h1], which is not registered. *)
Definition orphaned : World :=
  {| packages := {["_api"]}; active_stages := {["_api" := "stage1"]};
     listing := fun _ => [(stage_dir, true)];
     dirs := ∅; files := {[host_path "h1" := ("object Host 'h1' { address = '::1' }", 420)]};
     pending := []; registry := no_objects;
     errors := Some []; diagnosticInformation := Some [];
     log := []; now := 1700000000 |}.

(** The host [h1] is registered and active, with its file. *)
Definition with_h1 : World :=
  {| packages := {["_api"]}; active_stages := {["_api" := "stage1"]};
     listing := fun _ => [(stage_dir, true)];
     dirs := ∅; files := {[host_path "h1" := (h1_config, 420)]};
     pending := []; registry := activate (host "h1") (register (host "h1") no_objects);
     errors := Some []; diagnosticInformation := Some [];
     log := []; now := 1700000000 |}.

(** The same collaborators with another compiler, evaluation and
    unregistration. *)
Definition make_with
    (compile : string -> string -> string -> string -> exn + Expression)
    (evaluate : Expression -> Registry -> Result unit * Registry)
    (unregister_error : ConfigObject -> option exn) (env : Env) : Env :=
  {| PackageDir := PackageDir env; NewUniqueID := NewUniqueID env;
     EscapeString := EscapeString env; SHA1 := SHA1 env; FAConfig := FAConfig env;
     ValueToString := ValueToString env;
     DiagnosticInformation := DiagnosticInformation env;
     EmitConfigItem := EmitConfigItem env;
     AtomicFile_open_error := AtomicFile_open_error env;
     AtomicFile_flush_error := AtomicFile_flush_error env;
     CompileText := compile; Evaluate := evaluate;
     CommitItems := CommitItems env; ActivateItems := ActivateItems env;
     UpdateObjectAuthority := UpdateObjectAuthority env;
     Deactivate_error := Deactivate_error env;
     Unregister_error := unregister_error |}.

(** The text does not compile. *)
Definition not_compiling : Env :=
  make_with (fun _ _ _ _ => inl (ScriptError "syntax error")) (Evaluate rejecting)
    never rejecting.

(** The evaluation of the compiled text throws. *)
Definition not_evaluating : Env :=
  make_with (CompileText rejecting)
    (fun _ g => (Throw (ScriptError "Error while evaluating expression."), g))
    never rejecting.

(** The activation fails. *)
Definition activate_fails (newItems : list Key) (g : Registry) : Result bool * Registry :=
  (Ok false, g).

Definition not_activating (o : ConfigObject) : Env :=
  make (commit_ok o) activate_fails authority_ok never.

(** The unregistration of every object throws. *)
Definition not_unregistering : Env :=
  make_with (CompileText rejecting) (Evaluate rejecting)
    (fun _ => Some (std_exception "Cannot unregister.")) rejecting.

(** The deactivation of the host [h1] throws. *)
Definition h1_throws (o : ConfigObject) : option exn :=
  if String.eqb (o_name o) "h1" then Some (std_exception "Cannot stop the host.")
  else None.

Definition failing_host : Env := make commit_fails activate_ok authority_ok h1_throws.

Definition Downtime : TypeInfo :=
  {| GetName := "Downtime"; GetPluralName := "Downtimes";
     type_fields := [ {| f_Name := "name"; f_Attributes := 2 |};
                      {| f_Name := "host_name"; f_Attributes := 2 |};
                      {| f_Name := "comment"; f_Attributes := 2 |} ];
     is_ConfigType := true;
     name_composer := Some ParseServiceName |}.

(** The package has no active stage and holds no directory. *)
Definition unrepairable : World :=
  {| packages := {["_api"]}; active_stages := ∅;
     listing := fun _ => [("/var/lib/icinga2/api/packages/_api/include.conf", false)];
     dirs := ∅; files := ∅; pending := []; registry := no_objects;
     errors := Some []; diagnosticInformation := Some [];
     log := []; now := 1700000000 |}.

(** No package exists yet. *)
Definition bare : World :=
  {| packages := ∅; active_stages := ∅;
     listing := fun _ => [];
     dirs := ∅; files := ∅; pending := []; registry := no_objects;
     errors := Some []; diagnosticInformation := Some [];
     log := []; now := 1700000000 |}.

(** The attributes of a request for the service [h1!ping]. *)
Definition ping_attrs : Dictionary :=
  [("check_command", VString "ping"); ("host_name", VString "h2")].

End Sample.

(** ** Vocabulary of the statements *)

(** The first field of the type with the given name. *)
Definition find_field (type : TypeInfo) (name : string) : option Field :=
  List.find (fun f => String.eqb (f_Name f) name) (type_fields type).

(** [if (errors) errors->Add(msg)] as a change of the world. *)
Definition add_error (msg : string) (w : World) : World :=
  match errors w with
  | Some l => set_errors (Some (l ++ [msg])%list) w
  | None => w
  end.

(** Every run of [m] takes a world to one related to it by [R]. *)
Definition frames {A} (R : relation World) (m : M A) : Prop :=
  forall w r w', m w = (r, w') -> R w w'.

(** The runs leave the component [f] of the world as it is. *)
Definition same {B} (f : World -> B) : relation World :=
  fun w w' => f w' = f w.

(** A postcondition over the first world, the result and the last world. *)
Definition ensures {A} (m : M A) (Q : World -> Result A -> World -> Prop) : Prop :=
  forall w r w', m w = (r, w') -> Q w r w'.

(** The components of the world that only [AtomicFile], [MkDirP] and
    [Remove] act on. *)
Definition disk (w : World) := (files w, pending w, dirs w).

(** What the steps before the pending write leave alone. *)
Definition kept (w : World) :=
  (files w, pending w, dirs w, registry w, errors w, diagnosticInformation w).

(** What the statements in the scope of an [AtomicFile] leave alone. *)
Definition scope (w : World) := (dirs w, List.tl (pending w)).

(** The file of the pending write is at its path only together with the
    result [true] and an object in the registry. *)
Definition commits_or_keeps (key : Key) (w : World) (r : Result bool) (w' : World) : Prop :=
  files w' = files w \/
  (r = Ok true /\ is_Some (objects (registry w') !! key) /\
   exists fp, List.head (pending w) = Some fp /\
              files w' = <[af_path fp := (af_data fp, af_mode fp)]> (files w)).

(** The entry of the log for an object that the re-query does not find. *)
Definition ignored_note (fullName : string) : LogEntry :=
  (LogNotice, "ConfigObjectUtility",
   "Object '" +:+ fullName +:+ "' was not created but ignored due to errors.").

(** The call gets to the [try] block of [CreateObject]: the object is not
    registered yet, the path is computed, the pending write is opened and
    flushed, and the text compiles. *)
Definition reaches_try (env : Env) (type : TypeInfo) (fullName config : string) (w : World)
    : Prop :=
  (if is_ConfigType type then objects (registry w) !! (GetName type, fullName) else None)
  = None /\
  exists path w0 expr,
    ComputeNewObjectConfigPath env type fullName (snd (CreateStorage env w)) = (Ok path, w0) /\
    AtomicFile_open_error env path = None /\
    AtomicFile_flush_error env path config = None /\
    CompileText env path config "" "_api" = inr expr.

(** The layout of a config file of the [_api] package. *)
Definition config_path (env : Env) (stage : string) (type : TypeInfo) (derivedName : string)
    : string :=
  (((PackageDir env +:+ "/_api/") +:+ stage) +:+ "/conf.d/" +:+
   Str.ToLower (GetPluralName type) +:+ "/") +:+ derivedName +:+ ".conf".

Definition parents_in (deps : gmap Key (list Object)) (o : ConfigObject) : list Object :=
  default [] (deps !! key_of o).

(** The objects a cascading delete of [o] gets to. *)
Inductive cascades (deps : gmap Key (list Object)) : ConfigObject -> ConfigObject -> Prop :=
| cascades_self o : cascades deps o o
| cascades_parent o p x :
    In (ConfigObj p) (parents_in deps o) -> cascades deps p x -> cascades deps o x.

(** The object is neither activated nor registered. *)
Definition gone (o : ConfigObject) (w : World) : Prop :=
  (key_of o ∉ active (registry w)) /\ objects (registry w) !! key_of o = None.

(** What a delete can do to a world: the dependency graph stays, objects
    and files can only go, errors can only be added. *)
Definition fades (w w' : World) : Prop :=
  dependencies (registry w') = dependencies (registry w) /\
  (active (registry w') ⊆ active (registry w)) /\
  (forall k, objects (registry w) !! k = None -> objects (registry w') !! k = None) /\
  (forall p, files w !! p = None -> files w' !! p = None) /\
  (forall es, errors w = Some es -> exists more, errors w' = Some (es ++ more)%list).

(** The files that are gone are files of objects of the [_api] package
    that the cascade from [o] gets to. *)
Definition removes_only (o : ConfigObject) (w w' : World) : Prop :=
  forall path, is_Some (files w !! path) -> files w' !! path = None ->
  exists x, cascades (dependencies (registry w)) o x /\
            o_package x = "_api" /\ o_path x = path.

(** The methods of the object that a delete calls do not throw. *)
Definition does_not_throw (env : Env) (x : ConfigObject) : Prop :=
  Deactivate_error env x = None /\ Unregister_error env x = None.

(** The error of a delete without cascade for an object that has
    dependents: it names the object and its type. *)
Definition refusal_note (name typeName : string) : string :=
  "Object '" +:+ name +:+ "' of type '" +:+ typeName +:+
  "' cannot be deleted because other objects depend on it. Use cascading delete to delete it anyway.".

(** The text holds the name of the object and the name of its type. *)
Definition names (msg name typeName : string) : Prop :=
  exists before between after : string,
    msg = before +:+ name +:+ between +:+ typeName +:+ after.

(** The error of [DeleteObject] for an object of another package. *)
Definition OwnershipError : string :=
  "Object cannot be deleted because it was not created using the API.".

(** The dependency graph is acyclic: a dependent has a smaller rank. *)
Definition ranked (rank : Key -> nat) (deps : gmap Key (list Object)) : Prop :=
  forall o p, In (ConfigObj p) (parents_in deps o) -> (rank (key_of p) < rank (key_of o))%nat.

(** The three ways in which a key of the attribute set is not acceptable:
    it names no field, a field without the FAConfig bit, or is ["name"]. *)
Definition unacceptable (env : Env) (type : TypeInfo) (k : string) : Prop :=
  find_field type (Str.before_first_dot k) = None \/
  (exists f, find_field type (Str.before_first_dot k) = Some f /\
             Z.land (f_Attributes f) (FAConfig env) = 0) \/
  k = "name".

(** A key of the attribute set that the validation lets pass: the part
    before its first dot names a field with the FAConfig bit, and the key
    is not ["name"]. *)
Definition acceptable (env : Env) (type : TypeInfo) (k : string) : Prop :=
  exists f, find_field type (Str.before_first_dot k) = Some f /\
            Z.land (f_Attributes f) (FAConfig env) <> 0 /\
            k <> "name".

(** The parts of a composite name: none for a type without NameComposer. *)
Definition name_parts (type : TypeInfo) (fullName : string) : exn + option Dictionary :=
  match name_composer type with
  | Some ParseName =>
      match ParseName fullName with
      | inl e => inl e
      | inr d => inr (Some d)
      end
  | None => inr None
  end.

(** The name that is rendered: the part ["name"] of a composite name. *)
Definition rendered_name (env : Env) (nameParts : option Dictionary) (fullName : string)
    : string :=
  match nameParts with
  | Some d => ValueToString env (Dictionary_Get "name" d)
  | None => fullName
  end.

(** The value that the pairs of a dictionary give a key when they are
    [Set] one after the other: the one of the last pair with the key. *)
Definition last_value (k : string) (d : Dictionary) : option Value :=
  List.fold_left (fun acc kv => if String.eqb k (fst kv) then Some (snd kv) else acc) d None.

(** The diagnostics of a list of exceptions. *)
Definition diagnostics (env : Env) (verbose : bool) (exceptions : list exn) : list string :=
  List.map (fun ex => DiagnosticInformation env ex verbose) exceptions.

(** The steps of [CreateObject] before the [try] block all succeed: the
    object is not registered, the path is [path], the pending write opens
    and flushes, and the text compiles to [expr]. *)
Definition prepared (env : Env) (type : TypeInfo) (fullName config : string) (w : World)
    (path : string) (w2 : World) (expr : Expression) : Prop :=
  (if is_ConfigType type then objects (registry w) !! (GetName type, fullName) else None)
  = None /\
  ComputeNewObjectConfigPath env type fullName (snd (CreateStorage env w)) = (Ok path, w2) /\
  AtomicFile_open_error env path = None /\
  AtomicFile_flush_error env path config = None /\
  CompileText env path config "" "_api" = inr expr.

(** The world at the start of the [try] block: the directories are made
    and the pending write holds the text. *)
Definition opened (path config : string) (w2 : World) : World :=
  set_pending
    ({| af_path := path; af_mode := 420; af_data := config; af_committed := false |}
       :: pending w2)
    (set_dirs (List.fold_left (MkDir 448) (dir_prefixes "" (DirName path)) (dirs w2)) w2).

(** The same collaborators with another [UpdateObjectAuthority]. *)
Definition with_UpdateObjectAuthority (f : Registry -> Result unit * Registry) (env : Env)
    : Env :=
  {| PackageDir := PackageDir env; NewUniqueID := NewUniqueID env;
     EscapeString := EscapeString env; SHA1 := SHA1 env; FAConfig := FAConfig env;
     ValueToString := ValueToString env;
     DiagnosticInformation := DiagnosticInformation env;
     EmitConfigItem := EmitConfigItem env;
     AtomicFile_open_error := AtomicFile_open_error env;
     AtomicFile_flush_error := AtomicFile_flush_error env;
     CompileText := CompileText env; Evaluate := Evaluate env;
     CommitItems := CommitItems env; ActivateItems := ActivateItems env;
     UpdateObjectAuthority := f;
     Deactivate_error := Deactivate_error env;
     Unregister_error := Unregister_error env |}.

(** The entry of the log for an object that was created. *)
Definition created_note (type : TypeInfo) (fullName : string) : LogEntry :=
  (LogInformation, "ConfigObjectUtility",
   "Created and activated object '" +:+ fullName +:+ "' of type '" +:+ GetName type +:+ "'.").

(** The entry of the log for the [_api] package that is made. *)
Definition bootstrap_note : LogEntry :=
  (LogNotice, "ConfigObjectUtility", "Package _api doesn't exist yet, creating it.").

(** The world once the missing package is made: the notice is logged and
    the package exists; no stage is activated yet. *)
Definition with_new_package (w : World) : World :=
  set_packages ({["_api"]} ∪ packages w) (set_log (log w ++ [bootstrap_note])%list w).

(** The entry of the log for a repaired package. *)
Definition repaired_note (package stage : string) : LogEntry :=
  (LogInformation, "ConfigObjectUtility",
   "Repairing config package '" +:+ package +:+ "' with stage '" +:+ stage +:+ "'.").

(** How the registry knows the key: the object registered under it, and
    whether it is activated. *)
Definition standing (k : Key) (w : World) : option ConfigObject * bool :=
  (objects (registry w) !! k, bool_decide (k ∈ active (registry w))).

(** The cascade from [o] gets to no object with the key. *)
Definition spared (deps : gmap Key (list Object)) (o : ConfigObject) (k : Key) : Prop :=
  forall x, cascades deps o x -> key_of x <> k.

(** ** Paths *)

Section Paths.

Context (env : Env).

Lemma GetConfigDir_active w stage :
  active_stages w !! "_api" = Some stage -> stage <> "" ->
  GetConfigDir env w = (Ok ((PackageDir env +:+ "/_api/") +:+ stage), w).
Proof.
  intros Hs Hne. unfold GetConfigDir, GetActiveStage, gets, bind, when, ret.
  rewrite Hs. simpl. destruct stage; [congruence | reflexivity].
Qed.

(** The call that repairs the package returns the directory of the package
    itself: [activeStage] was read before the repair and is still empty. *)
Lemma GetConfigDir_repairing w stage :
  active_stages w !! "_api" = None ->
  first_directory (listing w (PackageDir env +:+ "/" +:+ "_api" +:+ "/")) = stage ->
  stage <> "" ->
  exists w', GetConfigDir env w = (Ok ((PackageDir env +:+ "/_api/") +:+ ""), w') /\
             active_stages w' !! "_api" = Some stage.
Proof.
  intros Hs Hd Hne.
  unfold GetConfigDir, GetActiveStage, RepairPackage, gets, bind, when, ret.
  rewrite Hs. simpl. rewrite Hd.
  destruct stage as [|c r]; [congruence|]. simpl.
  eexists. split; [reflexivity|].
  simpl. apply lookup_insert_eq.
Qed.

(** What [ComputeNewObjectConfigPath] adds to [GetConfigDir]. *)
Lemma ComputeNewObjectConfigPath_unfold type fullName w :
  ComputeNewObjectConfigPath env type fullName w =
  match GetConfigDir env w with
  | (Ok d, w') =>
      (Ok ((d +:+ "/conf.d/" +:+ Str.ToLower (GetPluralName type) +:+ "/") +:+
           (if is_exempted type then TruncateUsingHash env 123 (EscapeName env fullName)
            else EscapeName env fullName) +:+ ".conf"), w')
  | (Throw e, w') => (Throw e, w')
  | (Abort y, w') => (Abort y, w')
  end.
Proof.
  unfold ComputeNewObjectConfigPath, bind, is_exempted.
  destruct (GetConfigDir env w) as [[d|e|y] w']; try reflexivity.
  destruct (negb (GetName type =? "Comment") && negb (GetName type =? "Downtime"))%bool;
    reflexivity.
Qed.

Lemma is_exempted_false type :
  GetName type <> "Comment" -> GetName type <> "Downtime" -> is_exempted type = false.
Proof.
  intros H1 H2. unfold is_exempted.
  apply String.eqb_neq in H1, H2. rewrite H1, H2. reflexivity.
Qed.

End Paths.

(** C2 (as amended): for a type other than Comment and Downtime the path is
    the prefix, the whole escaped name and [".conf"], whatever the length
    of the name; the function has no check of the length, and the only
    exception it can leave by is the one of the package repair in
    [GetConfigDir]. *)
Theorem ComputeNewObjectConfigPath_keeps_long_names
    (env : Env) (type : TypeInfo) (fullName : string) (w : World) :
  GetName type <> "Comment" -> GetName type <> "Downtime" ->
  ComputeNewObjectConfigPath env type fullName w =
  match GetConfigDir env w with
  | (Ok d, w') =>
      (Ok ((d +:+ "/conf.d/" +:+ Str.ToLower (GetPluralName type) +:+ "/") +:+
           EscapeName env fullName +:+ ".conf"), w')
  | (Throw e, w') => (Throw e, w')
  | (Abort y, w') => (Abort y, w')
  end.
Proof.
  intros H1 H2. rewrite ComputeNewObjectConfigPath_unfold.
  rewrite (is_exempted_false type H1 H2). reflexivity.
Qed.

Lemma ComputeNewObjectConfigPath_keeps_long_names_witness :
  (GetName Sample.Host <> "Comment" /\ GetName Sample.Host <> "Downtime") /\
  ComputeNewObjectConfigPath (Sample.creating (Sample.host "h1")) Sample.Host
    Sample.long_name Sample.fresh =
  match GetConfigDir (Sample.creating (Sample.host "h1")) Sample.fresh with
  | (Ok d, w') =>
      (Ok ((d +:+ "/conf.d/" +:+ Str.ToLower (GetPluralName Sample.Host) +:+ "/") +:+
           EscapeName (Sample.creating (Sample.host "h1")) Sample.long_name +:+ ".conf"), w')
  | (Throw e, w') => (Throw e, w')
  | (Abort y, w') => (Abort y, w')
  end.
Proof.
  assert (H1 : GetName Sample.Host <> "Comment") by (simpl; discriminate).
  assert (H2 : GetName Sample.Host <> "Downtime") by (simpl; discriminate).
  split; [split; assumption |].
  apply (ComputeNewObjectConfigPath_keeps_long_names _ _ _ _ H1 H2).
Defined.

(** C2 (counterexample): for a host whose name has 5000 bytes the function
    returns a path of more than 4096 bytes, with a last component of more
    than 255 bytes, and raises nothing. *)
Lemma ComputeNewObjectConfigPath_returns_overlong_path :
  match ComputeNewObjectConfigPath (Sample.creating (Sample.host "h1")) Sample.Host
          Sample.long_name Sample.fresh with
  | (Ok p, _) =>
      p = Sample.host_path Sample.long_name /\
      (4096 <? String.length p)%nat = true /\
      (255 <? String.length (Sample.long_name +:+ ".conf"))%nat = true
  | _ => False
  end.
Proof. vm_compute. repeat split; reflexivity. Qed.

(** C4 (the code at the failing input): the [_api] package has no active
    stage and holds the directory [stage1]. The call adopts [stage1] as
    the active stage and returns a path without it. *)
Theorem ComputeNewObjectConfigPath_on_repair :
  match ComputeNewObjectConfigPath (Sample.creating (Sample.host "h1")) Sample.Host
          "h1" Sample.unstaged with
  | (Ok p, w') =>
      p = "/var/lib/icinga2/api/packages/_api//conf.d/hosts/h1.conf" /\
      active_stages w' !! "_api" = Some "stage1" /\
      p <> config_path (Sample.creating (Sample.host "h1")) "stage1" Sample.Host "h1"
  | _ => False
  end.
Proof. vm_compute. split; [reflexivity | split; [reflexivity | discriminate]]. Qed.

(** With an active stage recorded, the path has the layout of the package. *)
Lemma ComputeNewObjectConfigPath_layout (env : Env) type fullName w stage :
  active_stages w !! "_api" = Some stage -> stage <> "" ->
  ComputeNewObjectConfigPath env type fullName w =
  (Ok (config_path env stage type
         (if is_exempted type then TruncateUsingHash env 123 (EscapeName env fullName)
          else EscapeName env fullName)), w).
Proof.
  intros Hs Hne. rewrite ComputeNewObjectConfigPath_unfold.
  rewrite (GetConfigDir_active env w stage Hs Hne). reflexivity.
Qed.

(** ** Rendering *)

Section Rendering.

Context (env : Env).

Lemma field_index_find name fs i :
  match List.find (fun f => String.eqb (f_Name f) name) fs with
  | None => field_index name fs i = -1
  | Some f => exists n : nat,
      field_index name fs i = i + Z.of_nat n /\
      List.nth n fs {| f_Name := ""; f_Attributes := 0 |} = f
  end.
Proof.
  revert i. induction fs as [|f fs IH]; intros i; simpl; [reflexivity|].
  destruct (String.eqb (f_Name f) name).
  - exists 0%nat. split; [lia | reflexivity].
  - specialize (IH (i + 1)).
    destruct (List.find _ fs) as [g|]; [|exact IH].
    destruct IH as (n & Hn & Hg). exists (S n). split; [lia | exact Hg].
Qed.

Lemma check_attribute_rejects type k v w :
  unacceptable env type k ->
  exists msg, check_attribute env type (k, v) w = (Throw (ScriptError msg), w).
Proof.
  intros Hbad. unfold check_attribute, GetFieldId, GetFieldInfo. simpl.
  pose proof (field_index_find (Str.before_first_dot k) (type_fields type) 0) as Hf.
  unfold unacceptable, find_field in Hbad.
  destruct (List.find _ (type_fields type)) as [f|].
  - destruct Hf as (n & Hn & Hg). rewrite Hn.
    replace (0 + Z.of_nat n <? 0)%Z with false by (symmetry; apply Z.ltb_ge; lia).
    replace (Z.to_nat (0 + Z.of_nat n)) with n by lia. rewrite Hg.
    destruct Hbad as [Hb | [(f' & Hf' & Hl) | Hb]].
    + discriminate.
    + injection Hf' as <-. rewrite Hl. simpl. eexists; reflexivity.
    + subst k. rewrite orb_true_r. eexists; reflexivity.
  - rewrite Hf. simpl.
    eexists; reflexivity.
Qed.

Lemma check_attribute_cases type kv w :
  check_attribute env type kv w = (Ok tt, w) \/
  exists msg, check_attribute env type kv w = (Throw (ScriptError msg), w).
Proof.
  unfold check_attribute.
  destruct (_ <? 0)%Z; [right; eexists; reflexivity|].
  destruct (_ || _)%bool; [right; eexists; reflexivity | left; reflexivity].
Qed.

Lemma for_each_check_attribute_rejects type attrs k v w :
  In (k, v) attrs -> unacceptable env type k ->
  exists msg, for_each attrs (check_attribute env type) w = (Throw (ScriptError msg), w).
Proof.
  intros Hin Hbad. induction attrs as [|kv attrs IH]; [destruct Hin|].
  simpl. unfold bind.
  destruct (check_attribute_cases type kv w) as [Hok | (msg & Hth)].
  - rewrite Hok. destruct Hin as [-> | Hin].
    + destruct (check_attribute_rejects type k v w Hbad) as (msg & Hth). congruence.
    + apply IH, Hin.
  - rewrite Hth. eexists; reflexivity.
Qed.

End Rendering.

(** C6: a key of the attribute set that names no field of the type, or a
    field without the FAConfig bit, or that is ["name"], makes
    [CreateObjectConfig] throw and leaves the world, the disk included, as
    it was; the exception is the ScriptError of the validation whenever the
    name of the object itself can be parsed. *)
Theorem CreateObjectConfig_rejects_invalid_key
    (env : Env) (type : TypeInfo) (fullName : string) (ignoreOnError : bool)
    (templates : option (list string)) (attrs : Dictionary) (w : World)
    (k : string) (v : Value) :
  In (k, v) attrs ->
  unacceptable env type k ->
  exists e,
    CreateObjectConfig env type fullName ignoreOnError templates (Some attrs) w = (Throw e, w) /\
    ((forall ParseName, name_composer type = Some ParseName ->
                        exists d, ParseName fullName = inr d) ->
     exists msg, e = ScriptError msg).
Proof.
  intros Hin Hbad.
  destruct (for_each_check_attribute_rejects env type attrs k v w Hin Hbad) as (msg & Hth).
  unfold CreateObjectConfig, bind.
  destruct (name_composer type) as [ParseName|] eqn:Hnc.
  - destruct (ParseName fullName) as [e|d] eqn:Hp.
    + exists e. split; [reflexivity|].
      intros Hparse. destruct (Hparse ParseName eq_refl) as (d & Hd). congruence.
    + unfold ret at 1. rewrite Hth. exists (ScriptError msg). split; [reflexivity | eauto].
  - unfold ret at 1. rewrite Hth. exists (ScriptError msg). split; [reflexivity | eauto].
Qed.

(** ** Frames *)

#[global] Instance same_preorder {B} (f : World -> B) : PreOrder (same f).
Proof.
  split.
  - intros w. reflexivity.
  - intros w1 w2 w3 H12 H23. unfold same in *. congruence.
Qed.

Section Frames.

Context (R : relation World) `{!PreOrder R}.

Lemma frames_ret {A} (a : A) : frames R (ret a).
Proof. intros w r w' H. injection H as _ <-. reflexivity. Qed.

Lemma frames_throw {A} (e : exn) : frames R (@throw A e).
Proof. intros w r w' H. injection H as _ <-. reflexivity. Qed.

Lemma frames_crash {A} (y : abort) : frames R (@crash A y).
Proof. intros w r w' H. injection H as _ <-. reflexivity. Qed.

Lemma frames_gets {A} (f : World -> A) : frames R (gets f).
Proof. intros w r w' H. injection H as _ <-. reflexivity. Qed.

Lemma frames_modify (f : World -> World) :
  (forall w, R w (f w)) -> frames R (modify f).
Proof. intros Hf w r w' H. injection H as _ <-. apply Hf. Qed.

Lemma frames_bind {A B} (m : M A) (k : A -> M B) :
  frames R m -> (forall a, frames R (k a)) -> frames R (bind m k).
Proof.
  intros Hm Hk w r w' H. unfold bind in H.
  destruct (m w) as [[a|e|y] w1] eqn:E; pose proof (Hm _ _ _ E) as H1.
  - etransitivity; [exact H1 | exact (Hk _ _ _ _ H)].
  - injection H as _ <-. exact H1.
  - injection H as _ <-. exact H1.
Qed.

Lemma frames_try_catch {A} (m : M A) (h : exn -> M A) :
  frames R m -> (forall e, frames R (h e)) -> frames R (try_catch m h).
Proof.
  intros Hm Hh w r w' H. unfold try_catch in H.
  destruct (m w) as [[a|e|y] w1] eqn:E; pose proof (Hm _ _ _ E) as H1.
  - injection H as _ <-. exact H1.
  - etransitivity; [exact H1 | exact (Hh _ _ _ _ H)].
  - injection H as _ <-. exact H1.
Qed.

Lemma frames_when (b : bool) (m : M unit) : frames R m -> frames R (when b m).
Proof. intros Hm. destruct b; [exact Hm | apply frames_ret]. Qed.

Lemma frames_for_each {A} (l : list A) (body : A -> M unit) :
  (forall a, frames R (body a)) -> frames R (for_each l body).
Proof.
  intros Hb. induction l as [|a l IH]; simpl.
  - apply frames_ret.
  - apply frames_bind; [apply Hb | intros _; exact IH].
Qed.

End Frames.

Ltac frames_step :=
  match goal with
  | |- PreOrder _ => apply _
  | |- forall _, _ => intros ?
  | |- frames _ (bind _ _) => apply frames_bind
  | |- frames _ (try_catch _ _) => apply frames_try_catch
  | |- frames _ (when _ _) => apply frames_when
  | |- frames _ (for_each _ _) => apply frames_for_each
  | |- frames _ (ret _) => apply frames_ret
  | |- frames _ (throw _) => apply frames_throw
  | |- frames _ (crash _) => apply frames_crash
  | |- frames _ (gets _) => apply frames_gets
  | |- frames _ (modify _) => apply frames_modify; try (intros ?; reflexivity); try apply _
  | |- frames _ (match ?x with _ => _ end) => destruct x
  | |- frames _ (let '(_, _) := ?x in _) => destruct x
  end.

Section Untouched.

Context (env : Env).

Lemma frames_errors_Add {B} (f : World -> B) msg :
  (forall v w, f (set_errors v w) = f w) -> frames (same f) (errors_Add msg).
Proof.
  intros Hf w r w' H. unfold errors_Add in H.
  destruct (errors w); injection H as _ <-; [apply Hf | reflexivity].
Qed.

Lemma frames_diagnosticInformation_Add {B} (f : World -> B) msg :
  (forall v w, f (set_diagnosticInformation v w) = f w) ->
  frames (same f) (diagnosticInformation_Add msg).
Proof.
  intros Hf w r w' H. unfold diagnosticInformation_Add in H.
  destruct (diagnosticInformation w); injection H as _ <-; [apply Hf | reflexivity].
Qed.

Lemma frames_lift_registry {A B} (f : World -> B) (c : Registry -> Result A * Registry) :
  (forall v w, f (set_registry v w) = f w) -> frames (same f) (lift_registry c).
Proof.
  intros Hf w r w' H. unfold lift_registry in H.
  destruct (c (registry w)). injection H as _ <-. apply Hf.
Qed.

End Untouched.

Lemma bind_inv {A B} (m : M A) (k : A -> M B) w r w' :
  bind m k w = (r, w') ->
  (exists a w1, m w = (Ok a, w1) /\ k a w1 = (r, w')) \/
  (exists e, m w = (Throw e, w') /\ r = Throw e) \/
  (exists y, m w = (Abort y, w') /\ r = Abort y).
Proof.
  unfold bind. destruct (m w) as [[a|e|y] w1]; intros H.
  - left. eauto.
  - right. left. injection H as <- <-. eauto.
  - right. right. injection H as <- <-. eauto.
Qed.

Ltac bind_inv H a w1 E :=
  apply bind_inv in H as [(a & w1 & E & H) | [(? & E & ->) | (? & E & ->)]].

(** The same, keeping the equation on the result. *)
Ltac bind_cases H a w1 E :=
  apply bind_inv in H as [(a & w1 & E & H) | [(? & E & H) | (? & E & H)]].

Ltac frames_unfold :=
  progress unfold Log, ActivateStage, GetActiveStage, CreatePackage, CreateStage,
    PackageExists, GetObject, GetParents, GetByTypeAndName, has_errors,
    has_diagnosticInformation, MkDirP, Remove, SetExtension_ConfigObjectDeleted.

Ltac frames_go :=
  repeat first
    [ frames_step
    | apply frames_errors_Add; intros ? ?; reflexivity
    | apply frames_diagnosticInformation_Add; intros ? ?; reflexivity
    | apply frames_lift_registry; intros ? ?; reflexivity
    | frames_unfold ].

Section Create.

Context (env : Env).

Lemma CreateStorage_runs w :
  exists w1, CreateStorage env w = (Ok tt, w1) /\ kept w1 = kept w.
Proof.
  unfold CreateStorage, PackageExists, gets, bind.
  destruct (bool_decide ("_api" ∈ packages w)); simpl; eexists; split; reflexivity.
Qed.

Lemma frames_RepairPackage package : frames (same kept) (RepairPackage env package).
Proof. unfold RepairPackage. frames_go. Qed.

Lemma frames_GetConfigDir : frames (same kept) (GetConfigDir env).
Proof. unfold GetConfigDir. frames_go. apply frames_RepairPackage. Qed.

Lemma frames_ComputeNewObjectConfigPath type fullName :
  frames (same kept) (ComputeNewObjectConfigPath env type fullName).
Proof. unfold ComputeNewObjectConfigPath. frames_go. apply frames_GetConfigDir. Qed.

Lemma frames_report_exceptions what exceptions :
  frames (same disk) (report_exceptions env what exceptions).
Proof. unfold report_exceptions. frames_go. Qed.

Lemma frames_report_exception ex :
  frames (same disk) (report_exception env ex).
Proof. unfold report_exception. frames_go. Qed.

End Create.

Section Ensures.

Context {B A : Type} (f : World -> B) (Q : World -> Result A -> World -> Prop).
Hypothesis Q_pre : forall w w1 r w', f w1 = f w -> Q w1 r w' -> Q w r w'.
Hypothesis Q_frame : forall w r w', f w' = f w -> Q w r w'.

Lemma ensures_frames (m : M A) : frames (same f) m -> ensures m Q.
Proof. intros Hm w r w' H. apply Q_frame. exact (Hm _ _ _ H). Qed.

Lemma ensures_bind {C} (m : M C) (k : C -> M A) :
  frames (same f) m -> (forall c, ensures (k c) Q) -> ensures (bind m k) Q.
Proof.
  intros Hm Hk w r w' H.
  bind_inv H c w1 E; pose proof (Hm _ _ _ E) as H1.
  - apply (Q_pre w w1); [exact H1 | exact (Hk _ _ _ _ H)].
  - apply Q_frame. exact H1.
  - apply Q_frame. exact H1.
Qed.

End Ensures.

Section CreateRun.

Context (env : Env).

Lemma commits_or_keeps_pre key w w1 r w' :
  disk w1 = disk w -> commits_or_keeps key w1 r w' -> commits_or_keeps key w r w'.
Proof.
  intros H. injection H as HF HP _. unfold commits_or_keeps. rewrite HF, HP. auto.
Qed.

Lemma commits_or_keeps_frame key w r w' :
  disk w' = disk w -> commits_or_keeps key w r w'.
Proof. intros H. injection H as HF _ _. left. exact HF. Qed.

Lemma CreateObject_try_files type fullName expr cookie :
  ensures (CreateObject_try env type fullName expr cookie)
          (commits_or_keeps (GetName type, fullName)).
Proof.
  set (key := (GetName type, fullName)).
  pose proof (commits_or_keeps_pre key) as Hpre.
  pose proof (commits_or_keeps_frame key) as Hfr.
  unfold CreateObject_try.
  apply (ensures_bind disk _ Hpre Hfr); [frames_go | intros _].
  apply (ensures_bind disk _ Hpre Hfr); [frames_go | intros [[committed exceptions] newItems]].
  destruct committed; simpl.
  2:{ apply (ensures_frames disk _ Hfr). frames_go. apply frames_report_exceptions. }
  apply (ensures_bind disk _ Hpre Hfr); [frames_go | intros a].
  destruct a; simpl.
  2:{ apply (ensures_frames disk _ Hfr). frames_go. apply frames_report_exceptions. }
  apply (ensures_bind disk _ Hpre Hfr); [frames_go | intros _].
  intros w r w' H.
  bind_inv H obj w1 E.
  - assert (w1 = w /\ obj = objects (registry w) !! key) as [-> ->].
    { destruct (is_ConfigType type); [|discriminate E].
      unfold GetObject, gets in E. injection E as <- <-. auto. }
    destruct (objects (registry w) !! key) as [o|] eqn:Ho.
    + unfold AtomicFile_Commit, Log, modify, bind, ret in H.
      destruct (pending w) as [|fp P] eqn:HP; simpl in H; injection H as <- <-.
      * left. reflexivity.
      * right. split; [reflexivity|]. split.
        -- simpl. rewrite Ho. eauto.
        -- exists fp. rewrite HP. split; reflexivity.
    + unfold Log, modify, bind, ret in H. injection H as <- <-. left. reflexivity.
  - left. destruct (is_ConfigType type); [discriminate E | discriminate E].
  - left. destruct (is_ConfigType type); [discriminate E|].
    injection E as _ <-. reflexivity.
Qed.

Lemma frames_AtomicFile_Commit :
  frames (same (fun w => (dirs w, List.tl (pending w)))) AtomicFile_Commit.
Proof.
  apply frames_modify; try apply _. intros w. unfold same.
  destruct (pending w) eqn:E; simpl; rewrite ?E; reflexivity.
Qed.

Lemma CreateObject_try_scope type fullName expr cookie :
  frames (same (fun w => (dirs w, List.tl (pending w))))
         (CreateObject_try env type fullName expr cookie).
Proof.
  unfold CreateObject_try, report_exceptions. frames_go.
  all: try apply frames_AtomicFile_Commit.
Qed.

End CreateRun.

Lemma ensures_unfold {A} (m : M A) Q :
  ensures m Q -> forall w r w', m w = (r, w') -> Q w r w'.
Proof. intros H. exact H. Qed.

Lemma frames_weaken {A B C} (f : World -> B) (g : World -> C) (m : M A) :
  (forall w w', f w' = f w -> g w' = g w) -> frames (same f) m -> frames (same g) m.
Proof. intros Hfg Hm w r w' H. apply Hfg. exact (Hm _ _ _ H). Qed.

Lemma fold_MkDir_modes mode (l : list string) (d0 : gmap string Z) d m :
  List.fold_left (MkDir mode) l d0 !! d = Some m -> d0 !! d = Some m \/ m = mode.
Proof.
  revert d0. induction l as [|p l IH]; intros d0 H; simpl in H; [auto|].
  apply IH in H as [H | H]; [|auto].
  unfold MkDir in H. destruct (d0 !! p) eqn:Hp; [auto|].
  destruct (decide (p = d)) as [->|Hne].
  - rewrite lookup_insert_eq in H. injection H as <-. auto.
  - rewrite lookup_insert_ne in H by exact Hne. auto.
Qed.

Section CreateWhole.

Context (env : Env).

Lemma frames_AtomicFile_flush {B} (f : World -> B) : frames (same f) (AtomicFile_flush env).
Proof.
  intros w r w' H. unfold AtomicFile_flush in H.
  destruct (pending w) as [|fp P]; [injection H as _ <-; reflexivity|].
  destruct (AtomicFile_flush_error env _ _); injection H as _ <-; reflexivity.
Qed.

Lemma CreateObject_body_scope type fullName config path cookie :
  frames (same scope) (CreateObject_body env type fullName config path cookie).
Proof.
  unfold CreateObject_body. frames_go.
  - unfold AtomicFile_write. apply frames_modify; try apply _.
    intros w. unfold same, scope.
    destruct (pending w) eqn:E; simpl; rewrite ?E; reflexivity.
  - apply frames_AtomicFile_flush.
  - apply CreateObject_try_scope.
  - apply (frames_weaken disk); [|apply frames_report_exception].
    intros w w' H. injection H as _ HP HD. unfold scope. rewrite HP, HD. reflexivity.
Qed.

Lemma CreateObject_body_files type fullName config path cookie w r w' fp P :
  pending w = fp :: P ->
  CreateObject_body env type fullName config path cookie w = (r, w') ->
  files w' = files w \/
  (r = Ok true /\ is_Some (objects (registry w') !! (GetName type, fullName)) /\
   files w' = <[af_path fp := (af_data fp +:+ config, af_mode fp)]> (files w)).
Proof.
  intros HP H. unfold CreateObject_body in H.
  set (key := (GetName type, fullName)) in *.
  pose proof (commits_or_keeps_pre key) as Hpre.
  pose proof (commits_or_keeps_frame key) as Hfr.
  bind_inv H u w1 E; [| discriminate E | discriminate E].
  unfold AtomicFile_write, modify in E. rewrite HP in E. injection E as _ E.
  assert (Q : commits_or_keeps key w1 r w').
  { revert H. generalize w1 r w'. apply ensures_unfold.
    apply (ensures_bind disk _ Hpre Hfr); [apply frames_AtomicFile_flush | intros _].
    apply (ensures_bind disk _ Hpre Hfr); [frames_go | intros expr].
    intros v s v' Hv. unfold try_catch in Hv.
    destruct (CreateObject_try env type fullName expr cookie v) as [[b|e|y] v1] eqn:Et;
      pose proof (CreateObject_try_files env type fullName expr cookie _ _ _ Et) as Qt.
    - injection Hv as <- <-. exact Qt.
    - destruct Qt as [Qt | (Hr & _)]; [|discriminate Hr].
      assert (Fh : frames (same disk) (report_exception env e;; ret false))
        by (frames_go; apply frames_report_exception).
      pose proof (Fh _ _ _ Hv) as K. injection K as KF _ _. left. congruence.
    - injection Hv as <- <-. exact Qt. }
  subst w1. destruct Q as [Q | (Hr & Ho & fp' & Hh & Hf)]; [left; exact Q | right].
  simpl in Hh. injection Hh as <-. simpl in Hf. auto.
Qed.

End CreateWhole.

Section CreateObject_runs.

Context (env : Env).

Lemma kept_fields w w' :
  kept w' = kept w ->
  files w' = files w /\ pending w' = pending w /\ dirs w' = dirs w /\
  registry w' = registry w /\ errors w' = errors w /\
  diagnosticInformation w' = diagnosticInformation w.
Proof. unfold kept. intros H. injection H as H1 H2 H3 H4 H5 H6. auto 10. Qed.

(** The path is computed or the call is over. *)
Lemma path_computed type fullName w p w2 :
  try_catch (p <- ComputeNewObjectConfigPath env type fullName ;; ret (Some p))
    (fun ex => errors_Add ("Config package broken: " +:+ DiagnosticInformation env ex false) ;;
               ret None) w = (Ok (Some p), w2) ->
  ComputeNewObjectConfigPath env type fullName w = (Ok p, w2).
Proof.
  unfold try_catch, bind.
  destruct (ComputeNewObjectConfigPath env type fullName w) as [[p'|e|y] w1]; simpl.
  - intros H. injection H as <- <-. reflexivity.
  - unfold errors_Add. destruct (errors w1); simpl; discriminate.
  - discriminate.
Qed.

Lemma frames_path_step type fullName :
  frames (same disk)
    (try_catch (p <- ComputeNewObjectConfigPath env type fullName ;; ret (Some p))
       (fun ex => errors_Add ("Config package broken: " +:+
                              DiagnosticInformation env ex false) ;; ret None)).
Proof.
  frames_go.
  apply (frames_weaken kept); [|apply frames_ComputeNewObjectConfigPath].
  intros w w' H. apply kept_fields in H as (H1 & H2 & H3 & _).
  unfold disk. rewrite H1, H2, H3. reflexivity.
Qed.

(** What a call of [CreateObject] does to the disk. *)
Lemma CreateObject_disk type fullName config cookie w r w' :
  CreateObject env type fullName config cookie w = (r, w') ->
  (forall d m, dirs w' !! d = Some m -> dirs w !! d = Some m \/ m = 448) /\
  ((forall y, r <> Abort y) -> pending w' = pending w) /\
  (files w' = files w \/
   (r = Ok true /\ is_Some (objects (registry w') !! (GetName type, fullName)) /\
    exists path w0,
      ComputeNewObjectConfigPath env type fullName (snd (CreateStorage env w)) = (Ok path, w0) /\
      files w' = <[path := (config, 420)]> (files w))).
Proof.
  intros H. unfold CreateObject in H.
  destruct (CreateStorage_runs env w) as (w1 & E1 & K1).
  apply kept_fields in K1 as (F1 & P1 & D1 & _).
  rewrite E1. simpl.
  bind_inv H u w1' E; rewrite E1 in E; [injection E as _ <- | discriminate E | discriminate E].
  clear u E1.
  bind_inv H existing w1' E.
  2,3: destruct (is_ConfigType type); discriminate E.
  assert (w1' = w1) as ->.
  { destruct (is_ConfigType type); injection E as _ <-; reflexivity. }
  clear E. destruct existing as [o|].
  { assert (Fe : frames (same disk)
                   (errors_Add ("Object '" +:+ fullName +:+ "' already exists.") ;; ret false))
      by frames_go.
    pose proof (Fe _ _ _ H) as K. injection K as KF KP KD.
    rewrite KD, KP, KF, D1, P1, F1. auto. }
  bind_inv H path w2 E;
    pose proof (frames_path_step type fullName _ _ _ E) as K; injection K as F2 P2 D2.
  2,3: rewrite D2, P2, F2, D1, P1, F1; auto.
  destruct path as [path|].
  2:{ injection H as _ <-. rewrite D2, P2, F2, D1, P1, F1. auto. }
  apply path_computed in E.
  bind_inv H u w3 E3; [| discriminate E3 | discriminate E3].
  unfold MkDirP, modify in E3. injection E3 as _ <-.
  set (w3 := set_dirs _ w2) in H.
  assert (D3 : forall d m, dirs w3 !! d = Some m -> dirs w !! d = Some m \/ m = 448).
  { intros d m Hd. subst w3. simpl in Hd.
    apply fold_MkDir_modes in Hd. rewrite D2, D1 in Hd. exact Hd. }
  assert (F3 : files w3 = files w) by (subst w3; simpl; congruence).
  assert (P3 : pending w3 = pending w) by (subst w3; simpl; congruence).
  clearbody w3. clear F1 P1 D1 F2 P2 D2.
  unfold with_AtomicFile in H.
  bind_inv H u4 w4 E4.
  2,3: unfold AtomicFile_open in E4; destruct (AtomicFile_open_error env path);
       [injection E4 as _ <- | discriminate E4]; auto.
  unfold AtomicFile_open in E4. destruct (AtomicFile_open_error env path); [discriminate E4|].
  unfold modify in E4. injection E4 as _ <-.
  set (fp := {| af_path := path; af_mode := 420; af_data := ""; af_committed := false |}) in *.
  set (w4 := set_pending (fp :: pending w3) w3) in *.
  destruct (CreateObject_body env type fullName config path cookie w4) as [rb w5] eqn:Eb.
  pose proof (CreateObject_body_scope env type fullName config path cookie _ _ _ Eb) as Ks.
  injection Ks as KD KP. simpl in KD, KP.
  pose proof (CreateObject_body_files env type fullName config path cookie w4 rb w5
                fp (pending w3) eq_refl Eb) as Kf.
  simpl in Kf.
  assert (Hfiles :
    files w5 = files w \/
    (rb = Ok true /\ is_Some (objects (registry w5) !! (GetName type, fullName)) /\
     exists path0 w0,
       ComputeNewObjectConfigPath env type fullName w1 = (Ok path0, w0) /\
       files w5 = <[path0 := (config, 420)]> (files w))).
  { destruct Kf as [Kf | (Hr & Ho & Kf)]; [left; congruence | right].
    split; [exact Hr|]. split; [exact Ho|].
    exists path, w2. split; [exact E|]. rewrite Kf, F3. reflexivity. }
  destruct rb as [b|e|y]; injection H as <- <-.
  - split; [simpl; intros d m; rewrite KD; apply D3|].
    split; [intros _; simpl; rewrite KP; exact P3 | exact Hfiles].
  - split; [simpl; intros d m; rewrite KD; apply D3|].
    split; [intros _; simpl; rewrite KP; exact P3 | exact Hfiles].
  - split; [intros d m; rewrite KD; apply D3|].
    split; [intros Hy; destruct (Hy y); reflexivity | exact Hfiles].
Qed.

End CreateObject_runs.

Section Early.

Context (env : Env).

Lemma frames_path_step_registry type fullName :
  frames (same registry)
    (try_catch (p <- ComputeNewObjectConfigPath env type fullName ;; ret (Some p))
       (fun ex => errors_Add ("Config package broken: " +:+
                              DiagnosticInformation env ex false) ;; ret None)).
Proof.
  frames_go.
  apply (frames_weaken kept); [|apply frames_ComputeNewObjectConfigPath].
  intros w w' H. apply kept_fields in H as (_ & _ & _ & H & _). exact H.
Qed.

(** A call that ends before the [try] block leaves the registry as it was. *)
Lemma CreateObject_registry_before_try type fullName config cookie w r w' :
  CreateObject env type fullName config cookie w = (r, w') ->
  ~ reaches_try env type fullName config w ->
  registry w' = registry w.
Proof.
  intros H Hnot. unfold CreateObject in H.
  destruct (CreateStorage_runs env w) as (w1 & E1 & K1).
  apply kept_fields in K1 as (_ & _ & _ & R1 & _).
  unfold reaches_try in Hnot. rewrite E1 in Hnot. simpl in Hnot.
  bind_cases H u w1' E; rewrite E1 in E; [injection E as _ <- | discriminate E | discriminate E].
  bind_cases H existing w1' E.
  2,3: destruct (is_ConfigType type); discriminate E.
  assert (w1' = w1 /\
          existing = if is_ConfigType type
                     then objects (registry w) !! (GetName type, fullName) else None)
    as [-> ->].
  { destruct (is_ConfigType type); [|injection E as <- <-; auto].
    unfold GetObject, gets in E. injection E as <- <-. rewrite R1. auto. }
  clear E.
  destruct (if is_ConfigType type then _ else _) as [o|] eqn:Hex.
  { assert (Fe : frames (same registry)
                   (errors_Add ("Object '" +:+ fullName +:+ "' already exists.") ;; ret false))
      by frames_go.
    rewrite <- R1. exact (Fe _ _ _ H). }
  bind_cases H path w2 E;
    pose proof (frames_path_step_registry type fullName _ _ _ E) as R2; unfold same in R2.
  2,3: congruence.
  destruct path as [path|]; [|injection H as _ <-; congruence].
  apply path_computed in E.
  bind_cases H u3 w3 E3; [| discriminate E3 | discriminate E3].
  unfold MkDirP, modify in E3. injection E3 as _ <-.
  unfold with_AtomicFile in H.
  unfold bind at 1 in H. unfold AtomicFile_open in H.
  destruct (AtomicFile_open_error env path) eqn:Hopen.
  { injection H as _ <-. simpl. congruence. }
  unfold modify in H.
  match type of H with context [CreateObject_body _ _ _ _ _ _ ?v] => set (w4 := v) in * end.
  assert (R4 : registry w4 = registry w) by (subst w4; simpl; congruence).
  destruct (CreateObject_body env type fullName config path cookie w4) as [rb w5] eqn:Eb.
  assert (R5 : registry w5 = registry w4).
  { unfold CreateObject_body in Eb.
    bind_cases Eb u5 v5 E5; [| discriminate E5 | discriminate E5].
    unfold AtomicFile_write, modify in E5. subst w4. simpl in E5. injection E5 as _ <-.
    unfold bind at 1 in Eb. unfold AtomicFile_flush in Eb. simpl in Eb.
    change ("" +:+ config) with config in Eb.
    destruct (AtomicFile_flush_error env path config) eqn:Hflush.
    { injection Eb as _ <-. reflexivity. }
    unfold bind at 1 in Eb.
    destruct (CompileText env path config "" "_api") as [e|expr] eqn:Hcomp.
    { injection Eb as _ <-. reflexivity. }
    exfalso. apply Hnot. split; [reflexivity|]. exists path, w2, expr. auto. }
  assert (registry w' = registry w5) as ->; [|congruence].
  destruct rb; injection H as _ <-; reflexivity.
Qed.

End Early.

(** C1 (as amended): a call of [CreateObject] that does not return [true]
    leaves every file at its final path as it was, the destination
    included, so that no file is there if none was there before; every
    exit by a return or an exception releases the pending write; a file
    gets to its path only in a call that returns [true] after the re-query
    found the object; and a call that ends before the [try] block (the
    object exists already, or the path computation, the pending write or
    the compiler fails) leaves the registry as it was. Of the registry
    after a failure inside the [try] block nothing is said:
    [CreateObject] has no step that unregisters an object. *)
Theorem CreateObject_failure_keeps_files
    (env : Env) (type : TypeInfo) (fullName config : string) (cookie : Cookie)
    (w : World) (r : Result bool) (w' : World) :
  CreateObject env type fullName config cookie w = (r, w') ->
  (r <> Ok true -> files w' = files w) /\
  ((forall y, r <> Abort y) -> pending w' = pending w /\ temp_files w' = temp_files w) /\
  (files w' <> files w ->
   r = Ok true /\ is_Some (objects (registry w') !! (GetName type, fullName))) /\
  (~ reaches_try env type fullName config w -> registry w' = registry w).
Proof.
  intros H.
  pose proof (CreateObject_registry_before_try env type fullName config cookie w r w' H) as HR.
  apply CreateObject_disk in H as (_ & HP & HF).
  split; [|split; [|split]].
  - intros Hr. destruct HF as [HF | (Hr' & _)]; [exact HF | contradiction].
  - intros Hy. specialize (HP Hy). unfold temp_files. rewrite HP. auto.
  - intros Hne. destruct HF as [HF | (Hr' & Ho & _)]; [contradiction | auto].
  - exact HR.
Qed.

(** C8 (as amended): a file that a call of [CreateObject] brings to its
    path has the mode 0644 (420), readable by the group and by others, and
    a directory that the call makes has the mode 0700 (448). *)
Theorem CreateObject_modes
    (env : Env) (type : TypeInfo) (fullName config : string) (cookie : Cookie)
    (w : World) (r : Result bool) (w' : World) :
  CreateObject env type fullName config cookie w = (r, w') ->
  (forall p data mode, files w' !! p = Some (data, mode) ->
                       files w !! p = Some (data, mode) \/ (data = config /\ mode = 420)) /\
  (forall d m, dirs w' !! d = Some m -> dirs w !! d = Some m \/ m = 448).
Proof.
  intros H. apply CreateObject_disk in H as (HD & _ & HF).
  split; [|exact HD].
  intros p data mode Hp.
  destruct HF as [HF | (_ & _ & path & w0 & _ & HF)]; rewrite HF in Hp; [auto|].
  destruct (decide (path = p)) as [->|Hne].
  - rewrite lookup_insert_eq in Hp. injection Hp as <- <-. auto.
  - rewrite lookup_insert_ne in Hp by exact Hne. auto.
Qed.

Lemma CreateStorage_with_package (env : Env) w :
  "_api" ∈ packages w -> CreateStorage env w = (Ok tt, w).
Proof.
  intros Hp. unfold CreateStorage, PackageExists, gets, bind.
  rewrite bool_decide_eq_true_2 by exact Hp. reflexivity.
Qed.

(** C7: when the object is registered already, the call adds the error
    "Object '<fullName>' already exists." and returns [false]; after the
    bootstrap of the storage it does nothing else: no path is computed, no
    directory made, no pending write opened, no file touched. *)
Theorem CreateObject_already_exists
    (env : Env) (type : TypeInfo) (fullName config : string) (cookie : Cookie)
    (w : World) (o : ConfigObject) (es : list string) :
  is_ConfigType type = true ->
  objects (registry w) !! (GetName type, fullName) = Some o ->
  errors w = Some es ->
  CreateObject env type fullName config cookie w =
    (Ok false,
     set_errors (Some (es ++ ["Object '" +:+ fullName +:+ "' already exists."])%list)
       (snd (CreateStorage env w))) /\
  files (snd (CreateStorage env w)) = files w /\
  dirs (snd (CreateStorage env w)) = dirs w /\
  pending (snd (CreateStorage env w)) = pending w /\
  ("_api" ∈ packages w -> snd (CreateStorage env w) = w).
Proof.
  intros Hct Ho He.
  destruct (CreateStorage_runs env w) as (w1 & E1 & K1).
  apply kept_fields in K1 as (F1 & P1 & D1 & R1 & X1 & _).
  rewrite E1. simpl. split; [|split; [|split; [|split]]]; try assumption.
  - unfold CreateObject, bind. rewrite E1, Hct.
    unfold GetObject, gets. rewrite R1, Ho.
    unfold errors_Add. rewrite X1, He. reflexivity.
  - intros Hp. rewrite (CreateStorage_with_package env w Hp) in E1. congruence.
Qed.

Section Ignored.

Context (env : Env).

Lemma CreateObject_try_ignored type fullName expr cookie w g1 g2 g3 g4 exceptions newItems :
  is_ConfigType type = true ->
  Evaluate env expr (registry w) = (Ok tt, g1) ->
  CommitItems env g1 = (Ok (true, exceptions, newItems), g2) ->
  ActivateItems env newItems true false false cookie g2 = (Ok true, g3) ->
  (if is_exempted type then (Ok tt, g3) else UpdateObjectAuthority env g3) = (Ok tt, g4) ->
  objects g4 !! (GetName type, fullName) = None ->
  exists w', CreateObject_try env type fullName expr cookie w = (Ok true, w') /\
             disk w' = disk w /\ errors w' = errors w /\
             diagnosticInformation w' = diagnosticInformation w /\
             registry w' = g4 /\
             log w' = (log w ++ [ignored_note fullName])%list.
Proof.
  intros Hct Hev Hco Hac Hau Hno.
  unfold CreateObject_try, bind, lift_registry. rewrite Hev. simpl.
  rewrite Hco. simpl. rewrite Hac. simpl.
  unfold is_exempted in Hau.
  destruct (negb (GetName type =? "Comment") && negb (GetName type =? "Downtime"))%bool;
    simpl in *.
  - unfold lift_registry. simpl. rewrite Hau. rewrite Hct.
    unfold GetObject, gets. simpl. rewrite Hno.
    eexists. split; [reflexivity|]. simpl. auto 10.
  - injection Hau as <-. rewrite Hct.
    unfold GetObject, gets. simpl. rewrite Hno.
    eexists. split; [reflexivity|]. simpl. auto 10.
Qed.

End Ignored.

(** C3: when the compiler, the commit and the activation report no failure
    and the re-query finds no object, [CreateObject] returns [true]; the
    pending write is discarded and no file is committed, no error and no
    diagnostic is added, and the last entry of the log is the note that
    the object was ignored. *)
Theorem CreateObject_ignored_object
    (env : Env) (type : TypeInfo) (fullName config : string) (cookie : Cookie)
    (w w2 : World) (path : string) (expr : Expression)
    (g1 g2 g3 g4 : Registry) (exceptions : list exn) (newItems : list Key) :
  is_ConfigType type = true ->
  objects (registry w) !! (GetName type, fullName) = None ->
  ComputeNewObjectConfigPath env type fullName (snd (CreateStorage env w)) = (Ok path, w2) ->
  AtomicFile_open_error env path = None ->
  AtomicFile_flush_error env path config = None ->
  CompileText env path config "" "_api" = inr expr ->
  Evaluate env expr (registry w) = (Ok tt, g1) ->
  CommitItems env g1 = (Ok (true, exceptions, newItems), g2) ->
  ActivateItems env newItems true false false cookie g2 = (Ok true, g3) ->
  (if is_exempted type then (Ok tt, g3) else UpdateObjectAuthority env g3) = (Ok tt, g4) ->
  objects g4 !! (GetName type, fullName) = None ->
  exists w',
    CreateObject env type fullName config cookie w = (Ok true, w') /\
    files w' = files w /\ pending w' = pending w /\ temp_files w' = temp_files w /\
    errors w' = errors w /\ diagnosticInformation w' = diagnosticInformation w /\
    registry w' = g4 /\
    List.last (log w') (LogDebug, "", "") = ignored_note fullName.
Proof.
  intros Hct Hnew Hpath Hopen Hflush Hcomp Hev Hco Hac Hau Hno.
  destruct (CreateStorage_runs env w) as (w1 & E1 & K1).
  apply kept_fields in K1 as (F1 & P1 & D1 & R1 & X1 & I1).
  rewrite E1 in Hpath. simpl in Hpath.
  pose proof (frames_ComputeNewObjectConfigPath env type fullName _ _ _ Hpath) as K2.
  apply kept_fields in K2 as (F2 & P2 & D2 & R2 & X2 & I2).
  set (w3 := set_dirs (List.fold_left (MkDir 448) (dir_prefixes "" (DirName path)) (dirs w2)) w2).
  set (w4 := set_pending
               ({| af_path := path; af_mode := 420; af_data := config; af_committed := false |}
                  :: pending w3) w3).
  assert (Hev4 : Evaluate env expr (registry w4) = (Ok tt, g1)).
  { subst w4 w3. simpl. rewrite R2, R1. exact Hev. }
  destruct (CreateObject_try_ignored env type fullName expr cookie w4 g1 g2 g3 g4
              exceptions newItems Hct Hev4 Hco Hac Hau Hno)
    as (w5 & E5 & K5 & X5 & I5 & R5 & L5).
  injection K5 as F5 P5 D5.
  exists (set_pending (List.tl (pending w5)) w5).
  split.
  - unfold CreateObject, bind. rewrite E1, Hct.
    unfold GetObject, gets. rewrite R1, Hnew.
    unfold try_catch. rewrite Hpath. unfold ret at 1 2.
    unfold MkDirP, modify. fold w3.
    unfold with_AtomicFile, bind, AtomicFile_open. rewrite Hopen.
    unfold modify. unfold CreateObject_body, bind, AtomicFile_write, modify. simpl.
    unfold AtomicFile_flush. simpl.
    change ("" +:+ config) with config. rewrite Hflush. rewrite Hcomp.
    unfold ret at 1. unfold try_catch.
    match goal with |- context [CreateObject_try _ _ _ _ _ ?v] => change v with w4 end.
    rewrite E5. reflexivity.
  - simpl. unfold temp_files. simpl. rewrite P5, F5, X5, I5, L5. simpl.
    subst w4 w3. simpl. rewrite F2, F1, P2, P1, X2, X1, I2, I1.
    repeat split; try reflexivity; try assumption.
    apply last_last.
Qed.

(** ** Delete *)

#[global] Instance fades_preorder : PreOrder fades.
Proof.
  split.
  - intros w. unfold fades. repeat split; auto.
    intros es H. exists []. rewrite app_nil_r. exact H.
  - intros w1 w2 w3 (A1 & B1 & C1 & D1 & E1) (A2 & B2 & C2 & D2 & E2).
    unfold fades. repeat split.
    + congruence.
    + set_solver.
    + auto.
    + auto.
    + intros es H. destruct (E1 _ H) as (m1 & H1). destruct (E2 _ H1) as (m2 & H2).
      exists (m1 ++ m2)%list. rewrite app_assoc. exact H2.
Qed.

Section Delete.

Context (env : Env).

Lemma fades_refl_by w w' :
  registry w' = registry w -> files w' = files w -> errors w' = errors w -> fades w w'.
Proof.
  intros HR HF HE. unfold fades. rewrite HR, HF, HE. repeat split; auto.
  intros es H. exists []. rewrite app_nil_r. exact H.
Qed.

Lemma frames_fades_Log sev fac msg : frames fades (Log sev fac msg).
Proof.
  apply frames_modify; try apply _. intros w. apply fades_refl_by; reflexivity.
Qed.

Lemma frames_fades_errors_Add msg : frames fades (errors_Add msg).
Proof.
  intros w r w' H. unfold errors_Add in H.
  destruct (errors w) as [l|] eqn:E; injection H as _ <-.
  - unfold fades. simpl. repeat split; auto.
    intros es Hes. rewrite E in Hes. injection Hes as <-. eauto.
  - reflexivity.
Qed.

Lemma frames_fades_diagnosticInformation_Add msg :
  frames fades (diagnosticInformation_Add msg).
Proof.
  intros w r w' H. unfold diagnosticInformation_Add in H.
  destruct (diagnosticInformation w); injection H as _ <-.
  - apply fades_refl_by; reflexivity.
  - reflexivity.
Qed.

Lemma frames_fades_report_exception ex : frames fades (report_exception env ex).
Proof.
  unfold report_exception.
  repeat first [ frames_step | apply frames_fades_errors_Add
               | apply frames_fades_diagnosticInformation_Add | frames_unfold ].
Qed.

Lemma frames_fades_SetExtension object :
  frames fades (SetExtension_ConfigObjectDeleted object).
Proof.
  apply frames_modify; try apply _. intros w. unfold fades. simpl.
  repeat split; auto. intros es H. exists []. rewrite app_nil_r. exact H.
Qed.

Lemma frames_fades_Deactivate object b cookie :
  frames fades (Deactivate env object b cookie).
Proof.
  unfold Deactivate. destruct (Deactivate_error env object); [apply frames_throw; apply _|].
  apply frames_modify; try apply _. intros w. unfold fades. simpl.
  repeat split; auto; [intros k Hk; apply elem_of_difference in Hk; exact (proj1 Hk)|].
  intros es H. exists []. rewrite app_nil_r. exact H.
Qed.

Lemma frames_fades_Object_Unregister object :
  frames fades (Object_Unregister env object).
Proof.
  unfold Object_Unregister.
  destruct (Unregister_error env object); [apply frames_throw; apply _|].
  apply frames_modify; try apply _. intros w. unfold fades. simpl.
  repeat split; auto.
  - intros k Hk. apply lookup_delete_None. auto.
  - intros es H. exists []. rewrite app_nil_r. exact H.
Qed.

Lemma frames_fades_Item_Unregister object :
  frames fades (Item_Unregister env object).
Proof.
  unfold Item_Unregister.
  destruct (Unregister_error env object); [apply frames_throw; apply _|].
  apply frames_modify; try apply _. intros w. unfold fades. simpl.
  repeat split; auto.
  - intros k Hk. apply lookup_delete_None. auto.
  - intros es H. exists []. rewrite app_nil_r. exact H.
Qed.

Lemma frames_fades_Remove path : frames fades (Remove path).
Proof.
  apply frames_modify; try apply _. intros w. unfold fades. simpl.
  repeat split; auto.
  - intros p Hp. apply lookup_delete_None. auto.
  - intros es H. exists []. rewrite app_nil_r. exact H.
Qed.

Ltac fades_go :=
  repeat first
    [ frames_step
    | apply frames_fades_Log
    | apply frames_fades_errors_Add
    | apply frames_fades_report_exception
    | apply frames_fades_SetExtension
    | apply frames_fades_Deactivate
    | apply frames_fades_Object_Unregister
    | apply frames_fades_Item_Unregister
    | apply frames_fades_Remove
    | progress unfold GetParents, GetByTypeAndName, has_errors ].

Lemma frames_fades_self object cookie :
  frames fades (DeleteObjectHelper_self env object cookie).
Proof. unfold DeleteObjectHelper_self. fades_go. Qed.

Lemma frames_fades_DeleteObjectHelper fuel object cascade cookie :
  frames fades (DeleteObjectHelper env fuel object cascade cookie).
Proof.
  revert object. induction fuel as [|fuel IH]; intros object; simpl.
  - apply frames_crash. apply _.
  - unfold DeleteObjectHelper_parents. fades_go; [apply IH | apply frames_fades_self].
Qed.

End Delete.

Lemma not_in_difference_singleton (k : Key) (X : gset Key) : k ∉ X ∖ {[k]}.
Proof.
  intros Hk. apply elem_of_difference in Hk as [_ Hn].
  apply Hn. apply elem_of_singleton. reflexivity.
Qed.

Section DeleteRuns.

Context (env : Env).

Lemma report_exception_runs ex w :
  exists w', report_exception env ex w = (Ok tt, w') /\
             files w' = files w /\ registry w' = registry w /\
             (forall es, errors w = Some es ->
                         errors w' = Some (es ++ [DiagnosticInformation env ex false])%list).
Proof.
  unfold report_exception, has_errors, has_diagnosticInformation, gets, bind, when,
    errors_Add, diagnosticInformation_Add.
  destruct (errors w) as [es|] eqn:E;
    destruct (diagnosticInformation w) as [ds|] eqn:D;
    repeat (simpl; rewrite ?E, ?D);
    eexists; (split; [reflexivity|]); simpl; repeat split; try reflexivity;
    intros es' Hes; congruence.
Qed.

(** The object itself: deactivated, unregistered, its file removed when
    its package is [_api]. *)
Lemma DeleteObjectHelper_self_succeeds object cookie w :
  Deactivate_error env object = None ->
  Unregister_error env object = None ->
  exists w', DeleteObjectHelper_self env object cookie w = (Ok true, w') /\
             gone object w' /\
             files w' = (if String.eqb (o_package object) "_api"
                         then delete (o_path object) (files w) else files w) /\
             errors w' = errors w.
Proof.
  intros Hd Hu.
  unfold DeleteObjectHelper_self, GetByTypeAndName, gets, bind, try_catch,
    SetExtension_ConfigObjectDeleted, Deactivate, Item_Unregister, Object_Unregister,
    modify, when, Remove, Log, GetExistingObjectConfigPath, ret.
  rewrite Hd, Hu. unfold modify. simpl.
  destruct (bool_decide _); simpl;
    destruct (String.eqb (o_package object) "_api"); simpl;
    eexists; (split; [reflexivity|]); unfold gone; simpl;
    (split; [split; [apply not_in_difference_singleton | apply lookup_delete_eq]
            | split; reflexivity]).
Qed.

Lemma DeleteObjectHelper_self_fails object cookie w e :
  Deactivate_error env object = Some e ->
  exists w', DeleteObjectHelper_self env object cookie w = (Ok false, w') /\
             files w' = files w /\
             (forall es, errors w = Some es ->
                         errors w' = Some (es ++ [DiagnosticInformation env e false])%list).
Proof.
  intros Hd.
  unfold DeleteObjectHelper_self, GetByTypeAndName, gets.
  unfold bind at 1. unfold bind at 1. unfold try_catch.
  unfold bind at 1. unfold SetExtension_ConfigObjectDeleted, modify.
  unfold bind at 1. unfold Deactivate. rewrite Hd. unfold throw.
  unfold bind at 1.
  match goal with |- context [report_exception env e ?v] =>
    destruct (report_exception_runs e v) as (w' & E & HF & _ & HE); rewrite E end.
  simpl. exists w'. split; [reflexivity|]. split; [exact HF | exact HE].
Qed.

Lemma DeleteObjectHelper_self_total object cookie w :
  exists b w', DeleteObjectHelper_self env object cookie w = (Ok b, w').
Proof.
  unfold DeleteObjectHelper_self, GetByTypeAndName, gets.
  unfold bind at 1. unfold bind at 1. unfold try_catch.
  unfold bind at 1. unfold SetExtension_ConfigObjectDeleted, modify.
  unfold bind at 1. unfold Deactivate.
  destruct (Deactivate_error env object) as [e|].
  { unfold throw. unfold bind at 1.
    match goal with |- context [report_exception env ?ex ?v] =>
      destruct (report_exception_runs ex v) as (w' & E & _); rewrite E end.
    simpl. eauto. }
  unfold modify. unfold bind at 1.
  destruct (bool_decide _); unfold Item_Unregister, Object_Unregister;
    destruct (Unregister_error env object) as [e|].
  1,3: unfold throw; unfold bind at 1;
    match goal with |- context [report_exception env ?ex ?v] =>
      destruct (report_exception_runs ex v) as (w' & E & _); rewrite E end;
    simpl; eauto.
  all: unfold modify, bind, when, Remove, Log, modify, ret; simpl;
    destruct (String.eqb (o_package object) "_api"); simpl; eauto.
Qed.

Lemma DeleteObjectHelper_self_files object cookie w r w' :
  DeleteObjectHelper_self env object cookie w = (r, w') ->
  files w' = files w \/
  (o_package object = "_api" /\ files w' = delete (o_path object) (files w)).
Proof.
  intros H.
  assert (Hfr : forall w0 r0 w0' (m : M bool),
            frames (same files) m -> m w0 = (r0, w0') -> files w0' = files w0)
    by (intros w0 r0 w0' m Hm Hr; exact (Hm _ _ _ Hr)).
  unfold DeleteObjectHelper_self in H.
  bind_inv H item w1 E1; [| discriminate E1 | discriminate E1].
  unfold GetByTypeAndName, gets in E1. injection E1 as _ <-.
  assert (Ftry : frames (same files)
            (try_catch
               (SetExtension_ConfigObjectDeleted object;;
                Deactivate env object true cookie;;
                (if item then Item_Unregister env object else Object_Unregister env object);;
                ret true)
               (fun ex => report_exception env ex;; ret false))).
  { unfold Deactivate, Item_Unregister, Object_Unregister, report_exception. frames_go. }
  bind_inv H ok w2 E2; pose proof (Ftry _ _ _ E2) as F2; unfold same in F2; [|auto|auto].
  destruct ok; simpl in H.
  - destruct (String.eqb (o_package object) "_api") eqn:Hp.
    + right. apply String.eqb_eq in Hp. split; [exact Hp|].
      unfold when, Remove, Log, modify, bind, ret, GetExistingObjectConfigPath in H.
      injection H as _ <-. simpl. rewrite F2. reflexivity.
    + left. unfold when, Log, modify, bind, ret in H. injection H as _ <-. exact F2.
  - left. injection H as _ <-. exact F2.
Qed.

End DeleteRuns.

Section Cascade.

Context (env : Env) (rank : Key -> nat).

Lemma gone_fades x w w' : fades w w' -> gone x w -> gone x w'.
Proof.
  intros (_ & HA & HO & _) (Ha & Ho). split; [|auto].
  intros Hin. apply Ha. apply HA. exact Hin.
Qed.

Lemma DeleteObjectHelper_step fuel object cascade cookie w :
  DeleteObjectHelper env (S fuel) object cascade cookie w =
  let parents := parents_in (dependencies (registry w)) object in
  if (negb (is_empty parents) && negb cascade)%bool then
    (e <- has_errors ;;
     when e (errors_Add (DependencyError (o_name object) (o_type object))) ;;
     ret false) w
  else
    (DeleteObjectHelper_parents
       (fun parentObj => DeleteObjectHelper env fuel parentObj cascade cookie) parents ;;
     DeleteObjectHelper_self env object cookie) w.
Proof.
  simpl. unfold bind at 1. unfold GetParents, gets. fold (parents_in (dependencies (registry w)) object).
  destruct (negb (is_empty _) && negb cascade)%bool; reflexivity.
Qed.

(** The loop over the dependents returns when the recursive calls do. *)
Lemma DeleteObjectHelper_parents_returns (recurse : ConfigObject -> M bool) ps w :
  (forall p, frames fades (recurse p)) ->
  (forall p v, In (ConfigObj p) ps ->
               dependencies (registry v) = dependencies (registry w) ->
               exists b v', recurse p v = (Ok b, v')) ->
  exists w1, DeleteObjectHelper_parents recurse ps w = (Ok tt, w1) /\ fades w w1.
Proof.
  intros Hfr. revert w. induction ps as [|q ps IH]; intros w Hret.
  - exists w. split; reflexivity.
  - unfold DeleteObjectHelper_parents. simpl. unfold bind at 1.
    destruct q as [p|]; simpl.
    + destruct (Hret p w (or_introl eq_refl) eq_refl) as (b & v' & E).
      unfold bind at 1. rewrite E. unfold ret at 1.
      pose proof (Hfr _ _ _ _ E) as F1.
      destruct (IH v') as (w1 & E1 & F2).
      { intros p' v Hin Hv. apply Hret; [right; exact Hin|].
        rewrite Hv. apply F1. }
      exists w1. split; [exact E1 | etransitivity; eassumption].
    + unfold ret at 1.
      destruct (IH w) as (w1 & E1 & F2).
      { intros p' v Hin Hv. apply Hret; [right; exact Hin | exact Hv]. }
      exists w1. split; [exact E1 | exact F2].
Qed.

(** With an acyclic graph and enough fuel the delete returns. *)
Lemma DeleteObjectHelper_returns fuel object cascade cookie w :
  ranked rank (dependencies (registry w)) ->
  (rank (key_of object) < fuel)%nat ->
  exists b w', DeleteObjectHelper env fuel object cascade cookie w = (Ok b, w').
Proof.
  revert object w. induction fuel as [|fuel IH]; intros object w Hrk Hlt; [lia|].
  rewrite DeleteObjectHelper_step. simpl.
  destruct (negb (is_empty _) && negb cascade)%bool.
  - unfold has_errors, gets, bind, when, errors_Add.
    destruct (errors w) eqn:E; simpl; rewrite ?E; do 2 eexists; reflexivity.
  - destruct (DeleteObjectHelper_parents_returns
                (fun parentObj => DeleteObjectHelper env fuel parentObj cascade cookie)
                (parents_in (dependencies (registry w)) object) w) as (w1 & E1 & F1).
    + intros p. apply frames_fades_DeleteObjectHelper.
    + intros p v Hin Hv. apply IH.
      * rewrite Hv. exact Hrk.
      * specialize (Hrk object p Hin). lia.
    + unfold bind. rewrite E1.
      apply DeleteObjectHelper_self_total.
Qed.

End Cascade.

Section CascadeEffects.

Context (env : Env) (rank : Key -> nat).

(** Every object the cascade gets to, and whose own methods do not throw,
    is deactivated and unregistered, whatever its package. *)
Lemma DeleteObjectHelper_gone fuel cookie :
  forall object w r w',
    ranked rank (dependencies (registry w)) ->
    (rank (key_of object) < fuel)%nat ->
    DeleteObjectHelper env fuel object true cookie w = (r, w') ->
    forall x, cascades (dependencies (registry w)) object x ->
              does_not_throw env x -> gone x w'.
Proof.
  induction fuel as [|fuel IH]; intros object w r w' Hrk Hlt H x Hx Hnt; [lia|].
  rewrite DeleteObjectHelper_step in H. simpl in H.
  rewrite andb_false_r in H.
  set (recurse := fun parentObj => DeleteObjectHelper env fuel parentObj true cookie) in *.
  assert (Hfr : forall p, frames fades (recurse p))
    by (intros p; apply frames_fades_DeleteObjectHelper).
  assert (Hloop : forall ps v v1,
            (forall p, In (ConfigObj p) ps -> (rank (key_of p) < fuel)%nat) ->
            dependencies (registry v) = dependencies (registry w) ->
            DeleteObjectHelper_parents recurse ps v = (Ok tt, v1) ->
            fades v v1 /\
            forall p, In (ConfigObj p) ps ->
                      cascades (dependencies (registry w)) p x -> gone x v1).
  { induction ps as [|q ps IHps]; intros v v1 Hps Hv Hl.
    - injection Hl as <-. split; [reflexivity | intros p []].
    - unfold DeleteObjectHelper_parents in Hl. simpl in Hl.
      bind_cases Hl u v2 E2; [| discriminate Hl | discriminate Hl].
      fold (DeleteObjectHelper_parents recurse ps) in Hl.
      assert (F2 : fades v v2).
      { destruct q as [p|]; simpl in E2.
        - bind_cases E2 b v3 E3; [| discriminate E2 | discriminate E2].
          injection E2 as _ <-. exact (Hfr _ _ _ _ E3).
        - injection E2 as _ <-. reflexivity. }
      destruct (IHps v2 v1) as (F1 & G1); [| | exact Hl |].
      { intros p Hp. apply Hps. right. exact Hp. }
      { destruct F2 as (-> & _). exact Hv. }
      split; [etransitivity; eassumption|].
      intros p [-> | Hin] Hc; [|eauto].
      simpl in E2. bind_cases E2 b v3 E3; [| discriminate E2 | discriminate E2].
      injection E2 as _ <-.
      apply (gone_fades x v3 v1 F1).
      apply (IH p v (Ok b) v3); [rewrite Hv; exact Hrk | apply Hps; left; reflexivity
                           | exact E3 | rewrite Hv; exact Hc | exact Hnt]. }
  destruct (DeleteObjectHelper_parents_returns recurse
              (parents_in (dependencies (registry w)) object) w Hfr) as (w1 & E1 & F1).
  { intros p v Hin Hv. apply (DeleteObjectHelper_returns env rank).
    - rewrite Hv. exact Hrk.
    - specialize (Hrk object p Hin). lia. }
  unfold bind in H. rewrite E1 in H.
  destruct (Hloop _ w w1 (fun p Hp => ltac:(specialize (Hrk object p Hp); lia))
              eq_refl E1) as (_ & G1).
  inversion Hx as [o | o p x' Hin Hc]; subst.
  - destruct Hnt as (Hd & Hu).
    destruct (DeleteObjectHelper_self_succeeds env x cookie w1 Hd Hu) as (w2 & E2 & G2 & _).
    rewrite E2 in H. injection H as _ <-. exact G2.
  - apply (gone_fades x w1 w'); [exact (frames_fades_self env object cookie _ _ _ H)|].
    exact (G1 p Hin Hc).
Qed.


End CascadeEffects.

Section CascadeFiles.

Context (env : Env).

(** A file that a delete removes is the file of an object of the [_api]
    package that the cascade gets to. *)
Lemma DeleteObjectHelper_removes fuel cascade cookie :
  forall object w r w',
    DeleteObjectHelper env fuel object cascade cookie w = (r, w') ->
    removes_only object w w'.
Proof.
  induction fuel as [|fuel IH]; intros object w r w' H path Hin Hout.
  { injection H as _ <-. rewrite Hout in Hin. destruct Hin as [? [=]]. }
  rewrite DeleteObjectHelper_step in H. simpl in H.
  destruct (negb (is_empty _) && negb cascade)%bool.
  { assert (F : frames (same files)
                  (e <- has_errors ;;
                   when e (errors_Add (DependencyError (o_name object) (o_type object))) ;;
                   ret false)) by frames_go.
    pose proof (F _ _ _ H) as HF. unfold same in HF.
    rewrite HF in Hout. rewrite Hout in Hin. destruct Hin as [? [=]]. }
  set (recurse := fun parentObj => DeleteObjectHelper env fuel parentObj cascade cookie) in *.
  assert (Hfr : forall p, frames fades (recurse p))
    by (intros p; apply frames_fades_DeleteObjectHelper).
  assert (Hloop : forall ps v s v1,
            dependencies (registry v) = dependencies (registry w) ->
            DeleteObjectHelper_parents recurse ps v = (s, v1) ->
            is_Some (files v !! path) -> files v1 !! path = None ->
            exists p x, In (ConfigObj p) ps /\
                        cascades (dependencies (registry w)) p x /\
                        o_package x = "_api" /\ o_path x = path).
  { induction ps as [|q ps IHps]; intros v s v1 Hv Hl Hi Ho.
    - injection Hl as _ <-. rewrite Ho in Hi. destruct Hi as [? [=]].
    - unfold DeleteObjectHelper_parents in Hl. simpl in Hl.
      assert (Hq : forall t v2,
                (match dynamic_pointer_cast q with
                 | Some parentObj => _ <- recurse parentObj;; ret ()
                 | None => ret ()
                 end) v = (t, v2) ->
                fades v v2 /\
                (files v2 !! path = None ->
                 exists p x, In (ConfigObj p) (q :: ps) /\
                             cascades (dependencies (registry w)) p x /\
                             o_package x = "_api" /\ o_path x = path)).
      { intros t v2 E2. destruct q as [p|]; simpl in E2.
        - destruct (recurse p v) as [rp v3] eqn:E3.
          assert (v2 = v3) as ->.
          { unfold bind in E2. rewrite E3 in E2.
            destruct rp; injection E2 as _ <-; reflexivity. }
          split; [exact (Hfr _ _ _ _ E3)|].
          intros Hn. destruct (IH p v rp v3 E3 path Hi Hn) as (x & Hc & Hp & Hx).
          exists p, x. rewrite Hv in Hc. split; [left; reflexivity | auto].
        - injection E2 as _ <-. split; [reflexivity|].
          intros Hn. rewrite Hn in Hi. destruct Hi as [? [=]]. }
      bind_cases Hl u v2 E2.
      + fold (DeleteObjectHelper_parents recurse ps) in Hl.
        destruct (Hq _ _ E2) as (F2 & G2).
        destruct (files v2 !! path) as [f|] eqn:Hf; [|apply G2; reflexivity].
        destruct (IHps v2 s v1) as (p & x & Hp & Hc); [| exact Hl | eauto | exact Ho |].
        { destruct F2 as (-> & _). exact Hv. }
        exists p, x. split; [right; exact Hp | exact Hc].
      + destruct (Hq _ _ E2) as (_ & G2). apply G2. exact Ho.
      + destruct (Hq _ _ E2) as (_ & G2). apply G2. exact Ho. }
  bind_cases H u w1 E1.
  - destruct (files w1 !! path) as [f|] eqn:Hf.
    + apply DeleteObjectHelper_self_files in H as [HF | (Hp & HF)].
      * rewrite HF, Hf in Hout. discriminate Hout.
      * rewrite HF in Hout. apply lookup_delete_None in Hout as [Heq | Hn].
        -- exists object. split; [constructor | auto].
        -- rewrite Hf in Hn. discriminate Hn.
    + destruct (Hloop _ w (Ok u) w1 eq_refl E1 Hin Hf) as (p & x & Hp & Hc & Hx).
      exists x. split; [econstructor; eassumption | exact Hx].
  - destruct (Hloop _ w _ w' eq_refl E1 Hin Hout) as (p & z & Hp & Hc & Hz).
    exists z. split; [econstructor; eassumption | exact Hz].
  - destruct (Hloop _ w _ w' eq_refl E1 Hin Hout) as (p & z & Hp & Hc & Hz).
    exists z. split; [econstructor; eassumption | exact Hz].
Qed.

End CascadeFiles.

Section CascadeErrors.

Context (env : Env) (rank : Key -> nat).

(** A dependent whose deactivation throws: its delete returns [false] and
    the diagnostic of the exception is among the errors. *)
Lemma DeleteObjectHelper_dependent_fails fuel p cookie w e :
  ranked rank (dependencies (registry w)) ->
  (rank (key_of p) < fuel)%nat ->
  Deactivate_error env p = Some e ->
  exists w', DeleteObjectHelper env fuel p true cookie w = (Ok false, w') /\
             forall es, errors w = Some es ->
                        exists more, errors w' = Some (es ++ more)%list /\
                                     In (DiagnosticInformation env e false) more.
Proof.
  intros Hrk Hlt Hd. destruct fuel as [|fuel]; [lia|].
  rewrite DeleteObjectHelper_step. simpl. rewrite andb_false_r.
  destruct (DeleteObjectHelper_parents_returns
              (fun parentObj => DeleteObjectHelper env fuel parentObj true cookie)
              (parents_in (dependencies (registry w)) p) w) as (w1 & E1 & F1).
  { intros q. apply frames_fades_DeleteObjectHelper. }
  { intros q v Hin Hv. apply (DeleteObjectHelper_returns env rank).
    - rewrite Hv. exact Hrk.
    - specialize (Hrk p q Hin). lia. }
  unfold bind. rewrite E1.
  destruct (DeleteObjectHelper_self_fails env p cookie w1 e Hd) as (w' & E2 & _ & HE).
  exists w'. split; [exact E2|].
  intros es Hes. destruct F1 as (_ & _ & _ & _ & F1).
  destruct (F1 es Hes) as (m1 & H1).
  exists (m1 ++ [DiagnosticInformation env e false])%list.
  split; [rewrite (HE _ H1), app_assoc; reflexivity|].
  apply in_or_app. right. left. reflexivity.
Qed.


End CascadeErrors.

(** C5: a delete without cascade of an object that has a dependent returns
    [false] and adds to the errors the message "Object '<name>' of type
    '<type>' cannot be deleted because other objects depend on it. Use
    cascading delete to delete it anyway.", which names the object and
    its type; nothing else changes: the registry (the objects, the items,
    the activated objects) and the files are as before. The same holds
    through [DeleteObject] for an object of the [_api] package. *)
Theorem DeleteObjectHelper_refuses_without_cascade
    (env : Env) (fuel : nat) (object : ConfigObject) (cookie : Cookie) (w : World) :
  parents_in (dependencies (registry w)) object <> [] ->
  DeleteObjectHelper env (S fuel) object false cookie w =
    (Ok false,
     add_error (refusal_note (o_name object) (GetName (o_type object))) w) /\
  names (refusal_note (o_name object) (GetName (o_type object)))
    (o_name object) (GetName (o_type object)) /\
  (forall es, errors w = Some es ->
     errors (add_error (refusal_note (o_name object) (GetName (o_type object))) w) =
     Some (es ++ [refusal_note (o_name object) (GetName (o_type object))])%list) /\
  registry (add_error (refusal_note (o_name object) (GetName (o_type object))) w)
  = registry w /\
  files (add_error (refusal_note (o_name object) (GetName (o_type object))) w) = files w /\
  (o_package object = "_api" ->
   DeleteObject env (S fuel) object false cookie w =
     (Ok false,
      add_error (refusal_note (o_name object) (GetName (o_type object))) w)).
Proof.
  intros Hne.
  assert (E : DeleteObjectHelper env (S fuel) object false cookie w =
              (Ok false,
               add_error (refusal_note (o_name object) (GetName (o_type object))) w)).
  { rewrite DeleteObjectHelper_step. simpl.
    destruct (parents_in (dependencies (registry w)) object); [congruence|]. simpl.
    unfold has_errors, gets, bind, when, errors_Add, add_error.
    destruct (errors w) eqn:He; simpl; rewrite ?He; reflexivity. }
  split; [exact E|].
  split.
  { exists "Object '", "' of type '",
      "' cannot be deleted because other objects depend on it. Use cascading delete to delete it anyway.".
    reflexivity. }
  split; [intros es He; unfold add_error; rewrite He; reflexivity|].
  split; [unfold add_error; destruct (errors w); reflexivity|].
  split; [unfold add_error; destruct (errors w); reflexivity|].
  intros Hp. unfold DeleteObject. rewrite Hp. exact E.
Qed.


(** C10: [DeleteObject] refuses a root [other] of another package than
    [_api] and changes nothing but the errors. For a root [object] of the
    [_api] package, with an acyclic graph and enough fuel, every object
    the cascade gets to whose methods do not throw is deactivated and
    unregistered, of whatever package it is, and the only files that are
    removed are files of objects of the [_api] package. *)
Theorem DeleteObject_checks_package_of_root_only
    (env : Env) (rank : Key -> nat) (fuel : nat) (object other : ConfigObject)
    (cookie : Cookie) (w : World) :
  o_package other <> "_api" ->
  o_package object = "_api" ->
  ranked rank (dependencies (registry w)) ->
  (rank (key_of object) < fuel)%nat ->
  (forall cascade, DeleteObject env fuel other cascade cookie w =
                   (Ok false, add_error OwnershipError w)) /\
  exists b w',
    DeleteObject env fuel object true cookie w = (Ok b, w') /\
    (forall x, cascades (dependencies (registry w)) object x ->
               does_not_throw env x -> gone x w') /\
    removes_only object w w'.
Proof.
  intros Ho Hp Hrk Hlt. split.
  - intros cascade. unfold DeleteObject. apply String.eqb_neq in Ho. rewrite Ho. simpl.
    unfold has_errors, gets, bind, when, errors_Add, add_error, OwnershipError.
    destruct (errors w) eqn:He; simpl; rewrite ?He; reflexivity.
  - unfold DeleteObject. rewrite Hp. simpl.
    destruct (DeleteObjectHelper_returns env rank fuel object true cookie w Hrk Hlt)
      as (b & w' & E).
    exists b, w'. split; [exact E|]. split.
    + intros x Hx Hnt.
      exact (DeleteObjectHelper_gone env rank fuel cookie object w _ w' Hrk Hlt E x Hx Hnt).
    + exact (DeleteObjectHelper_removes env fuel true cookie object w _ w' E).
Qed.


(** ** Dictionaries *)

Lemma Dictionary_Get_Set_eq k v d : Dictionary_Get k (Dictionary_Set k v d) = v.
Proof.
  induction d as [|[k' v'] d IH]; simpl.
  - rewrite String.eqb_refl. reflexivity.
  - destruct (String.eqb k k') eqn:E; simpl.
    + rewrite String.eqb_refl. reflexivity.
    + destruct (String.ltb k k'); simpl.
      * rewrite String.eqb_refl. reflexivity.
      * rewrite E. exact IH.
Qed.

Lemma Dictionary_Get_Set_ne k k' v d :
  k <> k' -> Dictionary_Get k' (Dictionary_Set k v d) = Dictionary_Get k' d.
Proof.
  intros Hne. induction d as [|[k0 v0] d IH]; simpl.
  - apply String.eqb_neq in Hne. rewrite String.eqb_sym, Hne. reflexivity.
  - destruct (String.eqb k k0) eqn:E; simpl.
    + apply String.eqb_eq in E. subst k0.
      assert (H : String.eqb k' k = false) by (apply String.eqb_neq; congruence).
      rewrite H. reflexivity.
    + destruct (String.ltb k k0); simpl.
      * assert (H : String.eqb k' k = false) by (apply String.eqb_neq; congruence).
        rewrite H. reflexivity.
      * destruct (String.eqb k' k0); [reflexivity | exact IH].
Qed.

Lemma Dictionary_keys_Set k v d x :
  In x (List.map fst (Dictionary_Set k v d)) -> x = k \/ In x (List.map fst d).
Proof.
  induction d as [|[k0 v0] d IH]; simpl.
  - intros [H | []]. auto.
  - destruct (String.eqb k k0) eqn:E; simpl.
    + intros [H | H]; auto.
    + destruct (String.ltb k k0); simpl.
      * intros [H | [H | H]]; auto.
      * intros [H | H]; [auto|]. destruct (IH H); auto.
Qed.

Lemma Dictionary_keys_Remove k d : ~ In k (List.map fst (Dictionary_Remove k d)).
Proof.
  unfold Dictionary_Remove. intros H. apply in_map_iff in H as ([k' v'] & Hk & Hin).
  apply filter_In in Hin as [_ Hf]. simpl in *. subst k'.
  rewrite String.eqb_refl in Hf. discriminate Hf.
Qed.

Lemma Dictionary_Get_Remove_ne k k' d :
  k <> k' -> Dictionary_Get k' (Dictionary_Remove k d) = Dictionary_Get k' d.
Proof.
  intros Hne. unfold Dictionary_Remove.
  induction d as [|[k0 v0] d IH]; simpl; [reflexivity|].
  destruct (String.eqb k k0) eqn:E; simpl.
  - apply String.eqb_eq in E. subst k0.
    assert (H : String.eqb k' k = false) by (apply String.eqb_neq; congruence).
    rewrite H. exact IH.
  - destruct (String.eqb k' k0); [reflexivity | exact IH].
Qed.

Lemma last_value_acc k d acc :
  List.fold_left (fun a kv => if String.eqb k (fst kv) then Some (snd kv) else a) d acc
  = match last_value k d with Some v => Some v | None => acc end.
Proof.
  unfold last_value. revert acc. induction d as [|[k0 v0] d IH]; intros acc; simpl.
  - reflexivity.
  - rewrite IH. rewrite (IH (if String.eqb k k0 then Some v0 else None)).
    destruct (List.fold_left _ d None); [reflexivity|].
    destruct (String.eqb k k0); reflexivity.
Qed.

(** [CopyTo] as a map: the last pair of the source with the key wins, a
    key that the source does not have keeps its value. *)
Lemma Dictionary_Get_CopyTo k src dest :
  Dictionary_Get k (Dictionary_CopyTo src dest)
  = default (Dictionary_Get k dest) (last_value k src).
Proof.
  unfold Dictionary_CopyTo. revert dest.
  induction src as [|[k0 v0] src IH]; intros dest; simpl.
  - reflexivity.
  - rewrite IH. unfold last_value at 2. simpl. rewrite last_value_acc.
    destruct (last_value k src) as [v|]; simpl; [reflexivity|].
    destruct (String.eqb k k0) eqn:E; simpl.
    + apply String.eqb_eq in E. subst k0. apply Dictionary_Get_Set_eq.
    + apply String.eqb_neq in E. apply Dictionary_Get_Set_ne. congruence.
Qed.

Section Renders.

Context (env : Env).

Lemma check_attribute_accepts type k v w :
  acceptable env type k -> check_attribute env type (k, v) w = (Ok tt, w).
Proof.
  intros (f & Hf & Hl & Hn). unfold check_attribute, GetFieldId, GetFieldInfo. simpl.
  pose proof (field_index_find (Str.before_first_dot k) (type_fields type) 0) as Hi.
  unfold find_field in Hf. rewrite Hf in Hi. destruct Hi as (n & Hn' & Hg).
  rewrite Hn'.
  replace (0 + Z.of_nat n <? 0)%Z with false by (symmetry; apply Z.ltb_ge; lia).
  replace (Z.to_nat (0 + Z.of_nat n)) with n by lia. rewrite Hg.
  apply Z.eqb_neq in Hl. rewrite Hl. apply String.eqb_neq in Hn. rewrite Hn. reflexivity.
Qed.

Lemma for_each_check_attribute_accepts type attrs w :
  (forall k v, In (k, v) attrs -> acceptable env type k) ->
  for_each attrs (check_attribute env type) w = (Ok tt, w).
Proof.
  induction attrs as [|[k v] attrs IH]; intros H; simpl; [reflexivity|].
  unfold bind. rewrite (check_attribute_accepts type k v w (H k v (or_introl eq_refl))).
  apply IH. intros k' v' Hin. apply (H k' v'). right. exact Hin.
Qed.

(** What [CreateObjectConfig] hands to the renderer. *)
Lemma CreateObjectConfig_runs type fullName ignoreOnError templates attrs nameParts w :
  (forall k v, In (k, v) (default [] attrs) -> acceptable env type k) ->
  name_parts type fullName = inr nameParts ->
  CreateObjectConfig env type fullName ignoreOnError templates attrs w =
  (Ok (EmitConfigItem env (GetName type) (rendered_name env nameParts fullName) false
         ignoreOnError templates
         (Dictionary_Set "version" (VNumber (now w))
            (Dictionary_Remove "name"
               (Dictionary_CopyTo (default [] nameParts)
                  (Dictionary_CopyTo (default [] attrs) []))))
       +:+ Str.newline), w).
Proof.
  intros Hacc Hnp. unfold CreateObjectConfig, name_parts in *.
  assert (Hattrs :
    match attrs with
    | Some a => for_each a (check_attribute env type);; ret (Dictionary_CopyTo a [])
    | None => ret []
    end w = (Ok (Dictionary_CopyTo (default [] attrs) []), w)).
  { destruct attrs as [a|]; simpl; [|reflexivity].
    unfold bind. rewrite (for_each_check_attribute_accepts type a w Hacc). reflexivity. }
  destruct (name_composer type) as [ParseName|].
  - destruct (ParseName fullName) as [e|d]; [discriminate Hnp|].
    injection Hnp as <-. unfold bind at 1. unfold ret at 1.
    unfold bind at 1. rewrite Hattrs. reflexivity.
  - injection Hnp as <-. unfold bind at 1. unfold ret at 1.
    unfold bind at 1. rewrite Hattrs. reflexivity.
Qed.

End Renders.

(** X1: a request whose keys all name FAConfig fields and are not ["name"],
    and whose name parses, is rendered; the world is unchanged; among the
    attributes that are rendered [version] is the current time, whatever
    the request says, and there is no [name]. *)
Theorem CreateObjectConfig_stamps_version_and_strips_name
    (env : Env) (type : TypeInfo) (fullName : string) (ignoreOnError : bool)
    (templates : option (list string)) (attrs : option Dictionary)
    (nameParts : option Dictionary) (w : World) :
  (forall k v, In (k, v) (default [] attrs) -> acceptable env type k) ->
  name_parts type fullName = inr nameParts ->
  exists allAttrs,
    CreateObjectConfig env type fullName ignoreOnError templates attrs w =
    (Ok (EmitConfigItem env (GetName type) (rendered_name env nameParts fullName) false
           ignoreOnError templates allAttrs +:+ Str.newline), w) /\
    Dictionary_Get "version" allAttrs = VNumber (now w) /\
    ~ In "name" (List.map fst allAttrs).
Proof.
  intros Hacc Hnp. eexists. split; [|split].
  - apply CreateObjectConfig_runs; eassumption.
  - apply Dictionary_Get_Set_eq.
  - intros Hin. apply Dictionary_keys_Set in Hin as [Hin | Hin]; [discriminate Hin|].
    exact (Dictionary_keys_Remove _ _ Hin).
Qed.

(** X2: for every other key the value that is rendered is the one of the
    parts of the name when the name has this part, and else the one of
    the request: the parts of a composite name override the request. *)
Theorem CreateObjectConfig_name_parts_override
    (env : Env) (type : TypeInfo) (fullName : string) (ignoreOnError : bool)
    (templates : option (list string)) (attrs : option Dictionary)
    (nameParts : option Dictionary) (w : World) :
  (forall k v, In (k, v) (default [] attrs) -> acceptable env type k) ->
  name_parts type fullName = inr nameParts ->
  exists allAttrs,
    CreateObjectConfig env type fullName ignoreOnError templates attrs w =
    (Ok (EmitConfigItem env (GetName type) (rendered_name env nameParts fullName) false
           ignoreOnError templates allAttrs +:+ Str.newline), w) /\
    forall k, k <> "name" -> k <> "version" ->
      Dictionary_Get k allAttrs =
      match last_value k (default [] nameParts) with
      | Some v => v
      | None => default Empty (last_value k (default [] attrs))
      end.
Proof.
  intros Hacc Hnp. eexists. split.
  - apply CreateObjectConfig_runs; eassumption.
  - intros k Hn Hv.
    rewrite Dictionary_Get_Set_ne by congruence.
    rewrite Dictionary_Get_Remove_ne by congruence.
    rewrite !Dictionary_Get_CopyTo. simpl.
    destruct (last_value k (default [] nameParts)); reflexivity.
Qed.

(** ** The package and its stage *)

Section Package.

Context (env : Env).

Lemma first_directory_skips_files files_before tail :
  Forall (fun e : string * bool => snd e = false) files_before ->
  first_directory (files_before ++ tail)%list = first_directory tail.
Proof.
  induction 1 as [|[d b] l Hb _ IH]; simpl; [reflexivity|].
  simpl in Hb. subst b. exact IH.
Qed.

Lemma RepairPackage_unfold package w :
  RepairPackage env package w =
  let stage := first_directory (listing w (PackageDir env +:+ "/" +:+ package +:+ "/")) in
  if Str.IsEmpty stage then (Throw (RepairPackage_error package), w)
  else (Ok tt, set_active_stages (<[package := stage]> (active_stages w))
                 (set_log (log w ++ [repaired_note package stage])%list w)).
Proof.
  unfold RepairPackage, gets, bind. simpl.
  destruct (Str.IsEmpty _); reflexivity.
Qed.

End Package.

(** X3: [RepairPackage] adopts the first directory that the iteration
    yields: the entries before it that are no directories are skipped,
    the entries after it are not looked at. The active stage of the
    package becomes the stem of this directory, and the repair is logged. *)
Theorem RepairPackage_adopts_first_directory
    (env : Env) (package : string) (w : World)
    (files_before rest : list (string * bool)) (d : string) :
  listing w (PackageDir env +:+ "/" +:+ package +:+ "/") = (files_before ++ (d, true) :: rest)%list ->
  Forall (fun e : string * bool => snd e = false) files_before ->
  stem d <> "" ->
  RepairPackage env package w =
  (Ok tt, set_active_stages (<[package := stem d]> (active_stages w))
            (set_log (log w ++ [repaired_note package (stem d)])%list w)).
Proof.
  intros Hl Hf Hne. rewrite RepairPackage_unfold. simpl.
  rewrite Hl, (first_directory_skips_files _ _ Hf). simpl.
  destruct (stem d); [congruence | reflexivity].
Qed.

(** X4: [RepairPackage] throws invalid_argument and leaves the world as it
    is when the iteration yields no directory, and also when the first
    directory it yields has an empty stem, whatever follows it. *)
Theorem RepairPackage_fails_without_stage
    (env : Env) (package : string) (w : World)
    (files_before tail : list (string * bool)) :
  listing w (PackageDir env +:+ "/" +:+ package +:+ "/") = (files_before ++ tail)%list ->
  Forall (fun e : string * bool => snd e = false) files_before ->
  (tail = [] \/ exists d rest, tail = (d, true) :: rest /\ stem d = "") ->
  RepairPackage env package w = (Throw (RepairPackage_error package), w).
Proof.
  intros Hl Hf Ht. rewrite RepairPackage_unfold. simpl.
  rewrite Hl, (first_directory_skips_files _ _ Hf).
  destruct Ht as [-> | (d & rest & -> & Hd)]; simpl; [reflexivity|].
  rewrite Hd. reflexivity.
Qed.

(** X5: [CreateStorage] leaves an existing [_api] package exactly as it
    is, also when it has no active stage. When the package is missing it
    logs the notice, makes the package and activates the stage that
    [CreateStage] returned: this name and no other is the active stage
    afterwards, and when it is not empty [GetConfigDir] returns its
    directory without any repair. In both cases the package exists
    afterwards and a second call changes nothing. *)
Theorem CreateStorage_idempotent (env : Env) (w w0 : World) (stage : string) :
  CreateStage env "_api" (with_new_package w) = (Ok stage, w0) ->
  exists w1,
    CreateStorage env w = (Ok tt, w1) /\
    ("_api" ∈ packages w -> w1 = w) /\
    ("_api" ∉ packages w ->
     w1 = set_active_stages (<["_api" := stage]> (active_stages w0)) w0 /\
     active_stages w1 !! "_api" = Some stage /\
     GetActiveStage "_api" w1 = (Ok stage, w1) /\
     (stage <> "" ->
      GetConfigDir env w1 = (Ok ((PackageDir env +:+ "/_api/") +:+ stage), w1))) /\
    "_api" ∈ packages w1 /\
    CreateStorage env w1 = (Ok tt, w1).
Proof.
  intros Hstage. unfold CreateStage, gets in Hstage. injection Hstage as Hs <-.
  unfold CreateStorage at 1. unfold PackageExists, gets, bind.
  destruct (decide ("_api" ∈ packages w)) as [Hin | Hout].
  - rewrite bool_decide_eq_true_2 by exact Hin. simpl.
    exists w. split; [reflexivity|]. split; [reflexivity|].
    split; [contradiction|]. split; [exact Hin|].
    apply CreateStorage_with_package. exact Hin.
  - rewrite bool_decide_eq_false_2 by exact Hout. simpl.
    exists (set_active_stages (<["_api" := stage]> (active_stages (with_new_package w)))
              (with_new_package w)).
    split; [rewrite <- Hs; reflexivity|].
    assert (Hin : "_api" ∈ ({["_api"]} ∪ packages w : gset string))
      by (apply elem_of_union; left; apply elem_of_singleton; reflexivity).
    assert (Hact : active_stages
                     (set_active_stages
                        (<["_api" := stage]> (active_stages (with_new_package w)))
                        (with_new_package w)) !! "_api" = Some stage)
      by (simpl; apply lookup_insert_eq).
    split; [contradiction|].
    split.
    { intros _. split; [reflexivity|]. split; [exact Hact|]. split.
      - unfold GetActiveStage, gets. rewrite Hact. reflexivity.
      - intros Hne. apply GetConfigDir_active; assumption. }
    split; [exact Hin|].
    apply CreateStorage_with_package. exact Hin.
Qed.

(** X6: on a package without active stage that holds a stage directory,
    the first call of [ComputeNewObjectConfigPath] repairs the package and
    returns the path with an empty stage component; the second call
    returns the path under the adopted stage and changes nothing more. *)
Theorem ComputeNewObjectConfigPath_after_repair
    (env : Env) (type : TypeInfo) (fullName : string) (w : World) (stage : string) :
  active_stages w !! "_api" = None ->
  first_directory (listing w (PackageDir env +:+ "/" +:+ "_api" +:+ "/")) = stage ->
  stage <> "" ->
  exists w1,
    ComputeNewObjectConfigPath env type fullName w =
      (Ok (config_path env "" type
             (if is_exempted type then TruncateUsingHash env 123 (EscapeName env fullName)
              else EscapeName env fullName)), w1) /\
    ComputeNewObjectConfigPath env type fullName w1 =
      (Ok (config_path env stage type
             (if is_exempted type then TruncateUsingHash env 123 (EscapeName env fullName)
              else EscapeName env fullName)), w1).
Proof.
  intros Hs Hd Hne.
  destruct (GetConfigDir_repairing env w stage Hs Hd Hne) as (w1 & E1 & A1).
  exists w1. split.
  - rewrite ComputeNewObjectConfigPath_unfold, E1. reflexivity.
  - apply ComputeNewObjectConfigPath_layout; assumption.
Qed.

(** X7: when the [_api] package has no active stage and cannot be
    repaired, [CreateObject] catches the exception of the repair: it adds
    the error "Config package broken: ..." and returns [false]; no
    directory is made, no pending write opened, nothing else changes. *)
Theorem CreateObject_reports_broken_package
    (env : Env) (type : TypeInfo) (fullName config : string) (cookie : Cookie)
    (w : World) (es : list string) :
  "_api" ∈ packages w ->
  active_stages w !! "_api" = None ->
  first_directory (listing w (PackageDir env +:+ "/" +:+ "_api" +:+ "/")) = "" ->
  (if is_ConfigType type then objects (registry w) !! (GetName type, fullName) else None)
  = None ->
  errors w = Some es ->
  CreateObject env type fullName config cookie w =
  (Ok false,
   set_errors (Some (es ++ ["Config package broken: " +:+
                            DiagnosticInformation env (RepairPackage_error "_api") false])%list)
     w).
Proof.
  intros Hp Hs Hd Hnew He.
  unfold CreateObject, bind. rewrite (CreateStorage_with_package env w Hp).
  assert (Hex : (if is_ConfigType type then GetObject type fullName else ret None) w
                = (Ok None, w)).
  { destruct (is_ConfigType type); [|reflexivity].
    unfold GetObject, gets. rewrite Hnew. reflexivity. }
  rewrite Hex. unfold try_catch.
  rewrite ComputeNewObjectConfigPath_unfold.
  unfold GetConfigDir, GetActiveStage, gets, bind, when. rewrite Hs. simpl.
  rewrite RepairPackage_unfold. simpl. rewrite Hd. simpl.
  unfold errors_Add. rewrite He. reflexivity.
Qed.

(** ** The steps of a create *)

Section CreateSteps.

Context (env : Env).

(** After the path is computed: the directories, then the pending write. *)
Lemma CreateObject_after_path type fullName config cookie w path w2 :
  (if is_ConfigType type then objects (registry w) !! (GetName type, fullName) else None)
  = None ->
  ComputeNewObjectConfigPath env type fullName (snd (CreateStorage env w)) = (Ok path, w2) ->
  CreateObject env type fullName config cookie w =
  with_AtomicFile env path 420 (CreateObject_body env type fullName config path cookie)
    (set_dirs (List.fold_left (MkDir 448) (dir_prefixes "" (DirName path)) (dirs w2)) w2).
Proof.
  intros Hnew Hpath.
  destruct (CreateStorage_runs env w) as (w1 & E1 & K1).
  apply kept_fields in K1 as (_ & _ & _ & R1 & _).
  rewrite E1 in Hpath. simpl in Hpath.
  unfold CreateObject. unfold bind at 1. rewrite E1.
  assert (Hex : (if is_ConfigType type then GetObject type fullName else ret None) w1
                = (Ok None, w1)).
  { destruct (is_ConfigType type); [|reflexivity].
    unfold GetObject, gets. rewrite R1, Hnew. reflexivity. }
  unfold bind at 1. rewrite Hex.
  unfold bind at 1. unfold try_catch. unfold bind at 1. rewrite Hpath.
  unfold ret at 1. unfold bind at 1. reflexivity.
Qed.

Lemma prepared_fields type fullName config w path w2 expr :
  prepared env type fullName config w path w2 expr ->
  files w2 = files w /\ pending w2 = pending w /\ registry w2 = registry w /\
  errors w2 = errors w /\ diagnosticInformation w2 = diagnosticInformation w.
Proof.
  intros (_ & Hpath & _).
  destruct (CreateStorage_runs env w) as (w1 & E1 & K1).
  rewrite E1 in Hpath. simpl in Hpath.
  pose proof (frames_ComputeNewObjectConfigPath env type fullName _ _ _ Hpath) as K2.
  apply kept_fields in K1 as (F1 & P1 & _ & R1 & X1 & I1).
  apply kept_fields in K2 as (F2 & P2 & _ & R2 & X2 & I2).
  repeat split; congruence.
Qed.

(** The call gets to the [try] block, and ends with the scope of [fp]. *)
Lemma CreateObject_prepared type fullName config cookie w path w2 expr :
  prepared env type fullName config w path w2 expr ->
  CreateObject env type fullName config cookie w =
  match try_catch (CreateObject_try env type fullName expr cookie)
          (fun ex => report_exception env ex ;; ret false) (opened path config w2) with
  | (Abort y, w5) => (Abort y, w5)
  | (r, w5) => (r, set_pending (List.tl (pending w5)) w5)
  end.
Proof.
  intros (Hnew & Hpath & Hopen & Hflush & Hcomp).
  rewrite (CreateObject_after_path type fullName config cookie w path w2 Hnew Hpath).
  unfold with_AtomicFile, bind, AtomicFile_open. rewrite Hopen.
  unfold modify. unfold CreateObject_body, bind, AtomicFile_write, modify. simpl.
  unfold AtomicFile_flush. simpl.
  change ("" +:+ config) with config. rewrite Hflush, Hcomp.
  unfold ret at 1. reflexivity.
Qed.

Lemma report_loop_runs exceptions w es :
  errors w = Some es ->
  exists w',
    for_each exceptions (fun ex =>
      errors_Add (DiagnosticInformation env ex false) ;;
      d <- has_diagnosticInformation ;;
      when d (diagnosticInformation_Add (DiagnosticInformation env ex true))) w
    = (Ok tt, w') /\
    errors w' = Some (es ++ diagnostics env false exceptions)%list /\
    diagnosticInformation w' =
      option_map (fun ds => (ds ++ diagnostics env true exceptions)%list)
        (diagnosticInformation w) /\
    disk w' = disk w /\ registry w' = registry w /\ log w' = log w.
Proof.
  revert w es. induction exceptions as [|ex l IH]; intros w es He.
  - exists w. simpl. rewrite app_nil_r. split; [reflexivity|]. split; [exact He|].
    split; [|auto]. destruct (diagnosticInformation w); simpl; [rewrite app_nil_r|]; reflexivity.
  - simpl. unfold bind at 1. unfold bind at 1. unfold errors_Add at 1. rewrite He.
    unfold bind at 1. unfold has_diagnosticInformation, gets. simpl.
    destruct (diagnosticInformation w) as [ds|] eqn:Hd; simpl.
    + unfold diagnosticInformation_Add at 1. simpl. rewrite Hd.
      match goal with |- context [for_each l _ ?v] =>
        destruct (IH v (es ++ [DiagnosticInformation env ex false])%list eq_refl)
          as (w' & E & HE & HD & HK & HR & HL) end.
      exists w'. split; [exact E|]. rewrite HE, HD. simpl.
      rewrite <- !app_assoc. simpl. auto.
    + match goal with |- context [for_each l _ ?v] =>
        destruct (IH v (es ++ [DiagnosticInformation env ex false])%list eq_refl)
          as (w' & E & HE & HD & HK & HR & HL) end.
      exists w'. split; [exact E|]. rewrite HE, HD. simpl. rewrite Hd.
      rewrite <- !app_assoc. simpl. auto.
Qed.

(** The block after a failed commit or activation: with a null [errors]
    nothing is recorded, the diagnostics neither. *)
Lemma report_exceptions_runs what exceptions w :
  exists w',
    report_exceptions env what exceptions w = (Ok tt, w') /\
    errors w' = option_map (fun es => (es ++ diagnostics env false exceptions)%list) (errors w) /\
    diagnosticInformation w' =
      (if not_null (errors w)
       then option_map (fun ds => (ds ++ diagnostics env true exceptions)%list)
              (diagnosticInformation w)
       else diagnosticInformation w) /\
    disk w' = disk w /\ registry w' = registry w.
Proof.
  unfold report_exceptions, has_errors, gets, bind.
  destruct (errors w) as [es|] eqn:He; simpl.
  - unfold Log, modify. simpl.
    match goal with |- context [for_each exceptions _ ?v] =>
      destruct (report_loop_runs exceptions v es He) as (w' & E & HE & HD & HK & HR & HL) end.
    fold (bind (A:=unit) (B:=unit)). 
    exists w'. split; [|auto].
    unfold bind in E |- *. exact E.
  - exists w. rewrite He. auto.
Qed.

End CreateSteps.

(** X8: an error of the pending write (open or flush) or of the compiler
    is not caught: it leaves [CreateObject] as an exception, no error is
    added to the arrays, and the pending write is released; files and
    registry are as before. *)
Theorem CreateObject_propagates_early_exceptions
    (env : Env) (type : TypeInfo) (fullName config : string) (cookie : Cookie)
    (w w2 : World) (path : string) (e : exn) :
  (if is_ConfigType type then objects (registry w) !! (GetName type, fullName) else None)
  = None ->
  ComputeNewObjectConfigPath env type fullName (snd (CreateStorage env w)) = (Ok path, w2) ->
  (AtomicFile_open_error env path = Some e \/
   (AtomicFile_open_error env path = None /\
    AtomicFile_flush_error env path config = Some e) \/
   (AtomicFile_open_error env path = None /\
    AtomicFile_flush_error env path config = None /\
    CompileText env path config "" "_api" = inl e)) ->
  exists w',
    CreateObject env type fullName config cookie w = (Throw e, w') /\
    errors w' = errors w /\ diagnosticInformation w' = diagnosticInformation w /\
    files w' = files w /\ pending w' = pending w /\ registry w' = registry w.
Proof.
  intros Hnew Hpath Hwhy.
  rewrite (CreateObject_after_path env type fullName config cookie w path w2 Hnew Hpath).
  destruct (CreateStorage_runs env w) as (w1 & E1 & K1).
  rewrite E1 in Hpath. simpl in Hpath.
  pose proof (frames_ComputeNewObjectConfigPath env type fullName _ _ _ Hpath) as K2.
  apply kept_fields in K1 as (F1 & P1 & _ & R1 & X1 & I1).
  apply kept_fields in K2 as (F2 & P2 & _ & R2 & X2 & I2).
  unfold with_AtomicFile, bind, AtomicFile_open.
  destruct Hwhy as [Hopen | [(Hopen & Hflush) | (Hopen & Hflush & Hcomp)]]; rewrite Hopen.
  - eexists. split; [reflexivity|]. simpl. repeat split; congruence.
  - unfold modify, CreateObject_body, bind, AtomicFile_write, modify. simpl.
    unfold AtomicFile_flush. simpl. change ("" +:+ config) with config. rewrite Hflush.
    eexists. split; [reflexivity|]. simpl. repeat split; congruence.
  - unfold modify, CreateObject_body, bind, AtomicFile_write, modify. simpl.
    unfold AtomicFile_flush. simpl. change ("" +:+ config) with config.
    rewrite Hflush, Hcomp.
    eexists. split; [reflexivity|]. simpl. repeat split; congruence.
Qed.

(** X9: an exception of the evaluation is caught: the call returns
    [false], the diagnostic of the exception is added to [errors] and,
    also with a null [errors], its verbose form to
    [diagnosticInformation]; no file is committed. *)
Theorem CreateObject_catches_evaluation_error
    (env : Env) (type : TypeInfo) (fullName config : string) (cookie : Cookie)
    (w w2 : World) (path : string) (expr : Expression) (e : exn) (g1 : Registry) :
  prepared env type fullName config w path w2 expr ->
  Evaluate env expr (registry w) = (Throw e, g1) ->
  exists w',
    CreateObject env type fullName config cookie w = (Ok false, w') /\
    errors w' = option_map (fun es => (es ++ [DiagnosticInformation env e false])%list)
                  (errors w) /\
    diagnosticInformation w' =
      option_map (fun ds => (ds ++ [DiagnosticInformation env e true])%list)
        (diagnosticInformation w) /\
    files w' = files w /\ pending w' = pending w /\ registry w' = g1.
Proof.
  intros Hprep Hev.
  rewrite (CreateObject_prepared env type fullName config cookie w path w2 expr Hprep).
  apply prepared_fields in Hprep as (F2 & P2 & R2 & X2 & I2).
  unfold try_catch, CreateObject_try. unfold bind at 1. unfold lift_registry at 1.
  change (registry (opened path config w2)) with (registry w2). rewrite R2, Hev.
  unfold report_exception, has_errors, has_diagnosticInformation, gets, bind, when,
    errors_Add, diagnosticInformation_Add. simpl.
  rewrite <- X2, <- I2, <- F2, <- P2.
  destruct (errors w2) as [es|] eqn:He; destruct (diagnosticInformation w2) as [ds|] eqn:Hd;
    repeat (simpl; rewrite ?He, ?Hd);
    eexists; (split; [reflexivity|]); simpl; rewrite ?He, ?Hd; simpl;
    repeat split; reflexivity.
Qed.

(** X10: when the commit of the items fails, the call returns [false]
    without activating anything; the diagnostics of the exceptions of the
    commit queue are added, one per exception and in their order, to
    [errors], and their verbose forms to [diagnosticInformation]; with a
    null [errors] nothing is recorded at all. No file is committed. *)
Theorem CreateObject_reports_commit_failure
    (env : Env) (type : TypeInfo) (fullName config : string) (cookie : Cookie)
    (w w2 : World) (path : string) (expr : Expression)
    (g1 g2 : Registry) (exceptions : list exn) (newItems : list Key) :
  prepared env type fullName config w path w2 expr ->
  Evaluate env expr (registry w) = (Ok tt, g1) ->
  CommitItems env g1 = (Ok (false, exceptions, newItems), g2) ->
  exists w',
    CreateObject env type fullName config cookie w = (Ok false, w') /\
    errors w' = option_map (fun es => (es ++ diagnostics env false exceptions)%list)
                  (errors w) /\
    diagnosticInformation w' =
      (if not_null (errors w)
       then option_map (fun ds => (ds ++ diagnostics env true exceptions)%list)
              (diagnosticInformation w)
       else diagnosticInformation w) /\
    files w' = files w /\ pending w' = pending w /\ registry w' = g2.
Proof.
  intros Hprep Hev Hco.
  rewrite (CreateObject_prepared env type fullName config cookie w path w2 expr Hprep).
  apply prepared_fields in Hprep as (F2 & P2 & R2 & X2 & I2).
  unfold try_catch, CreateObject_try. unfold bind at 1. unfold lift_registry at 1.
  change (registry (opened path config w2)) with (registry w2). rewrite R2, Hev.
  unfold bind at 1. unfold lift_registry at 1. simpl registry. rewrite Hco.
  cbv beta iota. change (negb false) with true. change (negb true) with false. cbv iota. unfold bind at 1.
  match goal with |- context [report_exceptions env ?what exceptions ?v] =>
    destruct (report_exceptions_runs env what exceptions v) as (w' & E & HE & HD & HK & HR);
    rewrite E end.
  injection HK as HF HP _. simpl in HE, HD, HF, HP, HR.
  eexists. split; [reflexivity|]. simpl.
  rewrite HE, HD, HF, HP, HR, X2, I2, F2, P2. auto 10.
Qed.

(** X11: when the activation fails, the call returns [false]; what is
    added to the arrays are the diagnostics of the exceptions of the
    commit queue, none if the commit left none. No file is committed. *)
Theorem CreateObject_reports_activation_failure
    (env : Env) (type : TypeInfo) (fullName config : string) (cookie : Cookie)
    (w w2 : World) (path : string) (expr : Expression)
    (g1 g2 g3 : Registry) (exceptions : list exn) (newItems : list Key) :
  prepared env type fullName config w path w2 expr ->
  Evaluate env expr (registry w) = (Ok tt, g1) ->
  CommitItems env g1 = (Ok (true, exceptions, newItems), g2) ->
  ActivateItems env newItems true false false cookie g2 = (Ok false, g3) ->
  exists w',
    CreateObject env type fullName config cookie w = (Ok false, w') /\
    errors w' = option_map (fun es => (es ++ diagnostics env false exceptions)%list)
                  (errors w) /\
    diagnosticInformation w' =
      (if not_null (errors w)
       then option_map (fun ds => (ds ++ diagnostics env true exceptions)%list)
              (diagnosticInformation w)
       else diagnosticInformation w) /\
    files w' = files w /\ pending w' = pending w /\ registry w' = g3.
Proof.
  intros Hprep Hev Hco Hac.
  rewrite (CreateObject_prepared env type fullName config cookie w path w2 expr Hprep).
  apply prepared_fields in Hprep as (F2 & P2 & R2 & X2 & I2).
  unfold try_catch, CreateObject_try. unfold bind at 1. unfold lift_registry at 1.
  change (registry (opened path config w2)) with (registry w2). rewrite R2, Hev.
  unfold bind at 1. unfold lift_registry at 1. simpl registry. rewrite Hco.
  cbv beta iota. change (negb false) with true. change (negb true) with false. cbv iota.
  unfold bind at 1. unfold lift_registry at 1. simpl registry. rewrite Hac.
  cbv beta iota. change (negb false) with true. change (negb true) with false. cbv iota. unfold bind at 1.
  match goal with |- context [report_exceptions env ?what exceptions ?v] =>
    destruct (report_exceptions_runs env what exceptions v) as (w' & E & HE & HD & HK & HR);
    rewrite E end.
  injection HK as HF HP _. simpl in HE, HD, HF, HP, HR.
  eexists. split; [reflexivity|]. simpl.
  rewrite HE, HD, HF, HP, HR, X2, I2, F2, P2. auto 10.
Qed.

Section CreateEnds.

Context (env : Env).

Lemma CreateObject_try_created type fullName expr cookie w fp P o g1 g2 g3 g4
    exceptions newItems :
  is_ConfigType type = true ->
  pending w = fp :: P ->
  Evaluate env expr (registry w) = (Ok tt, g1) ->
  CommitItems env g1 = (Ok (true, exceptions, newItems), g2) ->
  ActivateItems env newItems true false false cookie g2 = (Ok true, g3) ->
  (if is_exempted type then (Ok tt, g3) else UpdateObjectAuthority env g3) = (Ok tt, g4) ->
  objects g4 !! (GetName type, fullName) = Some o ->
  exists w', CreateObject_try env type fullName expr cookie w = (Ok true, w') /\
             files w' = <[af_path fp := (af_data fp, af_mode fp)]> (files w) /\
             List.tl (pending w') = P /\ dirs w' = dirs w /\
             errors w' = errors w /\
             diagnosticInformation w' = diagnosticInformation w /\
             registry w' = g4 /\
             log w' = (log w ++ [created_note type fullName])%list.
Proof.
  intros Hct HP Hev Hco Hac Hau Ho.
  unfold CreateObject_try, bind, lift_registry. rewrite Hev. simpl.
  rewrite Hco. simpl. rewrite Hac. simpl.
  unfold is_exempted in Hau.
  destruct (negb (GetName type =? "Comment") && negb (GetName type =? "Downtime"))%bool;
    simpl in *.
  - unfold lift_registry. simpl. rewrite Hau. rewrite Hct.
    unfold GetObject, gets. simpl. rewrite Ho.
    unfold AtomicFile_Commit, Log, modify. simpl. rewrite HP.
    eexists. split; [reflexivity|]. simpl. rewrite ?HP. auto 10.
  - injection Hau as <-. rewrite Hct.
    unfold GetObject, gets. simpl. rewrite Ho.
    unfold AtomicFile_Commit, Log, modify. simpl. rewrite HP.
    eexists. split; [reflexivity|]. simpl. rewrite ?HP. auto 10.
Qed.

End CreateEnds.

(** X12: when every step succeeds and the re-query finds the object, the
    call returns [true]; the file at the computed path holds the text
    that was passed, with the mode 0644; the pending write is gone, the
    arrays are untouched, and the last entry of the log says that the
    object was created and activated. *)
Theorem CreateObject_creates_file_and_object
    (env : Env) (type : TypeInfo) (fullName config : string) (cookie : Cookie)
    (w w2 : World) (path : string) (expr : Expression) (o : ConfigObject)
    (g1 g2 g3 g4 : Registry) (exceptions : list exn) (newItems : list Key) :
  prepared env type fullName config w path w2 expr ->
  is_ConfigType type = true ->
  Evaluate env expr (registry w) = (Ok tt, g1) ->
  CommitItems env g1 = (Ok (true, exceptions, newItems), g2) ->
  ActivateItems env newItems true false false cookie g2 = (Ok true, g3) ->
  (if is_exempted type then (Ok tt, g3) else UpdateObjectAuthority env g3) = (Ok tt, g4) ->
  objects g4 !! (GetName type, fullName) = Some o ->
  exists w',
    CreateObject env type fullName config cookie w = (Ok true, w') /\
    files w' = <[path := (config, 420)]> (files w) /\
    pending w' = pending w /\
    registry w' = g4 /\
    errors w' = errors w /\ diagnosticInformation w' = diagnosticInformation w /\
    List.last (log w') (LogDebug, "", "") = created_note type fullName.
Proof.
  intros Hprep Hct Hev Hco Hac Hau Ho.
  rewrite (CreateObject_prepared env type fullName config cookie w path w2 expr Hprep).
  apply prepared_fields in Hprep as (F2 & P2 & R2 & X2 & I2).
  assert (Hev' : Evaluate env expr (registry (opened path config w2)) = (Ok tt, g1))
    by (simpl; rewrite R2; exact Hev).
  destruct (CreateObject_try_created env type fullName expr cookie (opened path config w2)
              _ (pending w2) o g1 g2 g3 g4 exceptions newItems Hct eq_refl Hev' Hco Hac Hau Ho)
    as (w5 & E5 & F5 & P5 & D5 & X5 & I5 & R5 & L5).
  unfold try_catch. rewrite E5.
  eexists. split; [reflexivity|]. simpl in *.
  rewrite F5, P5, X5, I5, R5, L5, F2, P2, X2, I2.
  repeat split; try reflexivity. apply last_last.
Qed.

(** X13: what the commit and the activation did is not undone: when the
    update of the authority throws after them, the call returns [false]
    with the diagnostic in [errors], no file is committed, and the
    registry is the one these steps left. *)
Theorem CreateObject_does_not_undo_activation
    (env : Env) (type : TypeInfo) (fullName config : string) (cookie : Cookie)
    (w w2 : World) (path : string) (expr : Expression) (e : exn)
    (g1 g2 g3 g4 : Registry) (exceptions : list exn) (newItems : list Key) :
  prepared env type fullName config w path w2 expr ->
  is_exempted type = false ->
  Evaluate env expr (registry w) = (Ok tt, g1) ->
  CommitItems env g1 = (Ok (true, exceptions, newItems), g2) ->
  ActivateItems env newItems true false false cookie g2 = (Ok true, g3) ->
  UpdateObjectAuthority env g3 = (Throw e, g4) ->
  exists w',
    CreateObject env type fullName config cookie w = (Ok false, w') /\
    registry w' = g4 /\
    files w' = files w /\ pending w' = pending w /\
    errors w' = option_map (fun es => (es ++ [DiagnosticInformation env e false])%list)
                  (errors w).
Proof.
  intros Hprep Hex Hev Hco Hac Hau.
  rewrite (CreateObject_prepared env type fullName config cookie w path w2 expr Hprep).
  apply prepared_fields in Hprep as (F2 & P2 & R2 & X2 & I2).
  unfold try_catch, CreateObject_try. unfold bind at 1. unfold lift_registry at 1.
  change (registry (opened path config w2)) with (registry w2). rewrite R2, Hev.
  unfold bind at 1. unfold lift_registry at 1. simpl registry. rewrite Hco.
  cbv beta iota. change (negb true) with false. cbv iota.
  unfold bind at 1. unfold lift_registry at 1. simpl registry. rewrite Hac.
  cbv beta iota. change (negb true) with false. cbv iota.
  unfold is_exempted in Hex. apply negb_false_iff in Hex. rewrite Hex.
  unfold bind at 1. unfold when. unfold lift_registry at 1. simpl registry. rewrite Hau.
  unfold report_exception, has_errors, has_diagnosticInformation, gets, bind, when,
    errors_Add, diagnosticInformation_Add. simpl.
  rewrite <- X2, <- F2, <- P2.
  destruct (errors w2) as [es|] eqn:He; destruct (diagnosticInformation w2) as [ds|] eqn:Hd;
    repeat (simpl; rewrite ?He, ?Hd);
    eexists; (split; [reflexivity|]); simpl; rewrite ?He, ?Hd; simpl;
    repeat split; reflexivity.
Qed.

(** X14: for the types Comment and Downtime the authority is not updated:
    [CreateObject] does the same whatever [UpdateObjectAuthority] is. *)
Theorem CreateObject_skips_authority_for_exempted
    (env : Env) (f : Registry -> Result unit * Registry)
    (type : TypeInfo) (fullName config : string) (cookie : Cookie) (w : World) :
  GetName type = "Comment" \/ GetName type = "Downtime" ->
  CreateObject (with_UpdateObjectAuthority f env) type fullName config cookie w =
  CreateObject env type fullName config cookie w.
Proof.
  intros Hex.
  assert (Hb : (negb (GetName type =? "Comment") && negb (GetName type =? "Downtime"))%bool
               = false).
  { destruct Hex as [-> | ->]; reflexivity. }
  unfold CreateObject, CreateObject_body, CreateObject_try.
  rewrite Hb. reflexivity.
Qed.


(** ** The steps of a delete *)

Section DeleteSteps.

Context (env : Env).

Lemma standing_other_active (k k' : Key) (X : gset Key) :
  k' <> k -> bool_decide (k ∈ X ∖ {[k']}) = bool_decide (k ∈ X).
Proof.
  intros Hne. apply bool_decide_ext. rewrite elem_of_difference, elem_of_singleton.
  split; [intros [H _]; exact H | intros H; split; [exact H | congruence]].
Qed.

(** The object itself, for a key that is not its own. *)
Lemma frames_standing_self object cookie k :
  key_of object <> k ->
  frames (same (standing k)) (DeleteObjectHelper_self env object cookie).
Proof.
  intros Hne. unfold DeleteObjectHelper_self, Deactivate, Item_Unregister, Object_Unregister.
  assert (Hd : forall w : World,
            standing k (set_registry
              (set_active (active (registry w) ∖ {[key_of object]}) (registry w)) w)
            = standing k w).
  { intros w. unfold standing. simpl. rewrite standing_other_active by exact Hne. reflexivity. }
  assert (Hu : forall w : World,
            standing k (set_registry
              (set_objects (delete (key_of object) (objects (registry w))) (registry w)) w)
            = standing k w).
  { intros w. unfold standing. simpl. rewrite lookup_delete_ne by exact Hne. reflexivity. }
  assert (Hi : forall w : World,
            standing k (set_registry
              (set_items (items (registry w) ∖ {[key_of object]})
                 (set_objects (delete (key_of object) (objects (registry w))) (registry w))) w)
            = standing k w).
  { intros w. unfold standing. simpl. rewrite lookup_delete_ne by exact Hne. reflexivity. }
  repeat first
    [ frames_step
    | apply frames_errors_Add; intros ? ?; reflexivity
    | apply frames_diagnosticInformation_Add; intros ? ?; reflexivity
    | progress unfold report_exception
    | frames_unfold ].
  all: first [apply Hd | apply Hu | apply Hi].
Qed.

End DeleteSteps.

Section DeleteFrames.

Context (env : Env).

Lemma frames_standing_blocked k msg :
  frames (same (standing k))
    (e <- has_errors ;; when e (errors_Add msg) ;; ret false).
Proof. frames_go. Qed.

(** A delete leaves alone the keys that its cascade does not get to. *)
Lemma DeleteObjectHelper_spares fuel cascade cookie k :
  forall object w r w',
    spared (dependencies (registry w)) object k ->
    DeleteObjectHelper env fuel object cascade cookie w = (r, w') ->
    standing k w' = standing k w.
Proof.
  induction fuel as [|fuel IH]; intros object w r w' Hsp H.
  { injection H as _ <-. reflexivity. }
  rewrite DeleteObjectHelper_step in H. simpl in H.
  destruct (negb (is_empty _) && negb cascade)%bool.
  { exact (frames_standing_blocked k _ _ _ _ H). }
  set (recurse := fun parentObj => DeleteObjectHelper env fuel parentObj cascade cookie) in *.
  assert (Hfr : forall p, frames fades (recurse p))
    by (intros p; apply frames_fades_DeleteObjectHelper).
  assert (Hloop : forall ps v s v1,
            dependencies (registry v) = dependencies (registry w) ->
            (forall p, In (ConfigObj p) ps -> In (ConfigObj p)
                         (parents_in (dependencies (registry w)) object)) ->
            DeleteObjectHelper_parents recurse ps v = (s, v1) ->
            standing k v1 = standing k v).
  { induction ps as [|q ps IHps]; intros v s v1 Hv Hps Hl.
    - injection Hl as _ <-. reflexivity.
    - unfold DeleteObjectHelper_parents in Hl. simpl in Hl.
      assert (Hq : forall t v2,
                (match dynamic_pointer_cast q with
                 | Some parentObj => _ <- recurse parentObj;; ret ()
                 | None => ret ()
                 end) v = (t, v2) ->
                fades v v2 /\ standing k v2 = standing k v).
      { intros t v2 E2. destruct q as [p|]; simpl in E2.
        - destruct (recurse p v) as [rp v3] eqn:E3.
          assert (v2 = v3) as ->.
          { unfold bind in E2. rewrite E3 in E2.
            destruct rp; injection E2 as _ <-; reflexivity. }
          split; [exact (Hfr _ _ _ _ E3)|].
          apply (IH p v rp v3); [|exact E3].
          rewrite Hv. intros x Hx. apply Hsp.
          apply (cascades_parent _ object p x); [apply Hps; left; reflexivity | exact Hx].
        - injection E2 as _ <-. split; reflexivity. }
      bind_cases Hl u v2 E2; destruct (Hq _ _ E2) as (F2 & S2); [|exact S2|exact S2].
      fold (DeleteObjectHelper_parents recurse ps) in Hl.
      rewrite <- S2. apply (IHps v2 s v1); [| |exact Hl].
      + destruct F2 as (-> & _). exact Hv.
      + intros p Hp. apply Hps. right. exact Hp. }
  assert (Hself : key_of object <> k) by (apply Hsp; constructor).
  bind_cases H u w1 E1.
  - rewrite <- (Hloop _ w _ w1 eq_refl (fun p Hp => Hp) E1).
    exact (frames_standing_self env object cookie k Hself _ _ _ H).
  - exact (Hloop _ w _ w' eq_refl (fun p Hp => Hp) E1).
  - exact (Hloop _ w _ w' eq_refl (fun p Hp => Hp) E1).
Qed.

End DeleteFrames.

(** X16: a delete leaves alone every object that its cascade does not get
    to: whatever the result, an object under such a key is registered
    after the call as it was before, and activated as it was before. *)
Theorem DeleteObject_spares_other_objects
    (env : Env) (fuel : nat) (object : ConfigObject) (cascade : bool) (cookie : Cookie)
    (w : World) (r : Result bool) (w' : World) (k : Key) :
  DeleteObject env fuel object cascade cookie w = (r, w') ->
  spared (dependencies (registry w)) object k ->
  objects (registry w') !! k = objects (registry w) !! k /\
  (k ∈ active (registry w') <-> k ∈ active (registry w)).
Proof.
  intros H Hsp.
  assert (S : standing k w' = standing k w).
  { unfold DeleteObject in H. destruct (negb (o_package object =? "_api")).
    - exact (frames_standing_blocked k _ _ _ _ H).
    - exact (DeleteObjectHelper_spares env fuel cascade cookie k object w r w' Hsp H). }
  unfold standing in S. injection S as SO SA. split; [exact SO|].
  split; intros Hin.
  - apply (bool_decide_eq_true_2 _) in Hin. rewrite SA in Hin.
    exact (bool_decide_eq_true_1 _ Hin).
  - apply (bool_decide_eq_true_2 _) in Hin. rewrite <- SA in Hin.
    exact (bool_decide_eq_true_1 _ Hin).
Qed.

(** X17: a delete only takes away: whatever the result, no object is
    registered or activated that was not, no file exists that did not,
    the errors of the caller are kept with new ones after them, and the
    dependency graph is not changed. *)
Theorem DeleteObject_only_removes
    (env : Env) (fuel : nat) (object : ConfigObject) (cascade : bool) (cookie : Cookie)
    (w : World) (r : Result bool) (w' : World) :
  DeleteObject env fuel object cascade cookie w = (r, w') ->
  fades w w'.
Proof.
  intros H. unfold DeleteObject in H. destruct (negb (o_package object =? "_api")).
  - assert (F : frames fades
                  (e <- has_errors ;;
                   when e (errors_Add
                     "Object cannot be deleted because it was not created using the API.") ;;
                   ret false)).
    { repeat first [ frames_step | apply frames_fades_errors_Add
                   | progress unfold has_errors ]. }
    exact (F _ _ _ H).
  - exact (frames_fades_DeleteObjectHelper env fuel object cascade cookie _ _ _ H).
Qed.

Section DeleteEnds.

Context (env : Env).

Lemma DeleteObjectHelper_parents_plain (recurse : ConfigObject -> M bool) ps w :
  Forall (fun p => dynamic_pointer_cast p = None) ps ->
  DeleteObjectHelper_parents recurse ps w = (Ok tt, w).
Proof.
  induction 1 as [|q ps Hq _ IH]; [reflexivity|].
  unfold DeleteObjectHelper_parents. simpl. rewrite Hq. exact IH.
Qed.

(** The object itself when nothing throws: the world that results. *)
Lemma DeleteObjectHelper_self_effect object cookie w :
  does_not_throw env object ->
  exists w',
    DeleteObjectHelper_self env object cookie w = (Ok true, w') /\
    objects (registry w') = delete (key_of object) (objects (registry w)) /\
    active (registry w') = active (registry w) ∖ {[key_of object]} /\
    deleted_flag (registry w') = {[key_of object]} ∪ deleted_flag (registry w) /\
    dependencies (registry w') = dependencies (registry w) /\
    files w' = (if String.eqb (o_package object) "_api"
                then delete (o_path object) (files w) else files w) /\
    errors w' = errors w /\ diagnosticInformation w' = diagnosticInformation w.
Proof.
  intros (Hd & Hu).
  unfold DeleteObjectHelper_self, GetByTypeAndName, gets, bind, try_catch,
    SetExtension_ConfigObjectDeleted, Deactivate, Item_Unregister, Object_Unregister,
    modify, when, Remove, Log, GetExistingObjectConfigPath, ret.
  rewrite Hd, Hu. unfold modify. simpl.
  destruct (bool_decide _); simpl;
    destruct (String.eqb (o_package object) "_api"); simpl;
    eexists; (split; [reflexivity|]); simpl; auto 10.
Qed.

(** The object itself when its deactivation throws: flagged, and else as
    it was. *)
Lemma DeleteObjectHelper_self_deactivation_throws object cookie w e :
  Deactivate_error env object = Some e ->
  exists w',
    DeleteObjectHelper_self env object cookie w = (Ok false, w') /\
    objects (registry w') = objects (registry w) /\
    active (registry w') = active (registry w) /\
    deleted_flag (registry w') = {[key_of object]} ∪ deleted_flag (registry w) /\
    files w' = files w.
Proof.
  intros Hd.
  unfold DeleteObjectHelper_self, GetByTypeAndName, gets.
  unfold bind at 1. unfold bind at 1. unfold try_catch.
  unfold bind at 1. unfold SetExtension_ConfigObjectDeleted, modify.
  unfold bind at 1. unfold Deactivate. rewrite Hd. unfold throw.
  unfold bind at 1.
  match goal with |- context [report_exception env e ?v] =>
    destruct (report_exception_runs env e v) as (w' & E & HF & HR & _); rewrite E end.
  simpl. exists w'. split; [reflexivity|]. rewrite HR, HF. simpl. auto.
Qed.

(** The object itself when its deactivation passes and the unregistration
    throws: deactivated, still registered, its file in place. *)
Lemma DeleteObjectHelper_self_unregistration_throws object cookie w e :
  Deactivate_error env object = None ->
  Unregister_error env object = Some e ->
  exists w',
    DeleteObjectHelper_self env object cookie w = (Ok false, w') /\
    objects (registry w') = objects (registry w) /\
    items (registry w') = items (registry w) /\
    active (registry w') = active (registry w) ∖ {[key_of object]} /\
    files w' = files w /\
    (forall es, errors w = Some es ->
                errors w' = Some (es ++ [DiagnosticInformation env e false])%list).
Proof.
  intros Hd Hu.
  unfold DeleteObjectHelper_self, GetByTypeAndName, gets.
  unfold bind at 1. unfold bind at 1. unfold try_catch.
  unfold bind at 1. unfold SetExtension_ConfigObjectDeleted, modify.
  unfold bind at 1. unfold Deactivate. rewrite Hd. unfold modify.
  unfold bind at 1. unfold Item_Unregister, Object_Unregister. rewrite Hu.
  assert (Hthrow : forall v : World,
            (if bool_decide ((GetName (o_type object), o_name object) ∈ items (registry w))
             then @throw unit e else @throw unit e) v = (Throw e, v)).
  { intros v. destruct (bool_decide _); reflexivity. }
  rewrite Hthrow. unfold bind at 1.
  match goal with |- context [report_exception env e ?v] =>
    destruct (report_exception_runs env e v) as (w' & E & HF & HR & HE); rewrite E end.
  simpl. exists w'. split; [reflexivity|]. rewrite HR, HF. simpl.
  repeat split; try reflexivity. intros es Hes. apply HE. exact Hes.
Qed.

(** The loop over the dependents, for a key that none of their cascades
    gets to. *)
Lemma DeleteObjectHelper_parents_spares fuel cascade cookie k ps w s w1 :
  (forall p, In (ConfigObj p) ps -> spared (dependencies (registry w)) p k) ->
  DeleteObjectHelper_parents
    (fun parentObj => DeleteObjectHelper env fuel parentObj cascade cookie) ps w = (s, w1) ->
  standing k w1 = standing k w.
Proof.
  set (recurse := fun parentObj => DeleteObjectHelper env fuel parentObj cascade cookie).
  assert (Hfr : forall p, frames fades (recurse p))
    by (intros p; apply frames_fades_DeleteObjectHelper).
  enough (Hgen : forall v,
            dependencies (registry v) = dependencies (registry w) ->
            (forall p, In (ConfigObj p) ps -> spared (dependencies (registry w)) p k) ->
            DeleteObjectHelper_parents recurse ps v = (s, w1) ->
            standing k w1 = standing k v)
    by (intros Hsp H; exact (Hgen w eq_refl Hsp H)).
  induction ps as [|q ps IHps]; intros v Hv Hsp Hl.
  - injection Hl as _ <-. reflexivity.
  - unfold DeleteObjectHelper_parents in Hl. simpl in Hl.
    assert (Hq : forall t v2,
              (match dynamic_pointer_cast q with
               | Some parentObj => _ <- recurse parentObj;; ret ()
               | None => ret ()
               end) v = (t, v2) ->
              fades v v2 /\ standing k v2 = standing k v).
    { intros t v2 E2. destruct q as [p|]; simpl in E2.
      - destruct (recurse p v) as [rp v3] eqn:E3.
        assert (v2 = v3) as ->.
        { unfold bind in E2. rewrite E3 in E2.
          destruct rp; injection E2 as _ <-; reflexivity. }
        split; [exact (Hfr _ _ _ _ E3)|].
        apply (DeleteObjectHelper_spares env fuel cascade cookie k p v rp v3); [|exact E3].
        rewrite Hv. apply Hsp. left. reflexivity.
      - injection E2 as _ <-. split; reflexivity. }
    bind_cases Hl u v2 E2; destruct (Hq _ _ E2) as (F2 & S2); [|exact S2|exact S2].
    fold (DeleteObjectHelper_parents recurse ps) in Hl.
    rewrite <- S2. apply (IHps v2); [| |exact Hl].
    + destruct F2 as (-> & _). exact Hv.
    + intros p Hp. apply Hsp. right. exact Hp.
Qed.

Lemma cascades_rank (rank : Key -> nat) deps p x :
  ranked rank deps -> cascades deps p x -> (rank (key_of x) <= rank (key_of p))%nat.
Proof.
  intros Hrk. induction 1 as [o | o q x Hin Hc IH]; [lia|].
  specialize (Hrk o q Hin). lia.
Qed.

End DeleteEnds.

(** X18: for an object none of whose dependents is a config object, and
    whose methods do not throw, a cascading delete returns [true] and does
    exactly this: the object is no more registered nor activated, it
    carries the flag of the deleted objects, its file is removed if its
    package is [_api]; all other objects, the errors and the dependency
    graph are as before. Without any dependent the delete without cascade
    does the same. *)
Theorem DeleteObjectHelper_without_config_dependents
    (env : Env) (fuel : nat) (object : ConfigObject) (cookie : Cookie) (w : World) :
  Forall (fun p => dynamic_pointer_cast p = None)
    (parents_in (dependencies (registry w)) object) ->
  does_not_throw env object ->
  exists w',
    DeleteObjectHelper env (S fuel) object true cookie w = (Ok true, w') /\
    (parents_in (dependencies (registry w)) object = [] ->
     DeleteObjectHelper env (S fuel) object false cookie w = (Ok true, w')) /\
    objects (registry w') = delete (key_of object) (objects (registry w)) /\
    active (registry w') = active (registry w) ∖ {[key_of object]} /\
    deleted_flag (registry w') = {[key_of object]} ∪ deleted_flag (registry w) /\
    dependencies (registry w') = dependencies (registry w) /\
    files w' = (if String.eqb (o_package object) "_api"
                then delete (o_path object) (files w) else files w) /\
    errors w' = errors w /\ diagnosticInformation w' = diagnosticInformation w.
Proof.
  intros Hplain Hnt.
  destruct (DeleteObjectHelper_self_effect env object cookie w Hnt) as (w' & E & Heff).
  exists w'. split; [|split; [|exact Heff]].
  - rewrite DeleteObjectHelper_step. simpl. rewrite andb_false_r.
    unfold bind. rewrite (DeleteObjectHelper_parents_plain _ _ w Hplain). exact E.
  - intros Hnone. rewrite DeleteObjectHelper_step. simpl. rewrite Hnone. simpl.
    exact E.
Qed.

(** X19: there is no rollback across a cascade: when the deactivation of
    the target throws, the call returns [false] and the target is
    registered and activated as it was, now with the flag of the deleted
    objects, while every dependent the cascade got to whose methods do not
    throw is deactivated and unregistered. *)
Theorem DeleteObjectHelper_failed_target_keeps_standing
    (env : Env) (rank : Key -> nat) (fuel : nat) (object : ConfigObject)
    (cookie : Cookie) (w : World) (e : exn) :
  ranked rank (dependencies (registry w)) ->
  (rank (key_of object) < fuel)%nat ->
  Deactivate_error env object = Some e ->
  exists w',
    DeleteObjectHelper env fuel object true cookie w = (Ok false, w') /\
    objects (registry w') !! key_of object = objects (registry w) !! key_of object /\
    (key_of object ∈ active (registry w') <-> key_of object ∈ active (registry w)) /\
    key_of object ∈ deleted_flag (registry w') /\
    forall x, cascades (dependencies (registry w)) object x ->
              does_not_throw env x -> gone x w'.
Proof.
  intros Hrk Hlt Hd.
  destruct (DeleteObjectHelper_dependent_fails env rank fuel object cookie w e Hrk Hlt Hd)
    as (w' & E & _).
  exists w'. split; [exact E|].
  assert (G : forall x, cascades (dependencies (registry w)) object x ->
                        does_not_throw env x -> gone x w').
  { intros x Hx Hnt.
    exact (DeleteObjectHelper_gone env rank fuel cookie object w _ w' Hrk Hlt E x Hx Hnt). }
  destruct fuel as [|fuel]; [lia|].
  rewrite DeleteObjectHelper_step in E. simpl in E. rewrite andb_false_r in E.
  bind_cases E u w1 E1; [| discriminate E | discriminate E].
  assert (S1 : standing (key_of object) w1 = standing (key_of object) w).
  { apply (DeleteObjectHelper_parents_spares env fuel true cookie (key_of object)
             (parents_in (dependencies (registry w)) object) w (Ok u) w1); [|exact E1].
    intros p Hp x Hx Heq.
    pose proof (cascades_rank rank _ p x Hrk Hx) as H1.
    specialize (Hrk object p Hp). rewrite Heq in H1. lia. }
  destruct (DeleteObjectHelper_self_deactivation_throws env object cookie w1 e Hd)
    as (w2 & E2 & HO & HA & HF & _).
  rewrite E2 in E. injection E as <-.
  unfold standing in S1. injection S1 as SO SA.
  split; [rewrite HO; exact SO|]. split; [|split; [|exact G]].
  - rewrite HA. split; intros Hin.
    + apply (bool_decide_eq_true_2 _) in Hin. rewrite SA in Hin.
      exact (bool_decide_eq_true_1 _ Hin).
    + apply (bool_decide_eq_true_2 _) in Hin. rewrite <- SA in Hin.
      exact (bool_decide_eq_true_1 _ Hin).
  - rewrite HF. apply elem_of_union. left. apply elem_of_singleton. reflexivity.
Qed.

(** X20: when the deactivation of an object passes and its unregistration
    throws, the delete returns [false] and leaves the object deactivated
    and still registered, with its item and its file; the diagnostic is
    added to the errors. (Stated for an object without config dependents.) *)
Theorem DeleteObjectHelper_failed_unregistration
    (env : Env) (fuel : nat) (object : ConfigObject) (cookie : Cookie) (w : World) (e : exn) :
  Forall (fun p => dynamic_pointer_cast p = None)
    (parents_in (dependencies (registry w)) object) ->
  Deactivate_error env object = None ->
  Unregister_error env object = Some e ->
  exists w',
    DeleteObjectHelper env (S fuel) object true cookie w = (Ok false, w') /\
    objects (registry w') = objects (registry w) /\
    items (registry w') = items (registry w) /\
    active (registry w') = active (registry w) ∖ {[key_of object]} /\
    files w' = files w /\
    (forall es, errors w = Some es ->
                errors w' = Some (es ++ [DiagnosticInformation env e false])%list).
Proof.
  intros Hplain Hd Hu.
  destruct (DeleteObjectHelper_self_unregistration_throws env object cookie w e Hd Hu)
    as (w' & E & Heff).
  exists w'. split; [|exact Heff].
  rewrite DeleteObjectHelper_step. simpl. rewrite andb_false_r.
  unfold bind. rewrite (DeleteObjectHelper_parents_plain _ _ w Hplain). exact E.
Qed.

(** ** The statements on the sample *)

Import Sample.


(** C1 (counterexample): two calls that return [false]. In the first a
    file was at the path before the call and the commit of the item
    fails: the file is at the path afterwards. In the second the object is
    made and activated and the update of the authority throws: the object
    is registered afterwards. *)
Lemma CreateObject_failure_with_file_and_with_object :
  (objects (registry orphaned) !! ("Host", "h1") = None /\
   fst (ComputeNewObjectConfigPath rejecting Host "h1" orphaned) = Ok (host_path "h1") /\
   fst (CreateObject rejecting Host "h1" h1_config Empty orphaned) = Ok false /\
   files (snd (CreateObject rejecting Host "h1" h1_config Empty orphaned)) !! host_path "h1"
   = Some ("object Host 'h1' { address = '::1' }", 420)) /\
  (objects (registry fresh) !! ("Host", "h1") = None /\
   fst (CreateObject (interrupted (host "h1")) Host "h1" h1_config Empty fresh) = Ok false /\
   objects (registry (snd (CreateObject (interrupted (host "h1")) Host "h1" h1_config
                             Empty fresh))) !! ("Host", "h1") = Some (host "h1")).
Proof. vm_compute. repeat split; reflexivity. Qed.

Lemma CreateObject_failure_keeps_files_witness :
  CreateObject rejecting Host "h1" h1_config Empty orphaned
  = (Ok false, snd (CreateObject rejecting Host "h1" h1_config Empty orphaned)) /\
  ((Ok false <> Ok true ->
    files (snd (CreateObject rejecting Host "h1" h1_config Empty orphaned)) = files orphaned) /\
   ((forall y, Ok false <> Abort y) ->
    pending (snd (CreateObject rejecting Host "h1" h1_config Empty orphaned)) = pending orphaned /\
    temp_files (snd (CreateObject rejecting Host "h1" h1_config Empty orphaned))
    = temp_files orphaned) /\
   (files (snd (CreateObject rejecting Host "h1" h1_config Empty orphaned)) <> files orphaned ->
    Ok false = Ok true /\
    is_Some (objects (registry (snd (CreateObject rejecting Host "h1" h1_config Empty orphaned)))
               !! (GetName Host, "h1"))) /\
   (~ reaches_try rejecting Host "h1" h1_config orphaned ->
    registry (snd (CreateObject rejecting Host "h1" h1_config Empty orphaned))
    = registry orphaned)).
Proof.
  assert (E : CreateObject rejecting Host "h1" h1_config Empty orphaned
              = (Ok false, snd (CreateObject rejecting Host "h1" h1_config Empty orphaned)))
    by (vm_compute; reflexivity).
  split; [exact E|].
  exact (CreateObject_failure_keeps_files rejecting Host "h1" h1_config Empty orphaned
           (Ok false) _ E).
Defined.

(** C8 (counterexample): the file of a host that was created has the mode
    0644; the bits of the group and of others (077 = 63) are not all
    clear: the file is readable by everyone. *)
Lemma CreateObject_file_is_world_readable :
  fst (CreateObject (creating (host "h1")) Host "h1" h1_config Empty fresh) = Ok true /\
  files (snd (CreateObject (creating (host "h1")) Host "h1" h1_config Empty fresh))
    !! host_path "h1" = Some (h1_config, 420) /\
  Z.land 420 63 <> 0 /\ Z.testbit 420 2 = true /\ Z.testbit 420 5 = true.
Proof. vm_compute. repeat split; try reflexivity. discriminate. Qed.

Lemma CreateObject_modes_witness :
  CreateObject (creating (host "h1")) Host "h1" h1_config Empty fresh
  = (Ok true, snd (CreateObject (creating (host "h1")) Host "h1" h1_config Empty fresh)) /\
  ((forall p data mode,
      files (snd (CreateObject (creating (host "h1")) Host "h1" h1_config Empty fresh)) !! p
      = Some (data, mode) ->
      files fresh !! p = Some (data, mode) \/ (data = h1_config /\ mode = 420)) /\
   (forall d m,
      dirs (snd (CreateObject (creating (host "h1")) Host "h1" h1_config Empty fresh)) !! d
      = Some m ->
      dirs fresh !! d = Some m \/ m = 448)).
Proof.
  assert (E : CreateObject (creating (host "h1")) Host "h1" h1_config Empty fresh
              = (Ok true, snd (CreateObject (creating (host "h1")) Host "h1" h1_config
                                 Empty fresh)))
    by (vm_compute; reflexivity).
  split; [exact E|].
  exact (CreateObject_modes (creating (host "h1")) Host "h1" h1_config Empty fresh
           (Ok true) _ E).
Defined.

Lemma CreateObject_already_exists_witness :
  (is_ConfigType Host = true /\
   objects (registry with_h1) !! (GetName Host, "h1") = Some (host "h1") /\
   errors with_h1 = Some []) /\
  CreateObject rejecting Host "h1" h1_config Empty with_h1 =
    (Ok false,
     set_errors (Some ([] ++ ["Object '" +:+ "h1" +:+ "' already exists."])%list)
       (snd (CreateStorage rejecting with_h1))) /\
  files (snd (CreateStorage rejecting with_h1)) = files with_h1 /\
  dirs (snd (CreateStorage rejecting with_h1)) = dirs with_h1 /\
  pending (snd (CreateStorage rejecting with_h1)) = pending with_h1 /\
  ("_api" ∈ packages with_h1 -> snd (CreateStorage rejecting with_h1) = with_h1).
Proof.
  assert (H1 : is_ConfigType Host = true) by reflexivity.
  assert (H2 : objects (registry with_h1) !! (GetName Host, "h1") = Some (host "h1"))
    by (vm_compute; reflexivity).
  assert (H3 : errors with_h1 = Some []) by reflexivity.
  split; [auto|].
  exact (CreateObject_already_exists rejecting Host "h1" h1_config Empty with_h1
           (host "h1") [] H1 H2 H3).
Defined.

Lemma CreateObjectConfig_rejects_invalid_key_witness :
  (In ("last_check", VNumber 0) [("address", VString "::1"); ("last_check", VNumber 0)] /\
   unacceptable rejecting Host "last_check") /\
  exists e,
    CreateObjectConfig rejecting Host "h1" false None
      (Some [("address", VString "::1"); ("last_check", VNumber 0)]) fresh = (Throw e, fresh) /\
    ((forall ParseName, name_composer Host = Some ParseName ->
                        exists d, ParseName "h1" = inr d) ->
     exists msg, e = ScriptError msg).
Proof.
  assert (H1 : In ("last_check", VNumber 0)
                 [("address", VString "::1"); ("last_check", VNumber 0)])
    by (simpl; auto).
  assert (H2 : unacceptable rejecting Host "last_check").
  { right. left. exists {| f_Name := "last_check"; f_Attributes := 4 |}.
    split; reflexivity. }
  split; [auto|].
  exact (CreateObjectConfig_rejects_invalid_key rejecting Host "h1" false None _ fresh
           "last_check" (VNumber 0) H1 H2).
Defined.

Lemma CreateObject_ignored_object_witness :
  exists w',
    CreateObject ignoring Host "h1" h1_config Empty fresh = (Ok true, w') /\
    files w' = files fresh /\ pending w' = pending fresh /\
    temp_files w' = temp_files fresh /\
    errors w' = errors fresh /\ diagnosticInformation w' = diagnosticInformation fresh /\
    registry w' = no_objects /\
    List.last (log w') (LogDebug, "", "") = ignored_note "h1".
Proof.
  apply (CreateObject_ignored_object ignoring Host "h1" h1_config Empty fresh fresh
           (host_path "h1") {| expr_path := host_path "h1"; expr_text := h1_config |}
           no_objects no_objects no_objects no_objects [] []);
    reflexivity.
Defined.

Lemma with_services_ranked : ranked rank (dependencies (registry with_services)).
Proof.
  intros o p Hin. unfold parents_in in Hin. simpl in Hin.
  destruct (decide (key_of o = ("Host", "h1"))) as [Heq | Hne].
  - rewrite Heq in *. rewrite lookup_singleton_eq in Hin. simpl in Hin.
    destruct Hin as [[= <-] | [[= <-] | []]]; unfold rank; simpl; lia.
  - rewrite lookup_singleton_ne in Hin by (intros Hx; apply Hne; symmetry; exact Hx).
    destruct Hin.
Qed.


Lemma DeleteObjectHelper_refuses_without_cascade_witness :
  parents_in (dependencies (registry with_services)) (host "h1") <> [] /\
  DeleteObjectHelper deleting 1 (host "h1") false Empty with_services =
    (Ok false, add_error (refusal_note "h1" "Host") with_services) /\
  names (refusal_note "h1" "Host") "h1" "Host" /\
  (forall es, errors with_services = Some es ->
     errors (add_error (refusal_note "h1" "Host") with_services) =
     Some (es ++ [refusal_note "h1" "Host"])%list) /\
  registry (add_error (refusal_note "h1" "Host") with_services) = registry with_services /\
  files (add_error (refusal_note "h1" "Host") with_services) = files with_services /\
  (o_package (host "h1") = "_api" ->
   DeleteObject deleting 1 (host "h1") false Empty with_services =
     (Ok false, add_error (refusal_note "h1" "Host") with_services)).
Proof.
  assert (H : parents_in (dependencies (registry with_services)) (host "h1") <> [])
    by (vm_compute; discriminate).
  split; [exact H|].
  exact (DeleteObjectHelper_refuses_without_cascade deleting 0 (host "h1") Empty
           with_services H).
Defined.


Lemma DeleteObject_checks_package_of_root_only_witness :
  (forall cascade, DeleteObject deleting 2 load cascade Empty with_services =
                   (Ok false, add_error OwnershipError with_services)) /\
  exists b w',
    DeleteObject deleting 2 (host "h1") true Empty with_services = (Ok b, w') /\
    (forall x, cascades (dependencies (registry with_services)) (host "h1") x ->
               does_not_throw deleting x -> gone x w') /\
    removes_only (host "h1") with_services w'.
Proof.
  apply (DeleteObject_checks_package_of_root_only deleting rank 2 (host "h1") load Empty
           with_services).
  - simpl. discriminate.
  - reflexivity.
  - exact with_services_ranked.
  - vm_compute. lia.
Defined.

(** The cascade on the sample: the dependent whose deactivation throws
    stays, the error list is not empty, and the call returns [true]; the
    service of the other package is unregistered and keeps its file. *)
Example cascade_on_sample :
  fst (DeleteObjectHelper failing 2 (host "h1") true Empty with_services) = Ok true /\
  errors (snd (DeleteObjectHelper failing 2 (host "h1") true Empty with_services))
  = Some ["Cannot stop the check."] /\
  objects (registry (snd (DeleteObjectHelper failing 2 (host "h1") true Empty with_services)))
    !! key_of ping = Some ping /\
  objects (registry (snd (DeleteObjectHelper failing 2 (host "h1") true Empty with_services)))
    !! key_of load = None /\
  is_Some (files (snd (DeleteObjectHelper failing 2 (host "h1") true Empty with_services))
             !! o_path load) /\
  files (snd (DeleteObjectHelper failing 2 (host "h1") true Empty with_services))
    !! o_path (host "h1") = None.
Proof. vm_compute. repeat split; eauto. Qed.

Lemma CreateObjectConfig_stamps_version_and_strips_name_witness :
  exists allAttrs,
    CreateObjectConfig rejecting Service "h1!ping" false None (Some ping_attrs) fresh =
    (Ok (EmitConfigItem rejecting (GetName Service)
           (rendered_name rejecting
              (Some [("host_name", VString "h1"); ("name", VString "ping")]) "h1!ping")
           false false None allAttrs +:+ Str.newline), fresh) /\
    Dictionary_Get "version" allAttrs = VNumber (now fresh) /\
    ~ In "name" (List.map fst allAttrs).
Proof.
  apply (CreateObjectConfig_stamps_version_and_strips_name rejecting Service "h1!ping"
           false None (Some ping_attrs)
           (Some [("host_name", VString "h1"); ("name", VString "ping")]) fresh).
  - intros k v [[= <- <-] | [[= <- <-] | []]].
    + exists {| f_Name := "check_command"; f_Attributes := 2 |}.
      split; [reflexivity | split; discriminate].
    + exists {| f_Name := "host_name"; f_Attributes := 2 |}.
      split; [reflexivity | split; discriminate].
  - reflexivity.
Defined.

Lemma CreateObjectConfig_name_parts_override_witness :
  exists allAttrs,
    CreateObjectConfig rejecting Service "h1!ping" false None (Some ping_attrs) fresh =
    (Ok (EmitConfigItem rejecting (GetName Service)
           (rendered_name rejecting
              (Some [("host_name", VString "h1"); ("name", VString "ping")]) "h1!ping")
           false false None allAttrs +:+ Str.newline), fresh) /\
    forall k, k <> "name" -> k <> "version" ->
      Dictionary_Get k allAttrs =
      match last_value k (default [] (Some [("host_name", VString "h1");
                                            ("name", VString "ping")])) with
      | Some v => v
      | None => default Empty (last_value k (default [] (Some ping_attrs)))
      end.
Proof.
  apply (CreateObjectConfig_name_parts_override rejecting Service "h1!ping"
           false None (Some ping_attrs)
           (Some [("host_name", VString "h1"); ("name", VString "ping")]) fresh).
  - intros k v [[= <- <-] | [[= <- <-] | []]].
    + exists {| f_Name := "check_command"; f_Attributes := 2 |}.
      split; [reflexivity | split; discriminate].
    + exists {| f_Name := "host_name"; f_Attributes := 2 |}.
      split; [reflexivity | split; discriminate].
  - reflexivity.
Defined.

Lemma RepairPackage_adopts_first_directory_witness :
  RepairPackage rejecting "_api" unstaged =
  (Ok tt, set_active_stages (<["_api" := stem stage_dir]> (active_stages unstaged))
            (set_log (log unstaged ++ [repaired_note "_api" (stem stage_dir)])%list unstaged)).
Proof.
  apply (RepairPackage_adopts_first_directory rejecting "_api" unstaged
           [("/var/lib/icinga2/api/packages/_api/include.conf", false)] [] stage_dir).
  - reflexivity.
  - repeat constructor.
  - vm_compute. discriminate.
Defined.

Lemma RepairPackage_fails_without_stage_witness :
  RepairPackage rejecting "_api" unrepairable =
  (Throw (RepairPackage_error "_api"), unrepairable).
Proof.
  apply (RepairPackage_fails_without_stage rejecting "_api" unrepairable
           [("/var/lib/icinga2/api/packages/_api/include.conf", false)] []).
  - reflexivity.
  - repeat constructor.
  - left. reflexivity.
Defined.

Lemma ComputeNewObjectConfigPath_after_repair_witness :
  exists w1,
    ComputeNewObjectConfigPath rejecting Host "h1" unstaged =
      (Ok (config_path rejecting "" Host
             (if is_exempted Host then TruncateUsingHash rejecting 123 (EscapeName rejecting "h1")
              else EscapeName rejecting "h1")), w1) /\
    ComputeNewObjectConfigPath rejecting Host "h1" w1 =
      (Ok (config_path rejecting "stage1" Host
             (if is_exempted Host then TruncateUsingHash rejecting 123 (EscapeName rejecting "h1")
              else EscapeName rejecting "h1")), w1).
Proof.
  apply (ComputeNewObjectConfigPath_after_repair rejecting Host "h1" unstaged "stage1").
  - reflexivity.
  - vm_compute. reflexivity.
  - discriminate.
Defined.

Lemma CreateObject_reports_broken_package_witness :
  CreateObject rejecting Host "h1" h1_config Empty unrepairable =
  (Ok false,
   set_errors (Some ([] ++ ["Config package broken: " +:+
                            DiagnosticInformation rejecting (RepairPackage_error "_api") false])%list)
     unrepairable).
Proof.
  apply (CreateObject_reports_broken_package rejecting Host "h1" h1_config Empty
           unrepairable []).
  - vm_compute. reflexivity.
  - reflexivity.
  - vm_compute. reflexivity.
  - reflexivity.
  - reflexivity.
Defined.

Lemma fresh_prepared (env : Env) :
  PackageDir env = PackageDir rejecting ->
  EscapeString env = EscapeString rejecting ->
  AtomicFile_open_error env (host_path "h1") = None ->
  AtomicFile_flush_error env (host_path "h1") h1_config = None ->
  forall expr, CompileText env (host_path "h1") h1_config "" "_api" = inr expr ->
  prepared env Host "h1" h1_config fresh (host_path "h1") fresh expr.
Proof.
  intros Hd He Ho Hf expr Hc. unfold prepared.
  split; [reflexivity|]. split; [|auto].
  rewrite (CreateStorage_with_package env fresh) by (vm_compute; reflexivity).
  simpl. rewrite (ComputeNewObjectConfigPath_layout env Host "h1" fresh "stage1")
    by (reflexivity || discriminate).
  unfold config_path, EscapeName. rewrite Hd, He. reflexivity.
Qed.

Lemma CreateObject_propagates_early_exceptions_witness :
  exists w',
    CreateObject not_compiling Host "h1" h1_config Empty fresh
    = (Throw (ScriptError "syntax error"), w') /\
    errors w' = errors fresh /\ diagnosticInformation w' = diagnosticInformation fresh /\
    files w' = files fresh /\ pending w' = pending fresh /\ registry w' = registry fresh.
Proof.
  apply (CreateObject_propagates_early_exceptions not_compiling Host "h1" h1_config Empty
           fresh fresh (host_path "h1")).
  - reflexivity.
  - vm_compute. reflexivity.
  - right. right. repeat split; reflexivity.
Defined.

Lemma CreateObject_catches_evaluation_error_witness :
  exists w',
    CreateObject not_evaluating Host "h1" h1_config Empty fresh = (Ok false, w') /\
    errors w' = option_map
                  (fun es => (es ++ [DiagnosticInformation not_evaluating
                                       (ScriptError "Error while evaluating expression.")
                                       false])%list)
                  (errors fresh) /\
    diagnosticInformation w' =
      option_map
        (fun ds => (ds ++ [DiagnosticInformation not_evaluating
                             (ScriptError "Error while evaluating expression.") true])%list)
        (diagnosticInformation fresh) /\
    files w' = files fresh /\ pending w' = pending fresh /\ registry w' = no_objects.
Proof.
  apply (CreateObject_catches_evaluation_error not_evaluating Host "h1" h1_config Empty
           fresh fresh (host_path "h1")
           {| expr_path := host_path "h1"; expr_text := h1_config |}).
  - apply fresh_prepared; reflexivity.
  - reflexivity.
Defined.

Lemma CreateObject_reports_commit_failure_witness :
  exists w',
    CreateObject rejecting Host "h1" h1_config Empty fresh = (Ok false, w') /\
    errors w' = option_map
                  (fun es => (es ++ diagnostics rejecting false
                                      [ScriptError "Validation failed."])%list)
                  (errors fresh) /\
    diagnosticInformation w' =
      (if not_null (errors fresh)
       then option_map
              (fun ds => (ds ++ diagnostics rejecting true
                                  [ScriptError "Validation failed."])%list)
              (diagnosticInformation fresh)
       else diagnosticInformation fresh) /\
    files w' = files fresh /\ pending w' = pending fresh /\ registry w' = no_objects.
Proof.
  apply (CreateObject_reports_commit_failure rejecting Host "h1" h1_config Empty
           fresh fresh (host_path "h1")
           {| expr_path := host_path "h1"; expr_text := h1_config |}
           no_objects no_objects [ScriptError "Validation failed."] []).
  - apply fresh_prepared; reflexivity.
  - reflexivity.
  - reflexivity.
Defined.

Lemma CreateObject_reports_activation_failure_witness :
  exists w',
    CreateObject (not_activating (host "h1")) Host "h1" h1_config Empty fresh
    = (Ok false, w') /\
    errors w' = option_map
                  (fun es => (es ++ diagnostics (not_activating (host "h1")) false [])%list)
                  (errors fresh) /\
    diagnosticInformation w' =
      (if not_null (errors fresh)
       then option_map
              (fun ds => (ds ++ diagnostics (not_activating (host "h1")) true [])%list)
              (diagnosticInformation fresh)
       else diagnosticInformation fresh) /\
    files w' = files fresh /\ pending w' = pending fresh /\
    registry w' = register (host "h1") no_objects.
Proof.
  apply (CreateObject_reports_activation_failure (not_activating (host "h1")) Host "h1"
           h1_config Empty fresh fresh (host_path "h1")
           {| expr_path := host_path "h1"; expr_text := h1_config |}
           no_objects (register (host "h1") no_objects) (register (host "h1") no_objects)
           [] [key_of (host "h1")]).
  - apply fresh_prepared; reflexivity.
  - reflexivity.
  - reflexivity.
  - reflexivity.
Defined.

Lemma CreateObject_creates_file_and_object_witness :
  exists w',
    CreateObject (creating (host "h1")) Host "h1" h1_config Empty fresh = (Ok true, w') /\
    files w' = <[host_path "h1" := (h1_config, 420)]> (files fresh) /\
    pending w' = pending fresh /\
    registry w' = activate (host "h1") (register (host "h1") no_objects) /\
    errors w' = errors fresh /\ diagnosticInformation w' = diagnosticInformation fresh /\
    List.last (log w') (LogDebug, "", "") = created_note Host "h1".
Proof.
  apply (CreateObject_creates_file_and_object (creating (host "h1")) Host "h1" h1_config
           Empty fresh fresh (host_path "h1")
           {| expr_path := host_path "h1"; expr_text := h1_config |} (host "h1")
           no_objects (register (host "h1") no_objects)
           (activate (host "h1") (register (host "h1") no_objects))
           (activate (host "h1") (register (host "h1") no_objects))
           [] [key_of (host "h1")]).
  - apply fresh_prepared; reflexivity.
  - reflexivity.
  - reflexivity.
  - reflexivity.
  - vm_compute. reflexivity.
  - reflexivity.
  - vm_compute. reflexivity.
Defined.

Lemma CreateObject_does_not_undo_activation_witness :
  exists w',
    CreateObject (interrupted (host "h1")) Host "h1" h1_config Empty fresh = (Ok false, w') /\
    registry w' = activate (host "h1") (register (host "h1") no_objects) /\
    files w' = files fresh /\ pending w' = pending fresh /\
    errors w' = option_map
                  (fun es => (es ++ [DiagnosticInformation (interrupted (host "h1"))
                                       (std_exception "Cannot update the object authority.")
                                       false])%list)
                  (errors fresh).
Proof.
  apply (CreateObject_does_not_undo_activation (interrupted (host "h1")) Host "h1" h1_config
           Empty fresh fresh (host_path "h1")
           {| expr_path := host_path "h1"; expr_text := h1_config |}
           (std_exception "Cannot update the object authority.")
           no_objects (register (host "h1") no_objects)
           (activate (host "h1") (register (host "h1") no_objects))
           (activate (host "h1") (register (host "h1") no_objects))
           [] [key_of (host "h1")]).
  - apply fresh_prepared; reflexivity.
  - reflexivity.
  - reflexivity.
  - reflexivity.
  - vm_compute. reflexivity.
  - reflexivity.
Defined.

Lemma CreateObject_skips_authority_for_exempted_witness :
  CreateObject (with_UpdateObjectAuthority authority_throws (creating (host "h1")))
    Downtime "h1!dt" h1_config Empty fresh =
  CreateObject (creating (host "h1")) Downtime "h1!dt" h1_config Empty fresh.
Proof.
  apply (CreateObject_skips_authority_for_exempted (creating (host "h1")) authority_throws
           Downtime "h1!dt" h1_config Empty fresh).
  right. reflexivity.
Defined.


Lemma ping_without_dependents :
  parents_in (dependencies (registry with_services)) ping = [].
Proof. vm_compute. reflexivity. Qed.

Lemma DeleteObject_spares_other_objects_witness :
  objects (registry (snd (DeleteObject deleting 1 ping true Empty with_services)))
    !! key_of (host "h1") = objects (registry with_services) !! key_of (host "h1") /\
  (key_of (host "h1") ∈
     active (registry (snd (DeleteObject deleting 1 ping true Empty with_services))) <->
   key_of (host "h1") ∈ active (registry with_services)).
Proof.
  apply (DeleteObject_spares_other_objects deleting 1 ping true Empty with_services
           (fst (DeleteObject deleting 1 ping true Empty with_services))
           (snd (DeleteObject deleting 1 ping true Empty with_services))
           (key_of (host "h1"))).
  - apply surjective_pairing.
  - intros x Hx. inversion Hx as [o | o p y Hin Hc]; subst.
    + discriminate.
    + rewrite ping_without_dependents in Hin. destruct Hin.
Defined.

Lemma DeleteObject_only_removes_witness :
  fades with_services (snd (DeleteObject failing 2 (host "h1") true Empty with_services)).
Proof.
  apply (DeleteObject_only_removes failing 2 (host "h1") true Empty with_services
           (fst (DeleteObject failing 2 (host "h1") true Empty with_services))).
  apply surjective_pairing.
Defined.

Lemma DeleteObjectHelper_without_config_dependents_witness :
  exists w',
    DeleteObjectHelper deleting 1 ping true Empty with_services = (Ok true, w') /\
    (parents_in (dependencies (registry with_services)) ping = [] ->
     DeleteObjectHelper deleting 1 ping false Empty with_services = (Ok true, w')) /\
    objects (registry w') = delete (key_of ping) (objects (registry with_services)) /\
    active (registry w') = active (registry with_services) ∖ {[key_of ping]} /\
    deleted_flag (registry w') = {[key_of ping]} ∪ deleted_flag (registry with_services) /\
    dependencies (registry w') = dependencies (registry with_services) /\
    files w' = (if String.eqb (o_package ping) "_api"
                then delete (o_path ping) (files with_services) else files with_services) /\
    errors w' = errors with_services /\
    diagnosticInformation w' = diagnosticInformation with_services.
Proof.
  apply (DeleteObjectHelper_without_config_dependents deleting 0 ping Empty with_services).
  - rewrite ping_without_dependents. constructor.
  - split; reflexivity.
Defined.

Lemma DeleteObjectHelper_failed_target_keeps_standing_witness :
  exists w',
    DeleteObjectHelper failing_host 2 (host "h1") true Empty with_services = (Ok false, w') /\
    objects (registry w') !! key_of (host "h1") =
      objects (registry with_services) !! key_of (host "h1") /\
    (key_of (host "h1") ∈ active (registry w') <->
     key_of (host "h1") ∈ active (registry with_services)) /\
    key_of (host "h1") ∈ deleted_flag (registry w') /\
    forall x, cascades (dependencies (registry with_services)) (host "h1") x ->
              does_not_throw failing_host x -> gone x w'.
Proof.
  apply (DeleteObjectHelper_failed_target_keeps_standing failing_host rank 2 (host "h1")
           Empty with_services (std_exception "Cannot stop the host.")
           with_services_ranked).
  - vm_compute. lia.
  - reflexivity.
Defined.

Lemma DeleteObjectHelper_failed_unregistration_witness :
  exists w',
    DeleteObjectHelper not_unregistering 1 ping true Empty with_services = (Ok false, w') /\
    objects (registry w') = objects (registry with_services) /\
    items (registry w') = items (registry with_services) /\
    active (registry w') = active (registry with_services) ∖ {[key_of ping]} /\
    files w' = files with_services /\
    (forall es, errors with_services = Some es ->
                errors w' = Some (es ++ [DiagnosticInformation not_unregistering
                                           (std_exception "Cannot unregister.") false])%list).
Proof.
  apply (DeleteObjectHelper_failed_unregistration not_unregistering 0 ping Empty
           with_services (std_exception "Cannot unregister.")).
  - rewrite ping_without_dependents. constructor.
  - reflexivity.
  - reflexivity.
Defined.

Lemma CreateStorage_idempotent_witness :
  exists w1,
    CreateStorage rejecting bare = (Ok tt, w1) /\
    ("_api" ∈ packages bare -> w1 = bare) /\
    ("_api" ∉ packages bare ->
     w1 = set_active_stages (<["_api" := "stage1"]> (active_stages (with_new_package bare)))
            (with_new_package bare) /\
     active_stages w1 !! "_api" = Some "stage1" /\
     GetActiveStage "_api" w1 = (Ok "stage1", w1) /\
     ("stage1" <> "" ->
      GetConfigDir rejecting w1 =
      (Ok ((PackageDir rejecting +:+ "/_api/") +:+ "stage1"), w1))) /\
    "_api" ∈ packages w1 /\
    CreateStorage rejecting w1 = (Ok tt, w1).
Proof.
  apply (CreateStorage_idempotent rejecting bare (with_new_package bare) "stage1").
  reflexivity.
Defined.
